(** * Shift-logbook generators: content selection, scheduling and assembly

    A shallow embedding of the Python generators of the repository

      - [generator.py]              ([LogbookGenerator]),
      - [generator_custom.py]       ([CustomLogbookGenerator]),
      - [logbook_generator.py]      ([_choose_unique], [generate_shift_data]),
      - [csv_processor.py]          ([CSVProcessor]),
      - [csv_processor_completo.py] ([CSVProcessorCompleto]),

    and the properties of the design document checked against them.

    Python dictionaries are finite maps ([gmap]); a missing key raises
    [KeyError].  Python lists are lists.  The random source is threaded
    explicitly: every [random.choice] consumes one raw draw.  Exceptions are
    values of an error monad.  Part I is the embedding, Part II the
    vocabulary of the design document, Part III the theorems. *)

From stdpp Require Import gmap strings list fin_maps pretty.
From Stdlib Require Import ZArith Lia Ascii.

Open Scope string_scope.
Open Scope nat_scope.

(** * Part I: the embedding *)

(** ** Python primitives *)

Module Py.

(** The built-in exceptions the modelled code can raise. *)
Inductive exn : Type :=
| KeyError (key : string)
| IndexError
| ZeroDivisionError
| TypeError
| ValueError
| AttributeError
| OverflowError.

Inductive res (A : Type) : Type :=
| Ok (a : A)
| Raise (e : exn).
Arguments Ok {A} a.
Arguments Raise {A} e.

(** The random source: the raw draws still to come, next one first.  A
    source that is used up keeps drawing [0], so a list stands for an
    infinite sequence of draws that is eventually [0]; a run consumes
    finitely many of them. *)
Definition rng : Type := list nat.

(** Computations that draw random numbers and may raise. *)
Definition M (A : Type) : Type := rng → res (A * rng).

Definition ret {A} (a : A) : M A := λ g, Ok (a, g).
Definition raise {A} (e : exn) : M A := λ _, Raise e.
Definition bind {A B} (m : M A) (k : A → M B) : M B :=
  λ g, match m g with
       | Ok (a, g') => k a g'
       | Raise e => Raise e
       end.

(** [d[k]] on a dictionary. *)
Definition getitem {V} (d : gmap string V) (k : string) : M V :=
  match d !! k with
  | Some v => ret v
  | None => raise (KeyError k)
  end.

(** [random._randbelow(n)] for [n > 0]: the next raw draw, reduced below
    [n]. *)
Definition randbelow (n : nat) : M nat :=
  λ g, Ok (hd 0 g mod n, tl g).

(** [random.choice(seq)]: [IndexError] on an empty sequence, otherwise
    [seq[randbelow(len(seq))]]. *)
Definition choice {A} (seq : list A) : M A :=
  match seq with
  | [] => raise IndexError
  | _ => bind (randbelow (length seq))
           (λ i, match seq !! i with
                 | Some x => ret x
                 | None => raise IndexError
                 end)
  end.

(** [a // b] and [a % b] on integers (floor division; the remainder has the
    sign of the divisor). *)
Definition floordiv (a b : Z) : res Z :=
  if decide (b = 0)%Z then Raise ZeroDivisionError else Ok (a `div` b)%Z.
Definition modulo (a b : Z) : res Z :=
  if decide (b = 0)%Z then Raise ZeroDivisionError else Ok (a `mod` b)%Z.

(** [seq[i]] on a list, with Python's negative indices. *)
Definition index {A} (seq : list A) (i : Z) : res A :=
  let n := Z.of_nat (length seq) in
  let j := if decide (i < 0)%Z then (i + n)%Z else i in
  if decide (0 ≤ j < n)%Z then
    match seq !! Z.to_nat j with
    | Some x => Ok x
    | None => Raise IndexError
    end
  else Raise IndexError.

(** A pure fallible step inside [M]. *)
Definition lift {A} (r : res A) : M A :=
  λ g, match r with Ok a => Ok (a, g) | Raise e => Raise e end.

(** [for x in xs: st = body(x, st); out.append(...)]: the loops of the
    generators, which append one record per iteration and carry the mutable
    state [st] along. *)
Fixpoint for_each {X S R} (body : X → S → M (R * S)) (xs : list X) (st : S)
    : M (list R * S) :=
  match xs with
  | [] => ret ([], st)
  | x :: xs' =>
      bind (body x st) (λ '(r, st'),
      bind (for_each body xs' st') (λ '(rs, st''),
      ret (r :: rs, st'')))
  end.

(** *** Strings *)

(** Strings are the UTF-8 encodings of Python's strings, byte by byte.

    The white space of [str.strip()] and [str.isspace()].  Among the ASCII
    characters: tab, line feed, vertical tab, form feed, carriage return,
    the four separators 0x1c to 0x1f, and the space. *)
Definition is_space (c : ascii) : bool :=
  let n := nat_of_ascii c in
  ((9 <=? n) && (n <=? 13)) || ((28 <=? n) && (n <=? 32)).

(** Of two bytes: U+0085 (next line) and U+00A0 (no-break space), encoded
    [C2 85] and [C2 A0]. *)
Definition is_space2 (a b : ascii) : bool :=
  let x := nat_of_ascii a in
  let y := nat_of_ascii b in
  (x =? 194) && ((y =? 133) || (y =? 160)).

(** Of three bytes: U+1680 ([E1 9A 80]); U+2000 to U+200A, U+2028, U+2029
    and U+202F ([E2 80 80] to [E2 80 8A], [E2 80 A8], [E2 80 A9],
    [E2 80 AF]); U+205F ([E2 81 9F]); U+3000 ([E3 80 80]).  No character of
    four bytes is white space. *)
Definition is_space3 (a b c : ascii) : bool :=
  let x := nat_of_ascii a in
  let y := nat_of_ascii b in
  let z := nat_of_ascii c in
  ((x =? 225) && (y =? 154) && (z =? 128)) ||
  ((x =? 226) && (y =? 128) &&
   (((128 <=? z) && (z <=? 138)) || (z =? 168) || (z =? 169) || (z =? 175))) ||
  ((x =? 226) && (y =? 129) && (z =? 159)) ||
  ((x =? 227) && (y =? 128) && (z =? 128)).

(** [s.lstrip()]: the leading white-space characters removed. *)
Fixpoint lstrip (s : string) : string :=
  match s with
  | EmptyString => EmptyString
  | String a s1 =>
      if is_space a then lstrip s1
      else
        match s1 with
        | EmptyString => s
        | String b s2 =>
            if is_space2 a b then lstrip s2
            else
              match s2 with
              | EmptyString => s
              | String c s3 => if is_space3 a b c then lstrip s3 else s
              end
        end
  end.

(** The same on a string read backwards, where the bytes of a character
    come last byte first.  In UTF-8 the last bytes of a text that spell a
    character are that character, so trimming from the end can go byte by
    byte as well. *)
Fixpoint lstrip_reversed (s : string) : string :=
  match s with
  | EmptyString => EmptyString
  | String a s1 =>
      if is_space a then lstrip_reversed s1
      else
        match s1 with
        | EmptyString => s
        | String b s2 =>
            if is_space2 b a then lstrip_reversed s2
            else
              match s2 with
              | EmptyString => s
              | String c s3 =>
                  if is_space3 c b a then lstrip_reversed s3 else s
              end
        end
  end.

(** [s.rstrip()]. *)
Definition rstrip (s : string) : string :=
  String.rev (lstrip_reversed (String.rev s)).

(** [s.strip()]. *)
Definition strip (s : string) : string := rstrip (lstrip s).

(** Truth value of a string: non-empty. *)
Definition truthy (s : string) : bool :=
  match s with EmptyString => false | _ => true end.

(** [s.title()] on ASCII text: the first letter of every run of letters in
    upper case, the rest of the run in lower case. *)
Definition is_lower (c : ascii) : bool :=
  (97 <=? nat_of_ascii c) && (nat_of_ascii c <=? 122).
Definition is_upper (c : ascii) : bool :=
  (65 <=? nat_of_ascii c) && (nat_of_ascii c <=? 90).
Definition to_upper (c : ascii) : ascii :=
  if is_lower c then ascii_of_nat (nat_of_ascii c - 32) else c.
Definition to_lower (c : ascii) : ascii :=
  if is_upper c then ascii_of_nat (nat_of_ascii c + 32) else c.

Fixpoint title_from (prev_cased : bool) (s : string) : string :=
  match s with
  | EmptyString => EmptyString
  | String c s' =>
      let cased := is_lower c || is_upper c in
      String (if prev_cased then to_lower c else to_upper c)
             (title_from cased s')
  end.
Definition title (s : string) : string := title_from false s.

(** *** Values read by [json.load] *)

(** A Python float: not a number, an infinity, or [mantissa * 2 ^ exponent].
    The generators pass numbers on and never compute with them. *)
Inductive float : Type :=
| FNaN
| FInfinity (negative : bool)
| FFinite (mantissa exponent : Z).

(** What [json.load] returns: [None], a Boolean, an integer, a float ([NaN]
    included, which [json.dump] writes and [json.load] reads), a string, a
    list or a dictionary with string keys. *)
Unset Elimination Schemes.
Inductive json : Type :=
| JNull
| JBool (b : bool)
| JInt (n : Z)
| JFloat (x : float)
| JStr (s : string)
| JList (items : list json)
| JDict (fields : gmap string json).
Set Elimination Schemes.

(** [v[k]] for a string [k]: the entry of a dictionary, [KeyError] when the
    key is missing.  A list, a string, a number, a Boolean and [None] take
    no string subscript: [TypeError]. *)
Definition subscript (v : json) (k : string) : res json :=
  match v with
  | JDict fields =>
      match fields !! k with
      | Some x => Ok x
      | None => Raise (KeyError k)
      end
  | _ => Raise TypeError
  end.

(** [v.strip()]: only strings have the method. *)
Definition str_strip (v : json) : res string :=
  match v with
  | JStr s => Ok (strip s)
  | _ => Raise AttributeError
  end.

(** *** Dates *)

(** A [datetime] at midnight is the number of its day in the proleptic
    Gregorian calendar: day 1 is 0001-01-01, the first date Python has, and
    [max_ordinal] is 9999-12-31, the last one. *)
Definition max_ordinal : Z := 3652059.

(** [d + timedelta(days=n)]: [OverflowError] when the day is not one of
    Python's dates. *)
Definition add_days (d n : Z) : res Z :=
  if decide (1 ≤ d + n ≤ max_ordinal)%Z then Ok (d + n)%Z
  else Raise OverflowError.

(** [datetime.strptime(v, '%Y-%m-%d')].  The parser of the library is a
    parameter: [strptime s] is the day the text [s] denotes, or the error
    the library raises on it ([ValueError]).  Anything but a string is a
    [TypeError]. *)
Definition parse_date (strptime : string → res Z) (v : json) : res Z :=
  match v with
  | JStr s => strptime s
  | _ => Raise TypeError
  end.

End Py.

Notation "'let!' x ':=' e 'in' k" := (Py.bind e (λ x, k))
  (at level 10, x pattern, e at level 100, k at level 200,
   format "'[v' 'let!'  x  ':='  e  'in' '/' k ']'").

Import Py.

(** ** [generator.py]: the automatic generator *)

Module Generator.

(** [config.json] is used as [json.load] returns it: the generators read
    [config['start_date']], [config['establishment']],
    [config['menu_style']] and, under [config['shifts'][kind]], the entries
    [start_time], [end_time] and [hours]. *)

(** [content_pools.json]: the narrative pools by category, lists of texts,
    and the other entries the generators read ([prepared_service], a
    dictionary by kind of shift, and the workflow tables [workflow_lunch]
    and [workflow_dinner]) as [json.load] returns them. *)
Record Content : Type := {
  pools : gmap string (list string);
  entries : gmap string json;
}.

(** One entry of the list [generate_shifts] returns.  [date] is the day
    that [strftime] prints.  What is copied from the two files is a value
    of any kind. *)
Record ShiftData : Type := {
  shift_number : nat;
  sd_establishment : json;
  date : Z;
  shift_type : string;
  sd_start_time : json;
  sd_end_time : json;
  sd_hours : json;
  sd_menu_style : json;
  sd_prepared_service : json;
  special_requests : string;
  food_details : string;
  complaints : string;
  debrief : string;
  workflow : json;
}.

(** The mutable dictionary [used_content]: category to recently used
    values, oldest first. *)
Abbreviation UsedContent := (gmap string (list string)).

(** [get_varied_content(content_type, used_content)].  The dictionary is
    mutated in place in the source; here the updated dictionary is returned
    beside the selected value. *)
Definition get_varied_content (content : gmap string (list string))
    (content_type : string) (used_content : UsedContent)
    : M (string * UsedContent) :=
  let! available_content := getitem content content_type in
  (* if len(used_content[content_type]) >= len(available_content): reset *)
  let! used := getitem used_content content_type in
  let used_content :=
    if decide (length available_content ≤ length used)
    then <[content_type := []]> used_content
    else used_content in
  (* unused = [item for item in available_content if item not in used] *)
  let! used := getitem used_content content_type in
  let unused := filter (λ item, item ∉ used) available_content in
  let! selected :=
    match unused with
    | [] => choice available_content
    | _ => choice unused
    end in
  (* used_content[content_type].append(selected) *)
  let! used := getitem used_content content_type in
  let used_content := <[content_type := (used ++ [selected])%list]> used_content in
  (* if len(used_content[content_type]) > 3: pop(0) *)
  let! used := getitem used_content content_type in
  let used_content :=
    if decide (3 < length used)
    then <[content_type := drop 1 used]> used_content
    else used_content in
  ret (selected, used_content).

(** The literal [used_content] of [generate_shifts]. *)
Definition initial_used_content : UsedContent :=
  {[ "special_requests" := []; "food_details" := [];
     "complaints" := []; "debrief" := [] ]}.

(** Lines 55 to 59: date and kind of the shift at loop index [i], from the
    parsed start date. *)
Definition shift_slot (start_date : Z) (i : nat) : res (Z * string) :=
  match floordiv (Z.of_nat i) 2 with
  | Raise e => Raise e
  | Ok d =>
      match add_days start_date d with
      | Raise e => Raise e
      | Ok shift_date =>
          match modulo (Z.of_nat i) 2 with
          | Raise e => Raise e
          | Ok m =>
              let shift_type := if decide (m = 0)%Z then "lunch" else "dinner" in
              Ok (shift_date, shift_type)
          end
      end
  end.

(** [self.config['shifts'][shift_type][field]]. *)
Definition timing_field (config : json) (shift_type field : string) : M json :=
  let! shifts := lift (subscript config "shifts") in
  let! timing := lift (subscript shifts shift_type) in
  lift (subscript timing field).

(** [self.content['prepared_service'][shift_type]]. *)
Definition prepared_text (content : Content) (shift_type : string) : M json :=
  let! table := getitem (entries content) "prepared_service" in
  lift (subscript table shift_type).

(** The body of the loop of [generate_shifts], for the index [i]; the
    entries of the dictionary are evaluated in the order they are
    written. *)
Definition shift_body (config : json) (content : Content) (start_date : Z)
    (i : nat) (used_content : UsedContent) : M (ShiftData * UsedContent) :=
  let! (shift_date, shift_type) := lift (shift_slot start_date i) in
  let! establishment := lift (subscript config "establishment") in
  let! start_time := timing_field config shift_type "start_time" in
  let! end_time := timing_field config shift_type "end_time" in
  let! hours := timing_field config shift_type "hours" in
  let! menu_style := lift (subscript config "menu_style") in
  let! prepared := prepared_text content shift_type in
  let! (sr, used_content) :=
    get_varied_content (pools content) "special_requests" used_content in
  let! (fd, used_content) :=
    get_varied_content (pools content) "food_details" used_content in
  let! (co, used_content) :=
    get_varied_content (pools content) "complaints" used_content in
  let! (de, used_content) :=
    get_varied_content (pools content) "debrief" used_content in
  let! wf := getitem (entries content) ("workflow_" +:+ shift_type) in
  ret ({| shift_number := i + 1;
          sd_establishment := establishment;
          date := shift_date;
          shift_type := title shift_type;
          sd_start_time := start_time;
          sd_end_time := end_time;
          sd_hours := hours;
          sd_menu_style := menu_style;
          sd_prepared_service := prepared;
          special_requests := sr;
          food_details := fd;
          complaints := co;
          debrief := de;
          workflow := wf |}, used_content).

(** Line 44: [datetime.strptime(self.config['start_date'], '%Y-%m-%d')]. *)
Definition read_start_date (strptime : string → res Z) (config : json) : M Z :=
  let! text := lift (subscript config "start_date") in
  lift (parse_date strptime text).

(** The loop of [generate_shifts] from the parsed start date. *)
Definition shifts_loop (config : json) (content : Content) (start_date : Z)
    : M (list ShiftData * UsedContent) :=
  for_each (shift_body config content start_date) (seq 0 48)
    initial_used_content.

(** [generate_shifts()], with the final [used_content] kept beside the
    returned list. *)
Definition generate_shifts_state (strptime : string → res Z) (config : json)
    (content : Content) : M (list ShiftData * UsedContent) :=
  let! start_date := read_start_date strptime config in
  shifts_loop config content start_date.

Definition generate_shifts (strptime : string → res Z) (config : json)
    (content : Content) : M (list ShiftData) :=
  let! (shifts, _) := generate_shifts_state strptime config content in
  ret shifts.

End Generator.

(** ** [generator_custom.py]: custom records merged with the pools *)

Module GeneratorCustom.

Import Generator.

(** One record of [shifts_data_custom.json]: field name to value.  The
    values are texts when the record was typed in; a record imported from a
    sheet has [NaN] where a cell was left empty. *)
Abbreviation CustomShift := (gmap string json).

(** The dictionary both [merge_custom_data] and [generate_automatic_data]
    return: the five narrative fields. *)
Record Data : Type := {
  d_prepared_service : json;
  d_special_requests : string;
  d_food_details : string;
  d_complaints : string;
  d_debrief : string;
}.

(** The body of the loop of [merge_custom_data] over the four fields:
    [if field in custom_shift and custom_shift[field].strip()]. *)
Definition merge_field (content_pools : gmap string (list string))
    (custom_shift : CustomShift) (field : string) : M string :=
  match custom_shift !! field with
  | Some (JStr text) =>
      if truthy (strip text) then ret text
      else let! pool := getitem content_pools field in choice pool
  | Some _ => raise AttributeError
  | None => let! pool := getitem content_pools field in choice pool
  end.

(** [merge_custom_data(custom_shift, shift_type)].  The default of
    [custom_shift.get] is evaluated before the call. *)
Definition merge_custom_data (content_pools : Content)
    (custom_shift : CustomShift) (shift_type : string) : M Data :=
  let! standard := prepared_text content_pools shift_type in
  let prepared := default standard (custom_shift !! "prepared_service") in
  let! sr := merge_field (pools content_pools) custom_shift "special_requests" in
  let! fd := merge_field (pools content_pools) custom_shift "food_details" in
  let! co := merge_field (pools content_pools) custom_shift "complaints" in
  let! de := merge_field (pools content_pools) custom_shift "debrief" in
  ret {| d_prepared_service := prepared;
         d_special_requests := sr;
         d_food_details := fd;
         d_complaints := co;
         d_debrief := de |}.

(** [get_varied_content]: the same text as in [generator.py], over
    [self.content_pools]. *)
Definition get_varied_content := Generator.get_varied_content.

(** [generate_automatic_data(shift_type, used_content)]. *)
Definition generate_automatic_data (content_pools : Content)
    (shift_type : string) (used_content : UsedContent)
    : M (Data * UsedContent) :=
  let! prepared := prepared_text content_pools shift_type in
  let! (sr, used_content) :=
    get_varied_content (pools content_pools) "special_requests" used_content in
  let! (fd, used_content) :=
    get_varied_content (pools content_pools) "food_details" used_content in
  let! (co, used_content) :=
    get_varied_content (pools content_pools) "complaints" used_content in
  let! (de, used_content) :=
    get_varied_content (pools content_pools) "debrief" used_content in
  ret ({| d_prepared_service := prepared;
          d_special_requests := sr;
          d_food_details := fd;
          d_complaints := co;
          d_debrief := de |}, used_content).

(** The body of the loop of [generate_shifts], for the index [i].
    [custom_data] is the dictionary [load_custom_data] builds, read at the
    shift numbers: the record of a shift number, when there is one. *)
Definition shift_body (config : json) (content_pools : Content)
    (custom_data : gmap nat CustomShift) (start_date : Z) (i : nat)
    (used_content : UsedContent) : M (ShiftData * UsedContent) :=
  let shift_number := i + 1 in
  let! (shift_date, shift_type) := lift (shift_slot start_date i) in
  let! establishment := lift (subscript config "establishment") in
  let! start_time := timing_field config shift_type "start_time" in
  let! end_time := timing_field config shift_type "end_time" in
  let! hours := timing_field config shift_type "hours" in
  let! menu_style := lift (subscript config "menu_style") in
  let! wf := getitem (entries content_pools) ("workflow_" +:+ shift_type) in
  let! (data, used_content) :=
    match custom_data !! shift_number with
    | Some custom_shift =>
        let! data := merge_custom_data content_pools custom_shift shift_type in
        ret (data, used_content)
    | None => generate_automatic_data content_pools shift_type used_content
    end in
  ret ({| shift_number := shift_number;
          sd_establishment := establishment;
          date := shift_date;
          shift_type := title shift_type;
          sd_start_time := start_time;
          sd_end_time := end_time;
          sd_hours := hours;
          sd_menu_style := menu_style;
          sd_prepared_service := d_prepared_service data;
          special_requests := d_special_requests data;
          food_details := d_food_details data;
          complaints := d_complaints data;
          debrief := d_debrief data;
          workflow := wf |}, used_content).

(** The loop of [generate_shifts] over a list of indices, from a given
    [used_content]; [generate_shifts] runs it over [range(48)]. *)
Definition shifts_loop (config : json) (content_pools : Content)
    (custom_data : gmap nat CustomShift) (start_date : Z)
    (indices : list nat) (used_content : UsedContent)
    : M (list ShiftData * UsedContent) :=
  for_each (shift_body config content_pools custom_data start_date) indices
    used_content.

Definition generate_shifts_state (strptime : string → res Z) (config : json)
    (content_pools : Content) (custom_data : gmap nat CustomShift)
    : M (list ShiftData * UsedContent) :=
  let! start_date := read_start_date strptime config in
  shifts_loop config content_pools custom_data start_date (seq 0 48)
    initial_used_content.

Definition generate_shifts (strptime : string → res Z) (config : json)
    (content_pools : Content) (custom_data : gmap nat CustomShift)
    : M (list ShiftData) :=
  let! (shifts, _) :=
    generate_shifts_state strptime config content_pools custom_data in
  ret shifts.

End GeneratorCustom.

(** ** [logbook_generator.py]: the recipe rotation *)

Module LogbookGenerator.

(** [r not in history or day - history[r] >= gap]. *)
Definition available_on (history : gmap string Z) (day gap : Z) (r : string)
    : bool :=
  match history !! r with
  | None => true
  | Some used => bool_decide (gap ≤ day - used)%Z
  end.

(** [_choose_unique(item_list, history, day, gap)]; the mutated [history]
    is returned beside the choice. *)
Definition _choose_unique (item_list : list string) (history : gmap string Z)
    (day : Z) (gap : Z) : M (string * gmap string Z) :=
  let available := filter (λ r, available_on history day gap r) item_list in
  let (history, available) :=
    match available with
    | [] => (∅, item_list)
    | _ => (history, available)
    end in
  let! choice := choice available in
  ret (choice, <[choice := day]> history).

(** The default of the parameter [gap]. *)
Definition default_gap : Z := 8.

Definition get_observation (shift : string) : string :=
  if decide (shift = "Preparation") then "General mise en place for service."
  else if decide (shift = "Sauce") then "Sauce station duties following recipes."
  else "Garnish and finishing touches during service.".

Definition pattern : list string := ["Preparation"; "Sauce"; "Garnish"].
Definition rotation : Z := 5.

Record DayData : Type := {
  shift : string;
  protein : string;
  sauce : string;
  accompaniment : string;
  obs : string;
}.

(** The three dictionaries of [histories]. *)
Record Histories : Type := {
  h_proteins : gmap string Z;
  h_sauces : gmap string Z;
  h_accompaniments : gmap string Z;
}.

Definition initial_histories : Histories :=
  {| h_proteins := ∅; h_sauces := ∅; h_accompaniments := ∅ |}.

(** Line 80: the kind of shift of a day. *)
Definition shift_of_day (day : Z) : res string :=
  match floordiv (day - 1) rotation with
  | Raise e => Raise e
  | Ok block =>
      match modulo block (Z.of_nat (length pattern)) with
      | Raise e => Raise e
      | Ok k => index pattern k
      end
  end.

(** The body of the loop of [generate_shift_data]. *)
Definition day_body (recipes : gmap string (list string)) (day : Z)
    (histories : Histories) : M (DayData * Histories) :=
  let! shift := lift (shift_of_day day) in
  let! proteins := getitem recipes "proteins" in
  let! (protein, hp) :=
    _choose_unique proteins (h_proteins histories) day default_gap in
  let! sauces := getitem recipes "sauces" in
  let! (sauce, hs) :=
    _choose_unique sauces (h_sauces histories) day default_gap in
  let! accompaniments := getitem recipes "accompaniments" in
  let! (accompaniment, ha) :=
    _choose_unique accompaniments (h_accompaniments histories) day default_gap in
  ret ({| shift := shift;
          protein := protein;
          sauce := sauce;
          accompaniment := accompaniment;
          obs := get_observation shift |},
       {| h_proteins := hp; h_sauces := hs; h_accompaniments := ha |}).

(** [range(1, days + 1)]. *)
Definition day_range (days : Z) : list Z :=
  (λ k, Z.of_nat k) <$> seq 1 (Z.to_nat days).

(** [generate_shift_data(recipes, days)], with the final histories kept
    beside the returned list. *)
Definition generate_shift_data_state (recipes : gmap string (list string))
    (days : Z) : M (list DayData * Histories) :=
  for_each (day_body recipes) (day_range days) initial_histories.

Definition generate_shift_data (recipes : gmap string (list string))
    (days : Z) : M (list DayData) :=
  let! (data, _) := generate_shift_data_state recipes days in
  ret data.

End LogbookGenerator.

(** ** Data frames *)

Module Frame.

(** A cell of a data frame read from a CSV file: [None] is the missing
    value (NaN), [Some s] a text. *)
Abbreviation cell := (option string).

(** A row: column name to cell.  A data frame is the list of its rows. *)
Abbreviation Row := (gmap string cell).

(** [pd.isna(v) or v == '']. *)
Definition is_blank (v : cell) : bool :=
  match v with
  | None => true
  | Some s => bool_decide (s = "")
  end.

(** [v in pool] for a cell: NaN equals no text. *)
Definition cell_in (v : cell) (pool : list string) : bool :=
  match v with
  | None => false
  | Some s => bool_decide (s ∈ pool)
  end.

(** Truth value of a cell: NaN is a non-zero float, hence true. *)
Definition cell_truthy (v : cell) : bool :=
  match v with
  | None => true
  | Some s => truthy s
  end.

(** [if pd.isna(row[col]) or row[col] == '':
       filled_df.at[index, col] = random.choice(content_pools[key])].
    [row] is the copy of the row that [iterrows] yielded, [filled] the row
    of [filled_df] being written. *)
Definition fill_cell (content_pools : gmap string (list string)) (row : Row)
    (col key : string) (filled : Row) : M Row :=
  let! v := getitem row col in
  if is_blank v then
    let! pool := getitem content_pools key in
    let! text := choice pool in
    ret (<[col := Some text]> filled)
  else ret filled.

(** The same for a list of columns with their pool keys, in order. *)
Fixpoint fill_cells (content_pools : gmap string (list string)) (row : Row)
    (fields : list (string * string)) (filled : Row) : M Row :=
  match fields with
  | [] => ret filled
  | (col, key) :: fields' =>
      let! filled := fill_cell content_pools row col key filled in
      fill_cells content_pools row fields' filled
  end.

(** [for index, row in filled_df.iterrows(): ...], returning the frame. *)
Definition for_rows (body : Row → M Row) (df : list Row) : M (list Row) :=
  let! (rows, _) := for_each (λ row (_ : unit),
                       let! filled := body row in ret (filled, ())) df () in
  ret rows.

End Frame.

(** ** [csv_processor.py] *)

Module CsvProcessor.

Import Frame.

(** The pools [load_content_pools] falls back to when the file is
    missing. *)
Definition default_content_pools : gmap string (list string) :=
  {[ "food_details" :=
       [ "Preparei hambúrgueres, batatas fritas e saladas do dia.";
         "Trabalhei com grelhados, risotos e pratos principais.";
         "Foquei em preparação de sopas, massas e sobremesas." ];
     "special_requests" :=
       [ "Cliente pediu refeição sem glúten.";
         "Solicitação especial de temperatura na carne.";
         "Adaptação para cliente vegetariano." ];
     "problems" :=
       [ "Equipamento apresentou problema temporário.";
         "Demanda maior que esperado durante pico.";
         "Ajuste necessário na temperatura de cozimento." ];
     "solutions" :=
       [ "Resolvi rapidamente com ajuda da equipe.";
         "Ajustei processo e melhorei eficiência.";
         "Comuniquei problema e implementei solução." ];
     "learnings" :=
       [ "Aprendi importância do trabalho em equipe.";
         "Desenvolvi técnicas de organização no tempo.";
         "Melhorei comunicação com colegas." ] ]}.

(** The columns [fill_missing_data] fills, each with the key of its pool,
    in the order of the source. *)
Definition content_fields : list (string * string) :=
  [ ("food_details", "food_details");
    ("special_requests", "special_requests");
    ("complaints_problems", "problems");
    ("solutions_implemented", "solutions");
    ("debrief_learnings", "learnings") ].

(** One iteration of the loop of [fill_missing_data]. *)
Definition fill_row (content_pools : gmap string (list string)) (row : Row)
    : M Row :=
  fill_cells content_pools row content_fields row.

(** [fill_missing_data(df)]. *)
Definition fill_missing_data (content_pools : gmap string (list string))
    (df : list Row) : M (list Row) :=
  for_rows (fill_row content_pools) df.

(** [any(row[col] in self.content_pools.get(key, []) for col, key in ...)]. *)
Fixpoint any_in_pool (content_pools : gmap string (list string)) (row : Row)
    (fields : list (string * string)) : res bool :=
  match fields with
  | [] => Ok false
  | (col, key) :: fields' =>
      match row !! col with
      | None => Raise (KeyError col)
      | Some v =>
          if cell_in v (default [] (content_pools !! key)) then Ok true
          else any_in_pool content_pools row fields'
      end
  end.

(** The loop that counts the rows: [(manual_count, auto_count)]. *)
Fixpoint count_rows (content_pools : gmap string (list string))
    (df : list Row) (manual_count auto_count : nat) : res (nat * nat) :=
  match df with
  | [] => Ok (manual_count, auto_count)
  | row :: df' =>
      match any_in_pool content_pools row content_fields with
      | Raise e => Raise e
      | Ok true => count_rows content_pools df' manual_count (auto_count + 1)
      | Ok false => count_rows content_pools df' (manual_count + 1) auto_count
      end
  end.

(** [len(df[df['shift_type'] == kind])]. *)
Fixpoint count_kind (kind : string) (df : list Row) : res nat :=
  match df with
  | [] => Ok 0
  | row :: df' =>
      match row !! "shift_type" with
      | None => Raise (KeyError "shift_type")
      | Some v =>
          match count_kind kind df' with
          | Raise e => Raise e
          | Ok n => Ok (if bool_decide (v = Some kind) then S n else n)
          end
      end
  end.

(** What [generate_summary_report] writes. *)
Record Summary : Type := {
  total : nat;
  lunch_count : nat;
  dinner_count : nat;
  manual_count : nat;
  auto_count : nat;
}.

(** [generate_summary_report(df)]: the numbers of the report. *)
Definition generate_summary_report (content_pools : gmap string (list string))
    (df : list Row) : res Summary :=
  match count_kind "lunch" df with
  | Raise e => Raise e
  | Ok lunch =>
      match count_kind "dinner" df with
      | Raise e => Raise e
      | Ok dinner =>
          match count_rows content_pools df 0 0 with
          | Raise e => Raise e
          | Ok (manual, auto) =>
              Ok {| total := length df;
                    lunch_count := lunch;
                    dinner_count := dinner;
                    manual_count := manual;
                    auto_count := auto |}
          end
      end
  end.

End CsvProcessor.

(** ** [csv_processor_completo.py] *)

Module CsvProcessorCompleto.

Import Frame.

(** The dictionary [content_fields], in its order. *)
Definition content_fields : list (string * string) :=
  [ ("prepared_for_service", "prepared_for_service");
    ("special_requests", "special_requests");
    ("food_details", "food_details");
    ("complaints_problems", "complaints_problems");
    ("solutions_implemented", "solutions_implemented");
    ("debrief_learnings", "debrief_learnings");
    ("handover_completed", "handover_completed");
    ("customer_feedback", "customer_feedback") ].

(** The column names of the workflow row [i]. *)
Definition timeline_col (i : nat) : string := "workflow_timeline_" +:+ pretty i.
Definition task_col (i : nat) : string := "workflow_task_" +:+ pretty i.
Definition equipment_col (i : nat) : string := "workflow_equipment_" +:+ pretty i.
Definition communication_col (i : nat) : string :=
  "workflow_communication_" +:+ pretty i.

Definition lunch_times : list string :=
  ["10:30"; "11:00"; "12:00"; "13:00"; "14:00"; "15:00"; "15:30"; "16:00"].
Definition dinner_times : list string :=
  ["16:00"; "17:00"; "18:00"; "19:00"; "20:00"; "21:00"; "21:30"; "22:00"].

(** [if pd.isna(row[col]) or row[col] == '':
       filled_df.at[index, col] = self.config.get(key, fallback)]. *)
Definition fill_from_config (config : gmap string string) (row : Row)
    (col fallback : string) (filled : Row) : M Row :=
  let! v := getitem row col in
  if is_blank v then ret (<[col := Some (default fallback (config !! col))]> filled)
  else ret filled.

(** The body of the loop over the eight workflow rows. *)
Definition fill_workflow_row (content_pools : gmap string (list string))
    (row : Row) (i : nat) (filled : Row) : M Row :=
  let! v := getitem row (timeline_col i) in
  if is_blank v then
    let! kind := getitem row "shift_type" in
    let base_times :=
      if bool_decide (kind = Some "lunch") then lunch_times else dinner_times in
    if decide (i ≤ length base_times) then
      let! t := lift (index base_times (Z.of_nat i - 1)) in
      let filled := <[timeline_col i := Some t]> filled in
      let! tasks := getitem content_pools "workflow_tasks" in
      let! x := choice tasks in
      let filled := <[task_col i := Some x]> filled in
      let! equipments := getitem content_pools "workflow_equipment" in
      let! x := choice equipments in
      let filled := <[equipment_col i := Some x]> filled in
      let! communications := getitem content_pools "workflow_communication" in
      let! x := choice communications in
      let filled := <[communication_col i := Some x]> filled in
      ret filled
    else ret filled
  else ret filled.

Fixpoint fill_workflow (content_pools : gmap string (list string))
    (row : Row) (rows : list nat) (filled : Row) : M Row :=
  match rows with
  | [] => ret filled
  | i :: rows' =>
      let! filled := fill_workflow_row content_pools row i filled in
      fill_workflow content_pools row rows' filled
  end.

(** One iteration of the loop of [fill_missing_data]. *)
Definition fill_row (config : gmap string string)
    (content_pools : gmap string (list string)) (row : Row) : M Row :=
  let! filled := fill_from_config config row "establishment" "Restaurant Name" row in
  let! filled := fill_from_config config row "menu_style" "à la carte" filled in
  let! filled := fill_cells content_pools row content_fields filled in
  fill_workflow content_pools row (seq 1 8) filled.

(** [fill_missing_data(df)]. *)
Definition fill_missing_data (config : gmap string string)
    (content_pools : gmap string (list string)) (df : list Row)
    : M (list Row) :=
  for_rows (fill_row config content_pools) df.

(** One row of [workflow_data]. *)
Record WorkflowEntry : Type := {
  timeline : cell;
  task : cell;
  equipment : cell;
  communication : cell;
}.

(** [row.get(col, '')]. *)
Definition row_get (row : Row) (col : string) : cell :=
  default (Some "") (row !! col).

(** The body of the loop that builds [workflow_data]: the entry of the
    workflow row [i], when [timeline and task] holds. *)
Definition workflow_entry (row : Row) (i : nat) : option WorkflowEntry :=
  let timeline := row_get row (timeline_col i) in
  let task := row_get row (task_col i) in
  let equipment := row_get row (equipment_col i) in
  let communication := row_get row (communication_col i) in
  if cell_truthy timeline && cell_truthy task then
    Some {| timeline := timeline; task := task;
            equipment := equipment; communication := communication |}
  else None.

(** [workflow_data], as [generate_documents] builds it for a row and hands
    it to [create_document] under [workflow_table]. *)
Definition workflow_data (row : Row) : list WorkflowEntry :=
  omap (workflow_entry row) (seq 1 8).

End CsvProcessorCompleto.

(** * Part II: the vocabulary of the design document *)

Module Spec.

(** ** The variety selector, section 4.2, steps 2 to 6 *)

(** The configured bound of a usage history. *)
Definition bound : nat := 3.

(** Step 3: the history counts as empty once it is as long as the pool. *)
Definition recent_for (pool history : list string) : list string :=
  if decide (length pool ≤ length history) then [] else history.

(** Step 4: the pool minus the recent values, or the full pool when nothing
    is left. *)
Definition candidates_allowed (pool recent : list string) : list string :=
  match list_difference pool recent with
  | [] => pool
  | allowed => allowed
  end.

(** Step 5: the candidate at the drawn position. *)
Definition chosen (allowed : list string) (draw : nat) : option string :=
  allowed !! (draw mod length allowed).

(** Step 6: append, and drop the oldest entry beyond the bound. *)
Definition recorded (recent : list string) (value : string) : list string :=
  let history := (recent ++ [value])%list in
  if decide (bound < length history) then drop 1 history else history.

(** The steps together: the value and the history after the call. *)
Definition select (pool history : list string) (draw : nat)
    : option (string * list string) :=
  let recent := recent_for pool history in
  match chosen (candidates_allowed pool recent) draw with
  | Some value => Some (value, recorded recent value)
  | None => None
  end.

(** ** The shift scheduler, section 4.1 *)

(** Date of the slot [i] (0-based): [start_date + floor(i / slots_per_day)]
    days. *)
Definition slot_date (start_date : Z) (slots_per_day i : nat) : Z :=
  (start_date + Z.of_nat (i / slots_per_day))%Z.

(** Simple alternation: [kinds[i % len(kinds)]]. *)
Definition alternation (kinds : list string) (i : nat) : option string :=
  kinds !! (i mod length kinds).

(** Block rotation: [kinds[(i // block_size) % len(kinds)]]. *)
Definition block_rotation (kinds : list string) (block_size i : nat)
    : option string :=
  kinds !! ((i / block_size) mod length kinds).

(** [schedule(start_date, count, kinds, slots_per_day)] under simple
    alternation: index from 1, date, kind. *)
Definition schedule (start_date : Z) (count : nat) (kinds : list string)
    (slots_per_day : nat) : list (nat * Z * option string) :=
  (λ i, (i + 1, slot_date start_date slots_per_day i, alternation kinds i))
    <$> seq 0 count.

(** The kinds of [count] slots under block rotation. *)
Definition rotation_schedule (count : nat) (kinds : list string)
    (block_size : nat) : list (option string) :=
  block_rotation kinds block_size <$> seq 0 count.

End Spec.

(** ** Sequences of selector calls, and what is observed of them *)

Module Runs.

Import Generator.

(** A sequence of calls of the variety selector, one per listed category,
    on one [used_content]: the values returned, in order, and the
    dictionary after the last call. *)
Definition select_calls (content : gmap string (list string))
    (categories : list string) (used_content : UsedContent)
    : M (list string * UsedContent) :=
  for_each (get_varied_content content) categories used_content.

(** [n] consecutive calls for one category. *)
Definition select_repeat (content : gmap string (list string))
    (category : string) (n : nat) (used_content : UsedContent)
    : M (list string * UsedContent) :=
  select_calls content (replicate n category) used_content.

(** The pool holds at least [n] different values. *)
Definition distinct_at_least (n : nat) (pool : list string) : Prop :=
  ∃ values, NoDup values ∧ values ⊆ pool ∧ n ≤ length values.

(** The window of [k] consecutive selections that starts after the first
    [j] ones. *)
Definition window (j k : nat) (values : list string) : list string :=
  take k (drop j values).

(** The invariant of a history of the recipe rotation at the start of the
    day [day]: every recorded day lies before it, from day 1 on, and no two
    values were recorded on the same day. *)
Definition history_at (day : Z) (history : gmap string Z) : Prop :=
  (∀ value used, history !! value = Some used → (1 ≤ used < day)%Z) ∧
  (∀ value1 value2 used,
     history !! value1 = Some used → history !! value2 = Some used →
     value1 = value2).

(** No two consecutive entries of a list agree under [f]. *)
Definition no_consecutive_repeat {A} (f : A → string) (l : list A) : Prop :=
  ∀ i x y, l !! i = Some x → l !! S i = Some y → f x ≠ f y.

(** The invariant of a usage history: no category holds more than [bound]
    values. *)
Definition history_bounded (used_content : UsedContent) : Prop :=
  ∀ category history,
    used_content !! category = Some history → length history ≤ Spec.bound.

(** The four raw draws an automatic shift consumes. *)
Definition four_draws (g : rng) : list nat :=
  [hd 0 g; hd 0 (tl g); hd 0 (tl (tl g)); hd 0 (tl (tl (tl g)))].

(** The loop index [i] has no custom record. *)
Definition automatic (custom_data : gmap nat (gmap string json)) (i : nat)
    : Prop :=
  custom_data !! (i + 1) = None.

(** What the scheduler decided for a shift: number, date and kind. *)
Definition slot_of (shift : ShiftData) : nat * Z * option string :=
  (shift_number shift, date shift, Some (shift_type shift)).

(** The kinds of the daily generators, as the loop spells them. *)
Definition daily_kinds : list string := ["lunch"; "dinner"].

(** The four narrative categories. *)
Definition categories : list string :=
  ["special_requests"; "food_details"; "complaints"; "debrief"].

(** Line 44 reads the start date [start] from the configuration: the entry
    is a text and the parser accepts it. *)
Definition reads_start (strptime : string → res Z) (config : json)
    (start : Z) : Prop :=
  ∃ text, subscript config "start_date" = Ok (JStr text) ∧
          strptime text = Ok start.

(** The days of the 48 shifts from [start] are dates of Python: the start
    date is one, and so is the day 23 days later. *)
Definition dates_in_range (start : Z) : Prop :=
  (1 ≤ start ∧ start + 23 ≤ max_ordinal)%Z.

(** The configuration has the three times of a kind of shift. *)
Definition timing_in_place (config : json) (kind : string) : Prop :=
  ∃ shifts timing,
    subscript config "shifts" = Ok shifts ∧
    subscript shifts kind = Ok timing ∧
    ∀ field, field ∈ ["start_time"; "end_time"; "hours"] →
             ∃ v, subscript timing field = Ok v.

(** The content store has the text and the workflow table of a kind of
    shift. *)
Definition texts_in_place (content : Content) (kind : string) : Prop :=
  (∃ table text, entries content !! "prepared_service" = Some table ∧
                 subscript table kind = Ok text) ∧
  is_Some (entries content !! ("workflow_" +:+ kind)).

(** The four narrative pools are there and not empty. *)
Definition pools_in_place (content : Content) : Prop :=
  ∀ category, category ∈ categories →
    ∃ pool, pools content !! category = Some pool ∧ pool ≠ [].

(** What every shift reads, whatever its kind. *)
Definition common_in_place (config : json) (content : Content) : Prop :=
  (∃ v, subscript config "establishment" = Ok v) ∧
  (∃ v, subscript config "menu_style" = Ok v) ∧
  pools_in_place content.

(** Everything a shift of the kind [kind] reads. *)
Definition kind_in_place (config : json) (content : Content) (kind : string)
    : Prop :=
  common_in_place config content ∧
  timing_in_place config kind ∧ texts_in_place content kind.

(** A configuration and a content store as the generators expect them:
    everything the shifts of both kinds read. *)
Definition in_place (config : json) (content : Content) : Prop :=
  ∀ kind, kind ∈ daily_kinds → kind_in_place config content kind.

(** The same with a start date the parser accepts and that leaves room for
    the 24 days of the logbook. *)
Definition well_formed (strptime : string → res Z) (config : json)
    (content : Content) : Prop :=
  (∃ start, reads_start strptime config start ∧ dates_in_range start) ∧
  in_place config content.

(** The dictionary [used_content] keeps its four categories. *)
Definition has_categories (used_content : UsedContent) : Prop :=
  ∀ category,
    category ∈ ["special_requests"; "food_details"; "complaints"; "debrief"] →
    is_Some (used_content !! category).

(** A small pool store and dictionary to run the selector on. *)
Definition sample_pools : gmap string (list string) :=
  {[ "debrief" := ["a"; "b"] ]}.
Definition sample_used : UsedContent := {[ "debrief" := [] ]}.

(** A configuration and a content store to run the generators on. *)
Definition sample_timing : json :=
  JDict {[ "start_time" := JStr "10:00"; "end_time" := JStr "16:00";
           "hours" := JInt 6 ]}.
Definition config_from (start_date : string) (shifts : gmap string json)
    : json :=
  JDict {[ "start_date" := JStr start_date;
           "establishment" := JStr "Kitchen";
           "shifts" := JDict shifts;
           "menu_style" := JStr "buffet" ]}.
Definition sample_config : json :=
  config_from "2024-01-15"
    {[ "lunch" := sample_timing; "dinner" := sample_timing ]}.
Definition sample_content : Content :=
  {| pools := {[ "special_requests" := ["r1"; "r2"];
                 "food_details" := ["f1"; "f2"; "f3"; "f4"];
                 "complaints" := ["c1"];
                 "debrief" := ["a"; "b"] ]};
     entries := {[ "prepared_service" :=
                     JDict {[ "lunch" := JStr "set up for lunch";
                              "dinner" := JStr "set up for dinner" ]};
                   "workflow_lunch" := JList [];
                   "workflow_dinner" := JList [] ]} |}.

(** The day of 2024-01-15, and of the last date of the calendar: the
    parser on the two dates the sample configurations hold.  The samples
    give it no other text. *)
Definition sample_strptime (text : string) : res Z :=
  if decide (text = "2024-01-15") then Ok 738900%Z
  else if decide (text = "9999-12-31") then Ok max_ordinal
  else Raise ValueError.

(** Recipes for the rotation: two proteins. *)
Definition sample_recipes : gmap string (list string) :=
  {[ "proteins" := ["a"; "b"]; "sauces" := ["s"]; "accompaniments" := ["x"] ]}.

(** The same configuration without the times of the dinner shift. *)
Definition config_without_dinner : json :=
  config_from "2024-01-15" {[ "lunch" := sample_timing ]}.

(** The same configuration starting on the last date of the calendar. *)
Definition config_last_day : json :=
  config_from "9999-12-31"
    {[ "lunch" := sample_timing; "dinner" := sample_timing ]}.

End Runs.

(** ** Overrides and provenance, sections 4.3 and 4.4 *)

Module Overrides.

Import Generator GeneratorCustom Frame.

(** How a field was resolved. *)
Inductive provenance : Type :=
| OVERRIDE_APPLIED
| POOL_SAMPLED.

(** The four narrative fields [merge_custom_data] resolves in its loop,
    each with its field of the result. *)
Definition narrative_fields : list (string * (Data → string)) :=
  [ ("special_requests", d_special_requests);
    ("food_details", d_food_details);
    ("complaints", d_complaints);
    ("debrief", d_debrief) ].

(** An override that is present, a text, and not blank after trimming. *)
Definition supplied (custom_shift : CustomShift) (field text : string) : Prop :=
  custom_shift !! field = Some (JStr text) ∧ truthy (strip text) = true.

(** An override that is absent, or a text that is blank after trimming. *)
Definition not_supplied (custom_shift : CustomShift) (field : string) : Prop :=
  match custom_shift !! field with
  | None => True
  | Some (JStr text) => truthy (strip text) = false
  | Some _ => False
  end.

(** The value of a field of a custom record is a text, or the field is
    absent. *)
Definition text_or_absent (custom_shift : CustomShift) (field : string)
    : Prop :=
  match custom_shift !! field with
  | None | Some (JStr _) => True
  | Some _ => False
  end.

(** The four narrative fields of a custom record are texts where they are
    present. *)
Definition typed_in (custom_shift : CustomShift) : Prop :=
  ∀ field, field ∈ Runs.categories → text_or_absent custom_shift field.

(** The branch [fill_missing_data] takes for a cell: the provenance flag
    of section 4.4, replayed from the input. *)
Definition cell_provenance (v : cell) : provenance :=
  if is_blank v then POOL_SAMPLED else OVERRIDE_APPLIED.

(** The field of the column [col] of an input row was resolved from the
    pool, respectively from the row. *)
Definition sampled (row : Row) (col : string) : bool :=
  match row !! col with
  | Some v => is_blank v
  | None => false
  end.
Definition overridden (row : Row) (col : string) : bool :=
  match row !! col with
  | Some v => negb (is_blank v)
  | None => false
  end.

(** The number of fields of a data frame, over the five narrative columns,
    that satisfy [p]. *)
Definition count_fields (p : Row → string → bool) (df : list Row) : nat :=
  sum_list ((λ row, length (filter (λ f, p row f.1) CsvProcessor.content_fields))
              <$> df).

(** An input row with at least one field resolved from the pool. *)
Definition has_sampled (row : Row) : bool :=
  existsb (λ f, sampled row f.1) CsvProcessor.content_fields.

(** A filled row with at least one cell that is a candidate of its pool:
    the test of the summary report. *)
Definition in_pool_row (content_pools : gmap string (list string)) (row : Row)
    : bool :=
  existsb (λ f, cell_in (default None (row !! f.1))
                  (default [] (content_pools !! f.2)))
    CsvProcessor.content_fields.

(** No text supplied in the row is a candidate of the pool of its column. *)
Definition no_coincidence (content_pools : gmap string (list string))
    (row : Row) : Prop :=
  ∀ col key text,
    (col, key) ∈ CsvProcessor.content_fields →
    row !! col = Some (Some text) → text ≠ "" →
    text ∉ default [] (content_pools !! key).

(** The rows have the columns the processor reads. *)
Definition has_columns (row : Row) : Prop :=
  is_Some (row !! "shift_type") ∧
  ∀ col key, (col, key) ∈ CsvProcessor.content_fields → is_Some (row !! col).

(** A row filled in by hand throughout, one text of which is a candidate of
    the pool of its column. *)
Definition row_manual : Row :=
  {[ "shift_type" := Some "lunch";
     "food_details" := Some "Trabalhei com grelhados, risotos e pratos principais.";
     "special_requests" := Some "No nuts";
     "complaints_problems" := Some "None today";
     "solutions_implemented" := Some "Not needed";
     "debrief_learnings" := Some "Good service" ]}.

(** A row with every narrative cell missing. *)
Definition row_empty : Row :=
  {[ "shift_type" := Some "dinner";
     "food_details" := None;
     "special_requests" := None;
     "complaints_problems" := None;
     "solutions_implemented" := None;
     "debrief_learnings" := None ]}.

(** A custom record whose text for [prepared_service] is blank. *)
Definition custom_blank_prepared : CustomShift :=
  {[ "prepared_service" := JStr ""; "food_details" := JStr "Grilled fish" ]}.

(** The no-break space U+00A0, in UTF-8. *)
Definition no_break_space : string :=
  String (ascii_of_nat 194) (String (ascii_of_nat 160) EmptyString).

(** A text between an ideographic space U+3000 and a line feed. *)
Definition spaced_text : string :=
  String (ascii_of_nat 227) (String (ascii_of_nat 128)
    (String (ascii_of_nat 128)
       ("Late delivery" +:+ String (ascii_of_nat 10) EmptyString))).

(** A custom record whose [debrief] is one no-break space, and whose
    [complaints] is the text above. *)
Definition custom_wide_spaces : CustomShift :=
  {[ "debrief" := JStr no_break_space; "complaints" := JStr spaced_text ]}.

(** A custom record as the import of a sheet writes it for a row whose
    [debrief] cell was left empty. *)
Definition custom_imported : CustomShift :=
  {[ "food_details" := JStr "Grilled fish"; "debrief" := JFloat FNaN ]}.

(** A row of the simple sheet whose [food_details] is white space only. *)
Definition row_with_spaces : Row :=
  {[ "shift_type" := Some "lunch";
     "food_details" := Some "   ";
     "special_requests" := None;
     "complaints_problems" := Some "None today";
     "solutions_implemented" := Some "";
     "debrief_learnings" := Some "Good service" ]}.

End Overrides.

(** ** The workflow table of the full sheet *)

Module Workflow.

Import Frame CsvProcessorCompleto.

(** The four columns of the workflow row [i]. *)
Definition workflow_cols (i : nat) : list string :=
  [timeline_col i; task_col i; equipment_col i; communication_col i].

(** The columns [fill_missing_data] fills before the workflow loop. *)
Definition basic_cols : list string :=
  ["establishment"; "menu_style"] ++ content_fields.*1.

(** [base_times], as the loop picks it from the kind of shift of the
    row. *)
Definition base_times (kind : cell) : list string :=
  if bool_decide (kind = Some "lunch") then lunch_times else dinner_times.

(** The workflow row [i] of [row'] was generated: the time of the position
    and one entry of each of the three pools. *)
Definition generated (content_pools : gmap string (list string))
    (row row' : Row) (i : nat) : Prop :=
  ∃ kind t tasks x equipments y communications z,
    row !! "shift_type" = Some kind ∧
    base_times kind !! (i - 1) = Some t ∧
    content_pools !! "workflow_tasks" = Some tasks ∧ x ∈ tasks ∧
    content_pools !! "workflow_equipment" = Some equipments ∧ y ∈ equipments ∧
    content_pools !! "workflow_communication" = Some communications ∧
    z ∈ communications ∧
    row' !! timeline_col i = Some (Some t) ∧
    row' !! task_col i = Some (Some x) ∧
    row' !! equipment_col i = Some (Some y) ∧
    row' !! communication_col i = Some (Some z).

(** The workflow row [i] of [row'] is that of [row], cell by cell. *)
Definition kept (row row' : Row) (i : nat) : Prop :=
  ∀ col, col ∈ workflow_cols i → row' !! col = row !! col.

(** The row has the columns [fill_missing_data] reads. *)
Definition has_columns (row : Row) : Prop :=
  is_Some (row !! "shift_type") ∧
  (∀ col, col ∈ basic_cols → is_Some (row !! col)) ∧
  (∀ i, 1 ≤ i ≤ 8 → is_Some (row !! timeline_col i)).

(** The pools [fill_missing_data] draws from are there and not empty. *)
Definition pools_in_place (content_pools : gmap string (list string)) : Prop :=
  ∀ key,
    key ∈ (content_fields.*2 ++
           ["workflow_tasks"; "workflow_equipment"; "workflow_communication"])%list →
    ∃ pool, content_pools !! key = Some pool ∧ pool ≠ [].

(** Pools of one entry each. *)
Definition sample_pools : gmap string (list string) :=
  list_to_map ((λ key, (key, ["text of " +:+ key])) <$>
    (content_fields.*2 ++
     ["workflow_tasks"; "workflow_equipment"; "workflow_communication"])%list).

(** A sheet row with every cell missing. *)
Definition blank_row : Row :=
  list_to_map ((λ col, (col, None)) <$>
    ("shift_type" :: basic_cols ++ flat_map workflow_cols (seq 1 8))%list).

(** A lunch row in which the user wrote the task of the first workflow row
    but not its time, and the time of the second but not its task. *)
Definition sample_row : Row :=
  <[task_col 1 := Some "Brief the team"]>
    (<[timeline_col 2 := Some "11:15"]>
       (<["shift_type" := Some "lunch"]> blank_row)).

End Workflow.

(** * Part III: theorems *)

(** ** The primitives *)

Lemma bind_Ok {A B} (m : M A) (k : A → M B) g a g' :
  m g = Ok (a, g') → bind m k g = k a g'.
Proof. intros H. unfold bind. by rewrite H. Qed.

Lemma bind_inv {A B} (m : M A) (k : A → M B) g b g'' :
  bind m k g = Ok (b, g'') →
  ∃ a g', m g = Ok (a, g') ∧ k a g' = Ok (b, g'').
Proof.
  unfold bind. destruct (m g) as [[a g']|e]; [|done]. eauto.
Qed.

Lemma getitem_Ok {V} (d : gmap string V) k v g :
  d !! k = Some v → getitem d k g = Ok (v, g).
Proof. intros H. unfold getitem. by rewrite H. Qed.

Lemma getitem_inv {V} (d : gmap string V) k v g g' :
  getitem d k g = Ok (v, g') → d !! k = Some v ∧ g' = g.
Proof.
  unfold getitem. destruct (d !! k); [|done].
  unfold ret. by intros [= -> ->].
Qed.

(** A choice from a non-empty sequence returns normally, consumes exactly
    one draw, and returns the entry at the drawn position. *)
Lemma choice_Ok {A} (seq : list A) g :
  seq ≠ [] →
  ∃ x, seq !! (hd 0 g mod length seq) = Some x ∧ choice seq g = Ok (x, tl g).
Proof.
  intros Hne.
  assert (Hlen : length seq ≠ 0) by (destruct seq; [done | simpl; lia]).
  destruct (lookup_lt_is_Some_2 seq (hd 0 g mod length seq)) as [x Hx].
  { apply Nat.mod_upper_bound, Hlen. }
  exists x. split; [done|].
  destruct seq; [done|].
  unfold choice, bind, randbelow. by rewrite Hx.
Qed.

Lemma choice_inv {A} (seq : list A) g x g' :
  choice seq g = Ok (x, g') →
  seq !! (hd 0 g mod length seq) = Some x ∧ g' = tl g.
Proof.
  destruct seq as [|y seq]; [done|].
  unfold choice, bind, randbelow.
  destruct (_ !! _) as [z|] eqn:Hz; [|done].
  unfold ret. by intros [= -> <-].
Qed.

Lemma choice_elem_of {A} (seq : list A) g x g' :
  choice seq g = Ok (x, g') → x ∈ seq.
Proof.
  intros [H _]%choice_inv. by eapply list_elem_of_lookup_2.
Qed.

(** Every position of the sequence is hit by a draw. *)
Lemma choice_position {A} (seq : list A) i x g :
  seq !! i = Some x → choice seq (i :: g) = Ok (x, g).
Proof.
  intros Hi. pose proof (lookup_lt_Some _ _ _ Hi) as Hlt.
  destruct seq as [|y seq]; [done|].
  unfold choice, bind, randbelow. cbn [hd tl].
  rewrite Nat.mod_small by done. by rewrite Hi.
Qed.

(** ** The variety selector *)

(** Set difference by value is the comprehension of the source. *)
Lemma list_difference_filter (l k : list string) :
  list_difference l k = filter (λ item, item ∉ k) l.
Proof.
  induction l as [|x l IH]; [done|]. cbn [list_difference].
  rewrite filter_cons, IH.
  destruct (decide_rel elem_of x k) as [Hin|Hin].
  - by rewrite decide_False by (intros Hnot; by apply Hnot).
  - by rewrite decide_True.
Qed.

Lemma candidates_allowed_nonempty pool recent :
  pool ≠ [] → Spec.candidates_allowed pool recent ≠ [].
Proof.
  intros Hne. unfold Spec.candidates_allowed.
  by destruct (list_difference pool recent).
Qed.

(** The selector of the source computes the steps of the design document on
    the history of its category and leaves the other categories alone. *)
Lemma get_varied_content_select (content : gmap string (list string))
    (ct : string) (used : gmap string (list string)) pool history g :
  content !! ct = Some pool →
  used !! ct = Some history →
  pool ≠ [] →
  ∃ value history',
    Spec.select pool history (hd 0 g) = Some (value, history') ∧
    Generator.get_varied_content content ct used g
      = Ok ((value, <[ct := history']> used), tl g).
Proof.
  intros Hpool Hused Hne.
  unfold Generator.get_varied_content, Spec.select.
  rewrite (bind_Ok _ _ _ _ _ (getitem_Ok _ _ _ _ Hpool)).
  rewrite (bind_Ok _ _ _ _ _ (getitem_Ok _ _ _ _ Hused)).
  set (used1 := if decide (length pool ≤ length history) then _ else _).
  assert (Hused1 : used1 !! ct = Some (Spec.recent_for pool history)).
  { unfold used1, Spec.recent_for. case_decide; [apply lookup_insert_eq | done]. }
  assert (Hins : ∀ h, <[ct := h]> used1 = <[ct := h]> used).
  { intros h. unfold used1. case_decide; [apply insert_insert_eq | done]. }
  rewrite (bind_Ok _ _ _ _ _ (getitem_Ok _ _ _ _ Hused1)).
  set (recent := Spec.recent_for pool history) in *.
  destruct (choice_Ok (Spec.candidates_allowed pool recent) g) as [value [Hv Hc]].
  { by apply candidates_allowed_nonempty. }
  assert (Hsel : (match filter (λ item, item ∉ recent) pool with
                  | [] => choice pool
                  | _ => choice (filter (λ item, item ∉ recent) pool)
                  end) g = Ok (value, tl g)).
  { revert Hc. unfold Spec.candidates_allowed.
    rewrite list_difference_filter. by destruct (filter _ pool). }
  rewrite (bind_Ok _ _ _ _ _ Hsel).
  rewrite (bind_Ok _ _ _ _ _ (getitem_Ok _ _ _ _ Hused1)).
  rewrite Hins.
  rewrite (bind_Ok _ _ _ _ _ (getitem_Ok _ _ _ _ (lookup_insert_eq _ _ _))).
  exists value, (Spec.recorded recent value).
  unfold Spec.chosen. rewrite Hv. split; [done|].
  unfold ret, Spec.recorded, Spec.bound. cbn zeta.
  case_decide; [by rewrite insert_insert_eq | done].
Qed.

Lemma get_varied_content_inv (content : gmap string (list string))
    (ct : string) (used : gmap string (list string)) g value used' g' :
  Generator.get_varied_content content ct used g = Ok ((value, used'), g') →
  ∃ pool history history',
    content !! ct = Some pool ∧ used !! ct = Some history ∧ pool ≠ [] ∧
    Spec.select pool history (hd 0 g) = Some (value, history') ∧
    used' = <[ct := history']> used ∧ g' = tl g.
Proof.
  intros Hrun.
  destruct (content !! ct) as [pool|] eqn:Hpool; cycle 1.
  { revert Hrun. unfold Generator.get_varied_content, bind, getitem.
    by rewrite Hpool. }
  destruct (used !! ct) as [history|] eqn:Hused; cycle 1.
  { revert Hrun. unfold Generator.get_varied_content, bind, getitem.
    by rewrite Hpool, Hused. }
  destruct (decide (pool = [])) as [->|Hne].
  { revert Hrun. unfold Generator.get_varied_content, bind, getitem, ret.
    rewrite Hpool, Hused. cbn [length filter list_filter].
    rewrite decide_True by lia. by rewrite lookup_insert_eq. }
  destruct (get_varied_content_select content ct used pool history g)
    as (v & h' & Hsel & Hrun'); [done..|].
  rewrite Hrun in Hrun'. injection Hrun' as -> -> ->.
  exists pool, history, h'. done.
Qed.

(** A call touches the history of its own category only. *)
Lemma get_varied_content_frame (content : gmap string (list string))
    (ct other : string) (used : gmap string (list string)) g value used' g' :
  Generator.get_varied_content content ct used g = Ok ((value, used'), g') →
  other ≠ ct → used' !! other = used !! other.
Proof.
  intros (pool & h & h' & _ & _ & _ & _ & -> & _)%get_varied_content_inv Hne.
  by rewrite lookup_insert_ne.
Qed.

Lemma recorded_length recent value :
  length recent ≤ Spec.bound → length (Spec.recorded recent value) ≤ Spec.bound.
Proof.
  unfold Spec.recorded, Spec.bound. intros Hlen. cbn zeta.
  case_decide as Hlong.
  - rewrite length_drop, length_app. simpl. lia.
  - lia.
Qed.

Lemma recent_for_length pool history :
  length history ≤ Spec.bound → length (Spec.recent_for pool history) ≤ Spec.bound.
Proof.
  unfold Spec.recent_for. case_decide; simpl; lia.
Qed.

Lemma select_history_length pool history draw value history' :
  length history ≤ Spec.bound →
  Spec.select pool history draw = Some (value, history') →
  length history' ≤ Spec.bound.
Proof.
  intros Hlen. unfold Spec.select.
  destruct (Spec.chosen _ _); [|done]. intros [= _ <-].
  by apply recorded_length, recent_for_length.
Qed.

(** The loops of the generators preserve whatever their body preserves. *)
Lemma for_each_invariant {X S R} (I : S → Prop) (body : X → S → M (R * S))
    xs st g rs st' g' :
  (∀ x st g r st' g', I st → body x st g = Ok ((r, st'), g') → I st') →
  I st → for_each body xs st g = Ok ((rs, st'), g') → I st'.
Proof.
  intros Hbody. revert st g rs.
  induction xs as [|x xs IH]; intros st g rs Hst Hrun.
  - cbn in Hrun. unfold ret in Hrun. by injection Hrun as _ <- _.
  - cbn [for_each] in Hrun.
    apply bind_inv in Hrun as ([r st1] & g1 & Hx & Hrun).
    apply bind_inv in Hrun as ([rs1 st2] & g2 & Hxs & Hrun).
    unfold ret in Hrun. injection Hrun as <- <- <-.
    eapply IH; [|done]. by eapply Hbody.
Qed.

Lemma get_varied_content_bounded (content : gmap string (list string))
    (ct : string) (used : gmap string (list string)) g value used' g' :
  Runs.history_bounded used →
  Generator.get_varied_content content ct used g = Ok ((value, used'), g') →
  Runs.history_bounded used'.
Proof.
  intros Hinv (pool & h & h' & _ & Hused & _ & Hsel & -> & _)%get_varied_content_inv.
  intros other k. destruct (decide (other = ct)) as [->|Hne].
  - rewrite lookup_insert_eq. intros [= <-].
    eapply select_history_length; [|done]. by eapply Hinv.
  - rewrite lookup_insert_ne by done. apply Hinv.
Qed.

Lemma initial_used_content_bounded :
  Runs.history_bounded Generator.initial_used_content.
Proof.
  intros ct h. unfold Generator.initial_used_content.
  rewrite !lookup_insert, lookup_singleton.
  repeat case_decide; try (intros [= <-]; simpl; lia).
Qed.

(** C1.  Called for a category with a non-empty pool and a usage history,
    the variety selector returns normally and takes exactly the steps of
    section 4.2: a history as long as the pool counts as empty; the allowed
    candidates are the pool minus the recent values, or the full pool when
    that is empty; the candidate at the drawn position is chosen; it is
    appended to the history, and the oldest entry is dropped beyond the
    bound of 3.  The returned value is the chosen candidate, the history of
    the category after the call is the one these steps produce, and one raw
    draw is consumed.  Every position of the allowed list is chosen by the
    draw of that position: the choice is one draw over the positions. *)
Theorem variety_selector_follows_steps (content : gmap string (list string))
    (ct : string) (used : gmap string (list string)) pool history g :
  content !! ct = Some pool →
  used !! ct = Some history →
  pool ≠ [] →
  (∃ value history',
     Spec.select pool history (hd 0 g) = Some (value, history') ∧
     Generator.get_varied_content content ct used g
       = Ok ((value, <[ct := history']> used), tl g)) ∧
  (∀ k candidate,
     Spec.candidates_allowed pool (Spec.recent_for pool history) !! k
       = Some candidate →
     ∃ used',
       Generator.get_varied_content content ct used (k :: g)
         = Ok ((candidate, used'), g)).
Proof.
  intros Hpool Hused Hne. split.
  - by apply get_varied_content_select.
  - intros k candidate Hk.
    destruct (get_varied_content_select content ct used pool history (k :: g))
      as (value & history' & Hsel & Hrun); [done..|].
    cbn [hd tl] in Hsel, Hrun.
    revert Hsel. unfold Spec.select, Spec.chosen.
    rewrite Nat.mod_small by (by eapply lookup_lt_Some).
    rewrite Hk. intros [= <- <-]. eauto.
Qed.

Lemma variety_selector_follows_steps_witness :
  (∃ value history',
     Spec.select ["a"; "b"] [] (hd 0 [1]) = Some (value, history') ∧
     Generator.get_varied_content Runs.sample_pools "debrief" Runs.sample_used [1]
       = Ok ((value, <["debrief" := history']> Runs.sample_used), tl [1])) ∧
  (∀ k candidate,
     Spec.candidates_allowed ["a"; "b"] (Spec.recent_for ["a"; "b"] []) !! k
       = Some candidate →
     ∃ used',
       Generator.get_varied_content Runs.sample_pools "debrief" Runs.sample_used
         (k :: [1]) = Ok ((candidate, used'), [1])).
Proof.
  apply (variety_selector_follows_steps Runs.sample_pools "debrief"
           Runs.sample_used ["a"; "b"] [] [1]).
  - reflexivity.
  - reflexivity.
  - discriminate.
Defined.

(** Inversion of a chain of binds that returned normally. *)
Ltac invert_binds H :=
  repeat (first
    [ apply bind_inv in H as ([? ?] & ? & ? & H)
    | apply bind_inv in H as (? & ? & ? & H) ]);
  unfold ret in H.

Lemma shift_body_bounded config content start i used g shift used' g' :
  Runs.history_bounded used →
  Generator.shift_body config content start i used g
    = Ok ((shift, used'), g') →
  Runs.history_bounded used'.
Proof.
  intros Hinv Hrun. unfold Generator.shift_body in Hrun.
  invert_binds Hrun. injection Hrun as _ <- _.
  repeat match goal with
  | H : Generator.get_varied_content _ _ _ _ = Ok _ |- _ =>
      apply get_varied_content_bounded in H; [|assumption]
  end.
  assumption.
Qed.

(** C8.  The usage history of no category ever holds more than 3 values:
    the literal dictionary [generate_shifts] starts from is within the
    bound, every call of the selector that returns keeps a dictionary
    within the bound within it, and so the bound holds after every sequence
    of calls from the initial dictionary, whatever the pools and the draws,
    and after the whole loop of [generate_shifts]. *)
Theorem history_never_exceeds_bound (content : gmap string (list string)) :
  Runs.history_bounded Generator.initial_used_content ∧
  (∀ ct used g value used' g',
     Runs.history_bounded used →
     Generator.get_varied_content content ct used g = Ok ((value, used'), g') →
     Runs.history_bounded used') ∧
  (∀ categories g values used' g',
     Runs.select_calls content categories Generator.initial_used_content g
       = Ok ((values, used'), g') →
     Runs.history_bounded used') ∧
  (∀ strptime config entries g shifts used' g',
     Generator.generate_shifts_state strptime config
       {| Generator.pools := content; Generator.entries := entries |} g
       = Ok ((shifts, used'), g') →
     Runs.history_bounded used').
Proof.
  split; [apply initial_used_content_bounded|]. split; [|split].
  - intros ct used g value used' g'. apply get_varied_content_bounded.
  - intros categories g values used' g' Hrun.
    eapply (for_each_invariant Runs.history_bounded); [|
      apply initial_used_content_bounded | exact Hrun].
    intros ct st g0 r st' g0'. apply get_varied_content_bounded.
  - intros strptime config entries g shifts used' g' Hrun.
    unfold Generator.generate_shifts_state in Hrun.
    apply bind_inv in Hrun as (start & g1 & _ & Hrun).
    eapply (for_each_invariant Runs.history_bounded); [|
      apply initial_used_content_bounded | exact Hrun].
    intros i st g0 r st' g0'. apply shift_body_bounded.
Qed.

Lemma history_never_exceeds_bound_witness :
  Runs.history_bounded (<["debrief" := ["b"; "a"]]> Generator.initial_used_content).
Proof.
  apply (proj1 (proj2 (proj2 (history_never_exceeds_bound Runs.sample_pools)))
           ["debrief"; "debrief"; "debrief"; "debrief"] [0; 0; 1; 0]
           ["a"; "b"; "b"; "a"] _ []).
  vm_compute. reflexivity.
Defined.

(** ** The loops *)

Lemma lift_inv {A} (r : res A) g a g' :
  lift r g = Ok (a, g') → r = Ok a ∧ g' = g.
Proof. unfold lift. destruct r; [|done]. by intros [= -> ->]. Qed.

(** Each record a loop returns was produced by its body at the index of the
    same position. *)
Lemma for_each_Forall2 {X S R} (body : X → S → M (R * S)) xs st g rs st' g' :
  for_each body xs st g = Ok ((rs, st'), g') →
  Forall2 (λ x r, ∃ st0 g0 st1 g1, body x st0 g0 = Ok ((r, st1), g1)) xs rs.
Proof.
  revert st g rs. induction xs as [|x xs IH]; intros st g rs Hrun.
  - cbn in Hrun. unfold ret in Hrun. injection Hrun as <- _ _. constructor.
  - cbn [for_each] in Hrun.
    apply bind_inv in Hrun as ([r st1] & g1 & Hx & Hrun).
    apply bind_inv in Hrun as ([rs1 st2] & g2 & Hxs & Hrun).
    unfold ret in Hrun. injection Hrun as <- <- <-.
    constructor; [by eauto | by eapply IH].
Qed.

(** A loop returns normally when its body does so on every state of an
    invariant it preserves. *)
Lemma for_each_returns {X S R} (I : S → Prop) (body : X → S → M (R * S)) xs :
  (∀ x st g, x ∈ xs → I st →
     ∃ r st' g', body x st g = Ok ((r, st'), g') ∧ I st') →
  ∀ st g, I st →
    ∃ rs st' g', for_each body xs st g = Ok ((rs, st'), g') ∧
                 length rs = length xs ∧ I st'.
Proof.
  induction xs as [|x xs IH]; intros Hbody st g Hst.
  - exists [], st, g. done.
  - destruct (Hbody x st g ltac:(left) Hst) as (r & st1 & g1 & Hx & Hst1).
    destruct (IH (λ y st0 g0 Hy, Hbody y st0 g0 ltac:(by right)) st1 g1 Hst1)
      as (rs & st2 & g2 & Hxs & Hlen & Hst2).
    exists (r :: rs), st2, g2. split; [|split; [simpl; lia | done]].
    cbn [for_each]. rewrite (bind_Ok _ _ _ _ _ Hx).
    by rewrite (bind_Ok _ _ _ _ _ Hxs).
Qed.

Lemma Forall2_fmap_eq {X R B} (f : X → B) (h : R → B) xs rs :
  Forall2 (λ x r, h r = f x) xs rs → h <$> rs = f <$> xs.
Proof. induction 1 as [|x r xs rs Hxr _ IH]; [done|]. cbn. by rewrite Hxr, IH. Qed.

(** A loop raises what its body raises, at the first index where it
    does. *)
Lemma for_each_raise {X S R} (body : X → S → M (R * S)) xs x ys e :
  ∀ st g rs st1 g1,
    for_each body xs st g = Ok ((rs, st1), g1) →
    body x st1 g1 = Raise e →
    for_each body (xs ++ x :: ys) st g = Raise e.
Proof.
  induction xs as [|y xs IH]; intros st g rs st1 g1 Hxs Hx.
  - cbn in Hxs. unfold ret in Hxs. injection Hxs as _ <- <-.
    cbn [app for_each]. unfold bind. by rewrite Hx.
  - cbn [for_each] in Hxs.
    apply bind_inv in Hxs as ([r st2] & g2 & Hy & Hxs).
    apply bind_inv in Hxs as ([rs1 st3] & g3 & Hrest & Hret).
    unfold ret in Hret. injection Hret as _ <- <-.
    cbn [app for_each]. rewrite (bind_Ok _ _ _ _ _ Hy).
    unfold bind at 1. by rewrite (IH _ _ _ _ _ Hrest Hx).
Qed.

(** Membership in a literal list. *)
Ltac in_list := by (apply list_elem_of_In; simpl; tauto).

Lemma lift_Ok {A} (a : A) g : lift (Ok a) g = Ok (a, g).
Proof. done. Qed.

Lemma lift_bind {A B} (r : res A) (k : A → M B) g a :
  r = Ok a → bind (lift r) k g = k a g.
Proof. by intros ->. Qed.

Lemma lift_bind_raise {A B} (r : res A) (k : A → M B) g e :
  r = Raise e → bind (lift r) k g = Raise e.
Proof. by intros ->. Qed.

Lemma bind_raise {A B} (m : M A) (k : A → M B) g e :
  m g = Raise e → bind m k g = Raise e.
Proof. intros H. unfold bind. by rewrite H. Qed.

(** ** The scheduler *)

Lemma alternation_daily i :
  Spec.alternation Runs.daily_kinds i
    = Some (if decide (i mod 2 = 0) then "lunch" else "dinner").
Proof.
  unfold Spec.alternation, Runs.daily_kinds. cbn [length].
  pose proof (Nat.mod_upper_bound i 2 ltac:(lia)) as Hlt.
  destruct (i mod 2) as [|[|k]] eqn:Hmod; [done | done | lia].
Qed.

(** The date and the kind of a slot; [OverflowError] when the day is not a
    date of Python. *)
Lemma shift_slot_cases start i :
  Generator.shift_slot start i
    = if decide (1 ≤ Spec.slot_date start 2 i ≤ max_ordinal)%Z
      then Ok (Spec.slot_date start 2 i,
               if decide (i mod 2 = 0) then "lunch" else "dinner")
      else Raise OverflowError.
Proof.
  unfold Generator.shift_slot, floordiv, modulo, add_days, Spec.slot_date.
  destruct (decide (2 = 0)%Z) as [|_]; [lia|].
  rewrite Nat2Z.inj_div. change (Z.of_nat 2) with 2%Z.
  destruct (decide (1 ≤ start + Z.of_nat i `div` 2 ≤ max_ordinal)%Z); [|done].
  do 2 f_equal.
  destruct (decide (i mod 2 = 0)) as [Hmod|Hmod].
  - rewrite decide_True; [done|].
    change 2%Z with (Z.of_nat 2). rewrite <- Nat2Z.inj_mod. lia.
  - rewrite decide_False; [done|].
    change 2%Z with (Z.of_nat 2). rewrite <- Nat2Z.inj_mod. lia.
Qed.

Lemma shift_slot_spec start i :
  (1 ≤ Spec.slot_date start 2 i ≤ max_ordinal)%Z →
  ∃ kind,
    Spec.alternation Runs.daily_kinds i = Some kind ∧
    Generator.shift_slot start i = Ok (Spec.slot_date start 2 i, kind).
Proof.
  intros Hrange. eexists. split; [apply alternation_daily|].
  rewrite shift_slot_cases. by rewrite decide_True.
Qed.

Lemma shift_slot_inv start i day kind :
  Generator.shift_slot start i = Ok (day, kind) →
  day = Spec.slot_date start 2 i ∧
  Spec.alternation Runs.daily_kinds i = Some kind ∧
  (1 ≤ Spec.slot_date start 2 i ≤ max_ordinal)%Z.
Proof.
  rewrite shift_slot_cases, alternation_daily.
  case_decide; [|done]. by intros [= <- <-].
Qed.

Lemma shift_slot_overflow start i :
  ¬ (1 ≤ Spec.slot_date start 2 i ≤ max_ordinal)%Z →
  Generator.shift_slot start i = Raise OverflowError.
Proof. intros Hout. rewrite shift_slot_cases. by rewrite decide_False. Qed.

(** The days of the 48 slots lie between the first and the last one. *)
Lemma slot_date_range start i :
  i < 48 → Runs.dates_in_range start →
  (1 ≤ Spec.slot_date start 2 i ≤ max_ordinal)%Z.
Proof.
  intros Hi [Hlo Hhi]. unfold Spec.slot_date.
  assert (i / 2 < 24) by (apply Nat.Div0.div_lt_upper_bound; lia). lia.
Qed.

Lemma alternation_fmap (f : string → string) kinds i :
  Spec.alternation (f <$> kinds) i = f <$> Spec.alternation kinds i.
Proof.
  unfold Spec.alternation. by rewrite length_fmap, list_lookup_fmap.
Qed.

Lemma shift_body_slot config content start i used g shift used' g' :
  Generator.shift_body config content start i used g
    = Ok ((shift, used'), g') →
  Runs.slot_of shift
    = (i + 1, Spec.slot_date start 2 i,
       Spec.alternation (title <$> Runs.daily_kinds) i) ∧
  (1 ≤ Spec.slot_date start 2 i ≤ max_ordinal)%Z.
Proof.
  intros Hrun. unfold Generator.shift_body in Hrun.
  apply bind_inv in Hrun as ([day kind] & g1 & [Hslot _]%lift_inv & Hrun).
  apply shift_slot_inv in Hslot as (-> & Hkind & Hrange).
  invert_binds Hrun. injection Hrun as <- _ _.
  split; [|done]. rewrite alternation_fmap, Hkind. reflexivity.
Qed.

Lemma custom_shift_body_slot config content custom start i used g shift
    used' g' :
  GeneratorCustom.shift_body config content custom start i used g
    = Ok ((shift, used'), g') →
  Runs.slot_of shift
    = (i + 1, Spec.slot_date start 2 i,
       Spec.alternation (title <$> Runs.daily_kinds) i) ∧
  (1 ≤ Spec.slot_date start 2 i ≤ max_ordinal)%Z.
Proof.
  intros Hrun. unfold GeneratorCustom.shift_body in Hrun. cbn zeta in Hrun.
  apply bind_inv in Hrun as ([day kind] & g1 & [Hslot _]%lift_inv & Hrun).
  apply shift_slot_inv in Hslot as (-> & Hkind & Hrange).
  invert_binds Hrun. injection Hrun as <- _ _.
  split; [|done]. rewrite alternation_fmap, Hkind. reflexivity.
Qed.

(** Line 44: the start date is read when the entry is a text the parser
    accepts, and only then. *)
Lemma read_start_date_inv strptime config g start g' :
  Generator.read_start_date strptime config g = Ok (start, g') →
  Runs.reads_start strptime config start ∧ g' = g.
Proof.
  unfold Generator.read_start_date. intros Hrun.
  apply bind_inv in Hrun as (v & g1 & [Hv ->]%lift_inv & [Hp ->]%lift_inv).
  split; [|done]. destruct v; try done. by exists s.
Qed.

Lemma read_start_date_Ok strptime config start g :
  Runs.reads_start strptime config start →
  Generator.read_start_date strptime config g = Ok (start, g).
Proof.
  intros (text & Hv & Hp). unfold Generator.read_start_date.
  rewrite (lift_bind _ _ _ _ Hv). cbn [parse_date]. by rewrite Hp.
Qed.

(** A loop over the 48 indices whose bodies carry the slots carries the
    schedule, and its days are dates. *)
Lemma loop_schedule {S} (body : nat → S → M (Generator.ShiftData * S))
    start st g shifts st' g' :
  (∀ i st0 g0 shift st1 g1,
     body i st0 g0 = Ok ((shift, st1), g1) →
     Runs.slot_of shift
       = (i + 1, Spec.slot_date start 2 i,
          Spec.alternation (title <$> Runs.daily_kinds) i) ∧
     (1 ≤ Spec.slot_date start 2 i ≤ max_ordinal)%Z) →
  for_each body (seq 0 48) st g = Ok ((shifts, st'), g') →
  Runs.dates_in_range start ∧
  Runs.slot_of <$> shifts
    = Spec.schedule start 48 (title <$> Runs.daily_kinds) 2.
Proof.
  intros Hbody Hrun. apply for_each_Forall2 in Hrun. split.
  - destruct (Forall2_lookup_l _ _ _ 0 0 Hrun eq_refl)
      as (s0 & _ & st0 & g0 & st1 & g1 & H0).
    destruct (Forall2_lookup_l _ _ _ 47 47 Hrun eq_refl)
      as (s47 & _ & st2 & g2 & st3 & g3 & H47).
    apply Hbody in H0 as [_ H0]. apply Hbody in H47 as [_ H47].
    unfold Spec.slot_date in H0, H47.
    change (0 / 2) with 0 in H0. change (47 / 2) with 23 in H47.
    unfold Runs.dates_in_range. lia.
  - unfold Spec.schedule. apply Forall2_fmap_eq.
    eapply Forall2_impl; [exact Hrun|].
    intros i shift (st0 & g0 & st1 & g2 & Hi). by apply Hbody in Hi as [-> _].
Qed.

Lemma generate_shifts_schedule strptime config content g shifts g' :
  Generator.generate_shifts strptime config content g = Ok (shifts, g') →
  ∃ start,
    Runs.reads_start strptime config start ∧ Runs.dates_in_range start ∧
    Runs.slot_of <$> shifts
      = Spec.schedule start 48 (title <$> Runs.daily_kinds) 2.
Proof.
  intros Hrun. unfold Generator.generate_shifts in Hrun.
  apply bind_inv in Hrun as ([shifts' used'] & g1 & Hrun & Hret).
  unfold ret in Hret. injection Hret as -> ->.
  unfold Generator.generate_shifts_state in Hrun.
  apply bind_inv in Hrun as (start & g0 & [Hstart ->]%read_start_date_inv & Hrun).
  exists start. split; [done|].
  eapply loop_schedule; [|exact Hrun].
  intros i st0 g2 shift st1 g3. apply shift_body_slot.
Qed.

Lemma custom_generate_shifts_schedule strptime config content custom g
    shifts g' :
  GeneratorCustom.generate_shifts strptime config content custom g
    = Ok (shifts, g') →
  ∃ start,
    Runs.reads_start strptime config start ∧ Runs.dates_in_range start ∧
    Runs.slot_of <$> shifts
      = Spec.schedule start 48 (title <$> Runs.daily_kinds) 2.
Proof.
  intros Hrun. unfold GeneratorCustom.generate_shifts in Hrun.
  apply bind_inv in Hrun as ([shifts' used'] & g1 & Hrun & Hret).
  unfold ret in Hret. injection Hret as -> ->.
  unfold GeneratorCustom.generate_shifts_state in Hrun.
  apply bind_inv in Hrun as (start & g0 & [Hstart ->]%read_start_date_inv & Hrun).
  exists start. split; [done|].
  eapply loop_schedule; [|exact Hrun].
  intros i st0 g2 shift st1 g3. apply custom_shift_body_slot.
Qed.

Lemma index_of_nat {A} (seq : list A) k x :
  seq !! k = Some x → index seq (Z.of_nat k) = Ok x.
Proof.
  intros Hk. pose proof (lookup_lt_Some _ _ _ Hk) as Hlt.
  unfold index. cbn zeta.
  destruct (decide (Z.of_nat k < 0)%Z); [lia|].
  rewrite decide_True by lia. by rewrite Nat2Z.id, Hk.
Qed.

Lemma block_rotation_pattern i :
  is_Some (Spec.block_rotation LogbookGenerator.pattern 5 i).
Proof.
  unfold Spec.block_rotation. apply lookup_lt_is_Some_2.
  cbn [length LogbookGenerator.pattern]. apply Nat.mod_upper_bound. lia.
Qed.

Lemma shift_of_day_spec (i : nat) :
  ∃ kind,
    Spec.block_rotation LogbookGenerator.pattern 5 i = Some kind ∧
    LogbookGenerator.shift_of_day (Z.of_nat i + 1) = Ok kind.
Proof.
  destruct (block_rotation_pattern i) as [kind Hk]. exists kind. split; [done|].
  unfold LogbookGenerator.shift_of_day, floordiv, modulo, LogbookGenerator.rotation.
  rewrite decide_False by lia.
  cbn [length LogbookGenerator.pattern]. rewrite decide_False by lia.
  replace (Z.of_nat i + 1 - 1)%Z with (Z.of_nat i) by lia.
  change 5%Z with (Z.of_nat 5). rewrite <- Nat2Z.inj_div, <- Nat2Z.inj_mod.
  by apply index_of_nat.
Qed.

(** The kind of a day is defined for every integer, also before day 1. *)
Lemma shift_of_day_returns (day : Z) :
  ∃ kind, LogbookGenerator.shift_of_day day = Ok kind ∧
          kind ∈ LogbookGenerator.pattern.
Proof.
  unfold LogbookGenerator.shift_of_day, floordiv, modulo, LogbookGenerator.rotation.
  rewrite decide_False by lia.
  cbn [length LogbookGenerator.pattern]. rewrite decide_False by lia.
  set (k := (((day - 1) `div` 5) `mod` Z.of_nat 3)%Z).
  assert (Hk : (0 ≤ k < 3)%Z) by (apply Z.mod_pos_bound; lia).
  destruct (lookup_lt_is_Some_2 LogbookGenerator.pattern (Z.to_nat k))
    as [kind Hkind]; [cbn; lia|].
  exists kind. split; [|by eapply list_elem_of_lookup_2].
  rewrite <- (Z2Nat.id k) by lia. by apply index_of_nat.
Qed.

Lemma day_body_shift recipes (i : nat) histories g data histories' g' :
  LogbookGenerator.day_body recipes (Z.of_nat (S i)) histories g
    = Ok ((data, histories'), g') →
  Some (LogbookGenerator.shift data)
    = Spec.block_rotation LogbookGenerator.pattern 5 i.
Proof.
  intros Hrun. unfold LogbookGenerator.day_body in Hrun. invert_binds Hrun.
  injection Hrun as <- _ _.
  match goal with H : lift _ _ = Ok _ |- _ => apply lift_inv in H as [H _] end.
  destruct (shift_of_day_spec i) as (kind & Hk & Hs).
  rewrite Hk. cbn. f_equal.
  replace (Z.of_nat (S i)) with (Z.of_nat i + 1)%Z in * by lia. congruence.
Qed.

Lemma day_range_seq days :
  LogbookGenerator.day_range days
    = (λ i, Z.of_nat (S i)) <$> seq 0 (Z.to_nat days).
Proof.
  unfold LogbookGenerator.day_range.
  by rewrite <- fmap_S_seq, <- list_fmap_compose.
Qed.

Lemma generate_shift_data_schedule recipes days g data g' :
  LogbookGenerator.generate_shift_data recipes days g = Ok (data, g') →
  (λ d, Some (LogbookGenerator.shift d)) <$> data
    = Spec.rotation_schedule (Z.to_nat days) LogbookGenerator.pattern 5.
Proof.
  intros Hrun. unfold LogbookGenerator.generate_shift_data in Hrun.
  apply bind_inv in Hrun as ([data' hs] & g1 & Hrun & Hret).
  unfold ret in Hret. injection Hret as -> ->.
  unfold LogbookGenerator.generate_shift_data_state in Hrun.
  rewrite day_range_seq in Hrun.
  apply for_each_Forall2 in Hrun. apply Forall2_fmap_l in Hrun.
  unfold Spec.rotation_schedule. apply Forall2_fmap_eq.
  eapply Forall2_impl; [exact Hrun|].
  intros i d (st0 & g0 & st1 & g2 & Hbody). by eapply day_body_shift.
Qed.

(** ** Normal return of the generators *)

Lemma has_categories_insert used ct history :
  Runs.has_categories used → Runs.has_categories (<[ct := history]> used).
Proof.
  intros Hcat c Hc. rewrite lookup_insert. case_decide; [by eexists|].
  by apply Hcat.
Qed.

Lemma get_varied_content_returns (content : gmap string (list string))
    (ct : string) (used : gmap string (list string)) g :
  (∃ pool, content !! ct = Some pool ∧ pool ≠ []) →
  is_Some (used !! ct) →
  ∃ value history',
    Generator.get_varied_content content ct used g
      = Ok ((value, <[ct := history']> used), tl g).
Proof.
  intros (pool & Hpool & Hne) [history Hused].
  destruct (get_varied_content_select content ct used pool history g)
    as (value & history' & _ & Hrun); [done..|]. eauto.
Qed.

Lemma daily_kind_cases i kind :
  Spec.alternation Runs.daily_kinds i = Some kind → kind ∈ Runs.daily_kinds.
Proof. unfold Spec.alternation. apply list_elem_of_lookup_2. Qed.

(** The four calls of the selector of an automatic shift return, one draw
    each. *)
Lemma selectors_return (content : gmap string (list string)) used g :
  (∀ category, category ∈ Runs.categories →
     ∃ pool, content !! category = Some pool ∧ pool ≠ []) →
  Runs.has_categories used →
  ∃ v1 u1 v2 u2 v3 u3 v4 u4,
    Generator.get_varied_content content "special_requests" used g
      = Ok ((v1, u1), tl g) ∧
    Generator.get_varied_content content "food_details" u1 (tl g)
      = Ok ((v2, u2), tl (tl g)) ∧
    Generator.get_varied_content content "complaints" u2 (tl (tl g))
      = Ok ((v3, u3), tl (tl (tl g))) ∧
    Generator.get_varied_content content "debrief" u3 (tl (tl (tl g)))
      = Ok ((v4, u4), tl (tl (tl (tl g)))) ∧
    Runs.has_categories u4.
Proof.
  intros Hpools Hcat. unfold Runs.categories in Hpools.
  destruct (get_varied_content_returns content "special_requests" used g)
    as (v1 & h1 & H1); [apply Hpools; in_list | apply Hcat; in_list |].
  pose proof (has_categories_insert _ "special_requests" h1 Hcat) as Hcat1.
  destruct (get_varied_content_returns content "food_details" _ (tl g)
              ltac:(apply Hpools; in_list) (Hcat1 "food_details" ltac:(in_list)))
    as (v2 & h2 & H2).
  pose proof (has_categories_insert _ "food_details" h2 Hcat1) as Hcat2.
  destruct (get_varied_content_returns content "complaints" _ (tl (tl g))
              ltac:(apply Hpools; in_list) (Hcat2 "complaints" ltac:(in_list)))
    as (v3 & h3 & H3).
  pose proof (has_categories_insert _ "complaints" h3 Hcat2) as Hcat3.
  destruct (get_varied_content_returns content "debrief" _ (tl (tl (tl g)))
              ltac:(apply Hpools; in_list) (Hcat3 "debrief" ltac:(in_list)))
    as (v4 & h4 & H4).
  pose proof (has_categories_insert _ "debrief" h4 Hcat3) as Hcat4.
  eexists v1, _, v2, _, v3, _, v4, _.
  split; [exact H1|]. split; [exact H2|]. split; [exact H3|].
  split; [exact H4 | exact Hcat4].
Qed.

Lemma timing_field_Ok config kind field :
  Runs.timing_in_place config kind →
  field ∈ ["start_time"; "end_time"; "hours"] →
  ∃ v, ∀ g, Generator.timing_field config kind field g = Ok (v, g).
Proof.
  intros (shifts & timing & Hs & Ht & Hfields) Hfield.
  destruct (Hfields field Hfield) as [v Hv]. exists v. intros g.
  unfold Generator.timing_field.
  rewrite (lift_bind _ _ _ _ Hs), (lift_bind _ _ _ _ Ht). by rewrite Hv.
Qed.

Lemma prepared_text_Ok content kind :
  Runs.texts_in_place content kind →
  ∃ v, ∀ g, Generator.prepared_text content kind g = Ok (v, g).
Proof.
  intros [(table & text & Htable & Htext) _]. exists text. intros g.
  unfold Generator.prepared_text.
  rewrite (bind_Ok _ _ _ _ _ (getitem_Ok _ _ _ _ Htable)). by rewrite Htext.
Qed.

(** A shift is assembled when its day is a date and the two files hold
    what a shift of its kind reads. *)
Lemma shift_body_returns config content start i kind used g :
  Spec.alternation Runs.daily_kinds i = Some kind →
  Runs.kind_in_place config content kind →
  (1 ≤ Spec.slot_date start 2 i ≤ max_ordinal)%Z →
  Runs.has_categories used →
  ∃ shift used' g',
    Generator.shift_body config content start i used g
      = Ok ((shift, used'), g') ∧
    Runs.has_categories used'.
Proof.
  intros Hk (([est He] & [menu Hm] & Hpools) & Htiming & Htexts) Hrange Hcat.
  destruct (shift_slot_spec start i Hrange) as (kind' & Hk' & Hs).
  rewrite Hk in Hk'. injection Hk' as <-.
  destruct (timing_field_Ok config kind "start_time" Htiming ltac:(in_list))
    as [t1 Ht1].
  destruct (timing_field_Ok config kind "end_time" Htiming ltac:(in_list))
    as [t2 Ht2].
  destruct (timing_field_Ok config kind "hours" Htiming ltac:(in_list))
    as [t3 Ht3].
  destruct (prepared_text_Ok content kind Htexts) as [prepared Hp].
  destruct Htexts as [_ [wf Hw]].
  destruct (selectors_return (Generator.pools content) used g Hpools Hcat)
    as (v1 & u1 & v2 & u2 & v3 & u3 & v4 & u4 & H1 & H2 & H3 & H4 & Hcat4).
  unfold Generator.shift_body.
  rewrite (lift_bind _ _ _ _ Hs). cbn beta iota.
  rewrite (lift_bind _ _ _ _ He).
  rewrite (bind_Ok _ _ _ _ _ (Ht1 _)), (bind_Ok _ _ _ _ _ (Ht2 _)),
    (bind_Ok _ _ _ _ _ (Ht3 _)).
  rewrite (lift_bind _ _ _ _ Hm).
  rewrite (bind_Ok _ _ _ _ _ (Hp _)).
  rewrite (bind_Ok _ _ _ _ _ H1). cbn beta iota.
  rewrite (bind_Ok _ _ _ _ _ H2). cbn beta iota.
  rewrite (bind_Ok _ _ _ _ _ H3). cbn beta iota.
  rewrite (bind_Ok _ _ _ _ _ H4). cbn beta iota.
  rewrite (bind_Ok _ _ _ _ _ (getitem_Ok _ _ _ _ Hw)).
  unfold ret. eauto.
Qed.

Lemma initial_has_categories :
  Runs.has_categories Generator.initial_used_content.
Proof.
  intros c Hc. unfold Generator.initial_used_content.
  repeat (apply elem_of_cons in Hc as [->|Hc]; [by eexists|]).
  by apply elem_of_nil in Hc.
Qed.

(** The loop of [generate_shifts] over the first [n] indices returns when
    their days are dates. *)
Lemma shifts_prefix_returns config content start n g :
  Runs.in_place config content →
  (∀ i, i < n → (1 ≤ Spec.slot_date start 2 i ≤ max_ordinal)%Z) →
  ∃ shifts used' g',
    for_each (Generator.shift_body config content start) (seq 0 n)
      Generator.initial_used_content g = Ok ((shifts, used'), g') ∧
    length shifts = n.
Proof.
  intros Hplace Hrange.
  destruct (for_each_returns Runs.has_categories
              (Generator.shift_body config content start) (seq 0 n))
    with (st := Generator.initial_used_content) (g := g)
    as (shifts & used' & g' & Hrun & Hlen & _).
  - intros i st g0 Hi%elem_of_seq Hst.
    pose proof (alternation_daily i) as Hk.
    eapply shift_body_returns; [exact Hk| |apply Hrange; lia|done].
    apply Hplace. by eapply daily_kind_cases.
  - apply initial_has_categories.
  - exists shifts, used', g'. split; [done|]. by rewrite Hlen, length_seq.
Qed.

Lemma generate_shifts_returns strptime config content g :
  Runs.well_formed strptime config content →
  ∃ shifts g',
    Generator.generate_shifts strptime config content g = Ok (shifts, g') ∧
    length shifts = 48.
Proof.
  intros [(start & Hstart & Hdates) Hplace].
  destruct (shifts_prefix_returns config content start 48 g Hplace)
    as (shifts & used' & g' & Hrun & Hlen).
  { intros i Hi. by apply slot_date_range. }
  exists shifts, g'. split; [|done].
  assert (Hstate : Generator.generate_shifts_state strptime config content g
                   = Ok ((shifts, used'), g')).
  { unfold Generator.generate_shifts_state.
    by rewrite (bind_Ok _ _ _ _ _ (read_start_date_Ok _ _ _ _ Hstart)). }
  unfold Generator.generate_shifts. by rewrite (bind_Ok _ _ _ _ _ Hstate).
Qed.

(** ** Failures of the generator *)

(** Line 44 fails: nothing is generated. *)
Lemma generate_shifts_start_raises strptime config content g e :
  Generator.read_start_date strptime config g = Raise e →
  Generator.generate_shifts strptime config content g = Raise e.
Proof.
  intros Hstart. unfold Generator.generate_shifts, Generator.generate_shifts_state.
  apply bind_raise. by apply bind_raise.
Qed.

(** The body fails at the index [n] after the indices before it were
    assembled: the loop fails the same way. *)
Lemma generate_shifts_raises strptime config content start n g e :
  Runs.reads_start strptime config start →
  n < 48 →
  (∃ shifts used' g',
     for_each (Generator.shift_body config content start) (seq 0 n)
       Generator.initial_used_content g = Ok ((shifts, used'), g')) →
  (∀ used g0, Generator.shift_body config content start n used g0 = Raise e) →
  Generator.generate_shifts strptime config content g = Raise e.
Proof.
  intros Hstart Hn (shifts & used' & g' & Hrun) Hfail.
  unfold Generator.generate_shifts, Generator.generate_shifts_state.
  apply bind_raise.
  rewrite (bind_Ok _ _ _ _ _ (read_start_date_Ok _ _ _ _ Hstart)).
  unfold Generator.shifts_loop.
  replace (seq 0 48) with (seq 0 n ++ n :: seq (S n) (47 - n))%list.
  - eapply for_each_raise; [exact Hrun | apply Hfail].
  - change (n :: seq (S n) (47 - n)) with (seq n (S (47 - n))).
    rewrite <- seq_app. f_equal. lia.
Qed.

(** A start date less than 23 days before the last date of the calendar:
    the loop runs into [OverflowError]. *)
Lemma generate_shifts_overflow strptime config content start g :
  Runs.reads_start strptime config start →
  Runs.in_place config content →
  (1 ≤ start ≤ max_ordinal)%Z → (max_ordinal < start + 23)%Z →
  Generator.generate_shifts strptime config content g = Raise OverflowError.
Proof.
  intros Hstart Hplace Hlo Hhi.
  set (n := 2 * Z.to_nat (max_ordinal - start + 1)).
  assert (Hhalf : n / 2 = Z.to_nat (max_ordinal - start + 1)).
  { unfold n. rewrite Nat.mul_comm. by apply Nat.div_mul. }
  apply (generate_shifts_raises strptime config content start n g);
    [done | unfold n; lia | |].
  - destruct (shifts_prefix_returns config content start n g Hplace)
      as (shifts & used' & g' & Hrun & _); [|by eauto].
    intros i Hi. unfold Spec.slot_date.
    assert (i / 2 < Z.to_nat (max_ordinal - start + 1)).
    { apply Nat.Div0.div_lt_upper_bound. unfold n in Hi. lia. }
    lia.
  - intros used g0. unfold Generator.shift_body.
    apply lift_bind_raise, shift_slot_overflow.
    unfold Spec.slot_date. rewrite Hhalf. lia.
Qed.

(** A shift whose times are missing: the loop fails as the lookup of
    [config['shifts'][kind]] does. *)
Lemma shift_body_timing_raises config content start i kind shifts e used g :
  Spec.alternation Runs.daily_kinds i = Some kind →
  (1 ≤ Spec.slot_date start 2 i ≤ max_ordinal)%Z →
  (∃ v, subscript config "establishment" = Ok v) →
  subscript config "shifts" = Ok shifts →
  subscript shifts kind = Raise e →
  Generator.shift_body config content start i used g = Raise e.
Proof.
  intros Hk Hrange [est He] Hs Hkind.
  destruct (shift_slot_spec start i Hrange) as (kind' & Hk' & Hslot).
  rewrite Hk in Hk'. injection Hk' as <-.
  unfold Generator.shift_body.
  rewrite (lift_bind _ _ _ _ Hslot). cbn beta iota.
  rewrite (lift_bind _ _ _ _ He).
  apply bind_raise. unfold Generator.timing_field.
  rewrite (lift_bind _ _ _ _ Hs). by apply lift_bind_raise.
Qed.

(** The times of a kind of shift are missing, everything before them is in
    place: [generate_shifts] fails as the lookup of the kind does. *)
Lemma generate_shifts_timing_raises strptime config content start kind
    shifts e g :
  Runs.reads_start strptime config start →
  Runs.dates_in_range start →
  kind ∈ Runs.daily_kinds →
  (kind = "dinner" → Runs.kind_in_place config content "lunch") →
  (∃ v, subscript config "establishment" = Ok v) →
  subscript config "shifts" = Ok shifts →
  subscript shifts kind = Raise e →
  Generator.generate_shifts strptime config content g = Raise e.
Proof.
  intros Hstart Hdates Hkind Hlunch Hest Hs He.
  unfold Runs.daily_kinds in Hkind.
  apply elem_of_cons in Hkind as [->|Hkind].
  - apply (generate_shifts_raises strptime config content start 0 g);
      [done | lia | cbn; unfold ret; by eauto |].
    intros used g0.
    eapply (shift_body_timing_raises _ _ _ 0 "lunch"); [done| |done..].
    apply slot_date_range; [lia|done].
  - apply list_elem_of_singleton in Hkind as ->.
    apply (generate_shifts_raises strptime config content start 1 g);
      [done | lia | |].
    + destruct (shift_body_returns config content start 0 "lunch"
                  Generator.initial_used_content g eq_refl (Hlunch eq_refl))
        as (shift & used' & g' & Hrun & _);
        [apply slot_date_range; [lia|done] | apply initial_has_categories |].
      exists [shift], used', g'. cbn [seq for_each].
      by rewrite (bind_Ok _ _ _ _ _ Hrun).
    + intros used g0.
      eapply (shift_body_timing_raises _ _ _ 1 "dinner"); [done| |done..].
      apply slot_date_range; [lia|done].
Qed.

(** ** Repeats and coverage of the count window *)

(** With more distinct values in the pool than the history is long, some
    value of the pool is not in the history. *)
Lemma difference_nonempty (values pool history : list string) :
  NoDup values → values ⊆ pool → length history < length values →
  list_difference pool history ≠ [].
Proof.
  intros Hnd Hsub Hlen Hempty.
  assert (Hall : values ⊆ history).
  { intros x Hx. destruct (decide (x ∈ history)) as [|Hnot]; [done|].
    assert (x ∈ list_difference pool history) as Hin
      by (apply list_elem_of_difference; split; [by apply Hsub | done]).
    rewrite Hempty in Hin. by apply elem_of_nil in Hin. }
  pose proof (submseteq_length _ _ (NoDup_submseteq _ _ Hnd Hall)). lia.
Qed.

Lemma distinct_at_least_length n pool :
  Runs.distinct_at_least n pool → n ≤ length pool.
Proof.
  intros (values & Hnd & Hsub & Hlen).
  pose proof (submseteq_length _ _ (NoDup_submseteq _ _ Hnd Hsub)). lia.
Qed.

Lemma recent_for_no_reset pool history :
  length history < length pool → Spec.recent_for pool history = history.
Proof. intros Hlen. unfold Spec.recent_for. by rewrite decide_False by lia. Qed.

Lemma recent_for_reset pool history :
  length pool ≤ length history → Spec.recent_for pool history = [].
Proof. intros Hlen. unfold Spec.recent_for. by rewrite decide_True by lia. Qed.

(** A value chosen while some candidate is unused is not a recent one. *)
Lemma select_fresh pool history draw value history' :
  list_difference pool (Spec.recent_for pool history) ≠ [] →
  Spec.select pool history draw = Some (value, history') →
  value ∈ pool ∧ (value ∉ Spec.recent_for pool history) ∧
  history' = Spec.recorded (Spec.recent_for pool history) value.
Proof.
  intros Hne. unfold Spec.select, Spec.chosen, Spec.candidates_allowed.
  destruct (list_difference pool _) as [|x l] eqn:Hdiff; [done|].
  destruct (_ !! _) as [v|] eqn:Hv; [|done]. intros [= <- <-].
  apply list_elem_of_lookup_2 in Hv. rewrite <- Hdiff in Hv.
  apply list_elem_of_difference in Hv as [Hin Hnot]. done.
Qed.

Lemma select_elem_of pool history draw value history' :
  Spec.select pool history draw = Some (value, history') → value ∈ pool.
Proof.
  unfold Spec.select, Spec.chosen, Spec.candidates_allowed.
  destruct (list_difference pool _) as [|x l] eqn:Hdiff;
    (destruct (_ !! _) as [v|] eqn:Hv; [|done]); intros [= <- <-];
    apply list_elem_of_lookup_2 in Hv; [done|].
  rewrite <- Hdiff in Hv. by apply list_elem_of_difference in Hv as [Hin _].
Qed.

(** The value just chosen is in the history the call leaves. *)
Lemma recorded_elem_of recent value : value ∈ Spec.recorded recent value.
Proof.
  unfold Spec.recorded, Spec.bound. cbn zeta. case_decide as Hlong.
  - destruct recent as [|x recent]; [simpl in Hlong; lia|].
    cbn. rewrite drop_0. set_solver.
  - set_solver.
Qed.

Lemma select_recorded pool history draw value history' :
  Spec.select pool history draw = Some (value, history') → value ∈ history'.
Proof.
  unfold Spec.select. destruct (Spec.chosen _ _); [|done].
  intros [= <- <-]. apply recorded_elem_of.
Qed.

(** Two consecutive calls for a category return the same value only when
    the second one found every value of the pool in the history: it then
    reset the history or fell back to the full pool. *)
Lemma consecutive_repeat_needs_reset pool history draw1 value1 history1
    draw2 value2 history2 :
  Spec.select pool history draw1 = Some (value1, history1) →
  Spec.select pool history1 draw2 = Some (value2, history2) →
  value1 = value2 →
  length pool ≤ length history1 ∨ list_difference pool history1 = [].
Proof.
  intros H1 H2 <-.
  destruct (decide (length pool ≤ length history1)) as [|Hlen]; [by left|right].
  destruct (decide (list_difference pool history1 = [])) as [|Hne]; [done|].
  rewrite <- (recent_for_no_reset pool history1) in Hne by lia.
  destruct (select_fresh _ _ _ _ _ Hne H2) as (_ & Hnot & _).
  rewrite recent_for_no_reset in Hnot by lia.
  destruct Hnot. by eapply select_recorded.
Qed.

(** With at least four distinct values in the pool and the history within
    its bound, neither happens. *)
Lemma consecutive_distinct pool history draw1 value1 history1
    draw2 value2 history2 :
  Runs.distinct_at_least 4 pool →
  length history ≤ Spec.bound →
  Spec.select pool history draw1 = Some (value1, history1) →
  Spec.select pool history1 draw2 = Some (value2, history2) →
  value1 ≠ value2.
Proof.
  intros Hdist Hlen H1 H2 Heq.
  pose proof (distinct_at_least_length _ _ Hdist) as Hpool.
  pose proof (select_history_length _ _ _ _ _ Hlen H1) as Hlen1.
  unfold Spec.bound in *.
  destruct Hdist as (values & Hnd & Hsub & Hfour).
  destruct (consecutive_repeat_needs_reset _ _ _ _ _ _ _ _ H1 H2 Heq)
    as [Hreset|Hempty]; [lia|].
  eapply (difference_nonempty values pool history1); [done..|lia|done].
Qed.

(** ** Repeats of the gap window *)

Lemma choose_unique_inv items (history : gmap string Z) day gap g value history' g' :
  LogbookGenerator._choose_unique items history day gap g
    = Ok ((value, history'), g') →
  let available :=
    filter (λ r, LogbookGenerator.available_on history day gap r) items in
  g' = tl g ∧
  ((available ≠ [] ∧ value ∈ available ∧ history' = <[value := day]> history) ∨
   (available = [] ∧ value ∈ items ∧ history' = <[value := day]> ∅)).
Proof.
  unfold LogbookGenerator._choose_unique. cbn zeta.
  destruct (filter _ items) as [|x l] eqn:Havail; intros Hrun;
    apply bind_inv in Hrun as (v & g1 & Hc & Hret);
    unfold ret in Hret; injection Hret as <- <- <-;
    pose proof (choice_elem_of _ _ _ _ Hc) as Hin;
    apply choice_inv in Hc as [_ ->]; (split; [done|]).
  - right. done.
  - left. done.
Qed.

Lemma choose_unique_returns items (history : gmap string Z) day gap g :
  items ≠ [] →
  ∃ value history',
    LogbookGenerator._choose_unique items history day gap g
      = Ok ((value, history'), tl g).
Proof.
  intros Hne. unfold LogbookGenerator._choose_unique. cbn zeta.
  destruct (filter _ items) as [|x l] eqn:Havail.
  - destruct (choice_Ok items g Hne) as (v & _ & Hc).
    rewrite (bind_Ok _ _ _ _ _ Hc). unfold ret. eauto.
  - destruct (choice_Ok (x :: l) g ltac:(done)) as (v & _ & Hc).
    rewrite (bind_Ok _ _ _ _ _ Hc). unfold ret. eauto.
Qed.

Lemma available_on_true (history : gmap string Z) day gap value :
  LogbookGenerator.available_on history day gap value →
  history !! value = None ∨
  ∃ used, history !! value = Some used ∧ (gap ≤ day - used)%Z.
Proof.
  unfold LogbookGenerator.available_on.
  destruct (history !! value) as [used|]; [|by left].
  intros H%bool_decide_unpack. right. eauto.
Qed.

(** On consecutive days, or any two days less than [gap] apart, the second
    call returns the value of the first only when it found no candidate
    available and cleared the history. *)
Lemma gap_repeat_needs_clear items (history : gmap string Z) day1 day2 gap
    g1 value1 history1 g1' g2 value2 history2 g2' :
  (day2 - day1 < gap)%Z →
  LogbookGenerator._choose_unique items history day1 gap g1
    = Ok ((value1, history1), g1') →
  LogbookGenerator._choose_unique items history1 day2 gap g2
    = Ok ((value2, history2), g2') →
  value1 = value2 →
  filter (λ r, LogbookGenerator.available_on history1 day2 gap r) items = [].
Proof.
  intros Hgap H1 H2 <-.
  assert (Hrec : history1 !! value1 = Some day1).
  { apply choose_unique_inv in H1 as (_ & [(_ & _ & ->)|(_ & _ & ->)]);
      apply lookup_insert_eq. }
  apply choose_unique_inv in H2 as (_ & [(_ & Hin & _)|(Hempty & _)]); [|done].
  apply list_elem_of_filter in Hin as [Hav _].
  apply available_on_true in Hav as [Hnone|(used & Hused & Hle)]; [congruence|].
  rewrite Hrec in Hused. injection Hused as <-. lia.
Qed.

Lemma choose_unique_history_at items (history : gmap string Z) day gap g
    value history' g' :
  (1 ≤ day)%Z →
  Runs.history_at day history →
  LogbookGenerator._choose_unique items history day gap g
    = Ok ((value, history'), g') →
  Runs.history_at (day + 1) history' ∧ history' !! value = Some day.
Proof.
  intros Hday [Hrange Hinj] Hrun.
  assert (Hstep : ∀ h : gmap string Z,
            (∀ v k, h !! v = Some k → (1 ≤ k < day)%Z) →
            (∀ v w k, h !! v = Some k → h !! w = Some k → v = w) →
            Runs.history_at (day + 1) (<[value := day]> h)).
  { intros h Hr Hi. split.
    - intros v k. rewrite lookup_insert. case_decide.
      + intros [= <-]. lia.
      + intros Hk%Hr. lia.
    - intros v w k. rewrite !lookup_insert. repeat case_decide; subst.
      + done.
      + intros [= <-] Hw%Hr. lia.
      + intros Hv%Hr [= <-]. lia.
      + apply Hi. }
  apply choose_unique_inv in Hrun as (_ & [(_ & _ & ->)|(_ & _ & ->)]).
  - split; [by apply Hstep | apply lookup_insert_eq].
  - split; [|apply lookup_insert_eq]. apply Hstep.
    + intros v k. by rewrite lookup_empty.
    + intros v w k. by rewrite lookup_empty.
Qed.

(** With eight distinct recipes and one call a day, a candidate is always
    available: the values recorded within the last seven days are at most
    seven. *)
Lemma gap_never_clears items (history : gmap string Z) day :
  Runs.history_at day history →
  Runs.distinct_at_least 8 items →
  filter (λ r, LogbookGenerator.available_on history day
                 LogbookGenerator.default_gap r) items ≠ [].
Proof.
  intros [Hrange Hinj] (values & Hnd & Hsub & Hlen) Hempty.
  unfold LogbookGenerator.default_gap in Hempty.
  assert (Hrecent : ∀ x, x ∈ values →
            ∃ k, history !! x = Some k ∧ (day - 8 < k < day)%Z).
  { intros x Hx.
    destruct (history !! x) as [k|] eqn:Hk.
    - exists k. split; [done|]. pose proof (Hrange _ _ Hk).
      destruct (decide (8 ≤ day - k)%Z) as [Hold|]; [|lia].
      exfalso. eapply (filter_nil_not_elem_of _ _ x Hempty); [|by apply Hsub].
      unfold LogbookGenerator.available_on. rewrite Hk.
      by apply bool_decide_pack.
    - exfalso. eapply (filter_nil_not_elem_of _ _ x Hempty); [|by apply Hsub].
      unfold LogbookGenerator.available_on. by rewrite Hk. }
  set (slot := λ x : string, Z.to_nat (default 0%Z (history !! x) - (day - 8))).
  assert (Hnd' : NoDup (slot <$> values)).
  { apply NoDup_fmap_2_strong; [|done]. intros x y Hx Hy Heq.
    destruct (Hrecent x Hx) as (kx & Hkx & Hrx).
    destruct (Hrecent y Hy) as (ky & Hky & Hry).
    unfold slot in Heq. rewrite Hkx, Hky in Heq. cbn in Heq.
    apply (Hinj x y kx); [done|]. rewrite Hky. f_equal. lia. }
  assert (Hsub' : slot <$> values ⊆ seq 1 7).
  { intros n (x & -> & Hx)%list_elem_of_fmap.
    destruct (Hrecent x Hx) as (k & Hk & Hr).
    apply elem_of_seq. unfold slot. rewrite Hk. cbn. lia. }
  pose proof (submseteq_length _ _ (NoDup_submseteq _ _ Hnd' Hsub')) as Hle.
  rewrite length_fmap, length_seq in Hle. lia.
Qed.

(** So the value of a day was not the value of the day before. *)
Lemma choose_unique_fresh items (history : gmap string Z) day g
    value history' g' :
  Runs.history_at day history →
  Runs.distinct_at_least 8 items →
  LogbookGenerator._choose_unique items history day
    LogbookGenerator.default_gap g = Ok ((value, history'), g') →
  history !! value ≠ Some (day - 1)%Z.
Proof.
  intros Hat Hdist Hrun Hprev.
  apply choose_unique_inv in Hrun as (_ & [(_ & Hin & _)|(Hempty & _)]).
  - apply list_elem_of_filter in Hin as [Hav _].
    apply available_on_true in Hav as [Hnone|(used & Hused & Hle)];
      [congruence|].
    rewrite Hprev in Hused. injection Hused as <-.
    unfold LogbookGenerator.default_gap in Hle. lia.
  - by eapply gap_never_clears.
Qed.

Section RotationLoop.

(** One of the three categories of the rotation: its recipes, its history
    among the three, and its field of a day's record. *)
Variable recipes : gmap string (list string).
Variable items : list string.
Variable history_of : LogbookGenerator.Histories → gmap string Z.
Variable value_of : LogbookGenerator.DayData → string.

Hypothesis items_distinct : Runs.distinct_at_least 8 items.
Hypothesis body_chooses :
  ∀ day histories g data histories' g',
    LogbookGenerator.day_body recipes day histories g
      = Ok ((data, histories'), g') →
    ∃ g0 g0',
      LogbookGenerator._choose_unique items (history_of histories) day
        LogbookGenerator.default_gap g0
        = Ok ((value_of data, history_of histories'), g0').

Lemma rotation_loop_no_repeat n :
  ∀ a histories g data histories' g',
    Runs.history_at (Z.of_nat (S a)) (history_of histories) →
    for_each (LogbookGenerator.day_body recipes)
      ((λ i, Z.of_nat (S i)) <$> seq a n) histories g
      = Ok ((data, histories'), g') →
    Runs.no_consecutive_repeat value_of data ∧
    (∀ x, data !! 0 = Some x →
          history_of histories !! value_of x ≠ Some (Z.of_nat a)).
Proof.
  induction n as [|n IH]; intros a histories g data histories' g' Hat Hrun.
  - cbn in Hrun. unfold ret in Hrun. injection Hrun as <- _ _.
    split; [by intros i x y Hx | by intros x Hx].
  - cbn [seq fmap list_fmap for_each] in Hrun.
    apply bind_inv in Hrun as ([d hs1] & g1 & Hbody & Hrun).
    apply bind_inv in Hrun as ([data1 hs2] & g2 & Hrest & Hrun).
    unfold ret in Hrun. injection Hrun as <- <- <-.
    destruct (body_chooses _ _ _ _ _ _ Hbody) as (g0 & g0' & Hchoose).
    assert (Hday : (1 ≤ Z.of_nat (S a))%Z) by lia.
    destruct (choose_unique_history_at _ _ _ _ _ _ _ _ Hday Hat Hchoose)
      as [Hat1 Hrec].
    replace (Z.of_nat (S a) + 1)%Z with (Z.of_nat (S (S a))) in Hat1 by lia.
    destruct (IH (S a) hs1 g1 data1 hs2 g2 Hat1 Hrest) as [Hrep Hfirst].
    split.
    + intros [|i] x y Hx Hy; cbn in Hx, Hy.
      * injection Hx as <-. intros Heq.
        apply (Hfirst y Hy). by rewrite <- Heq.
      * by eapply Hrep.
    + intros x [= <-].
      pose proof (choose_unique_fresh _ _ _ _ _ _ _ Hat items_distinct Hchoose)
        as Hfresh.
      by replace (Z.of_nat (S a) - 1)%Z with (Z.of_nat a) in Hfresh by lia.
Qed.

End RotationLoop.

Lemma day_body_chooses recipes day histories g data histories' g' :
  LogbookGenerator.day_body recipes day histories g
    = Ok ((data, histories'), g') →
  ∃ proteins sauces accompaniments g1 g1' g2 g2' g3 g3',
    recipes !! "proteins" = Some proteins ∧
    recipes !! "sauces" = Some sauces ∧
    recipes !! "accompaniments" = Some accompaniments ∧
    LogbookGenerator._choose_unique proteins
      (LogbookGenerator.h_proteins histories) day
      LogbookGenerator.default_gap g1
      = Ok ((LogbookGenerator.protein data,
             LogbookGenerator.h_proteins histories'), g1') ∧
    LogbookGenerator._choose_unique sauces
      (LogbookGenerator.h_sauces histories) day
      LogbookGenerator.default_gap g2
      = Ok ((LogbookGenerator.sauce data,
             LogbookGenerator.h_sauces histories'), g2') ∧
    LogbookGenerator._choose_unique accompaniments
      (LogbookGenerator.h_accompaniments histories) day
      LogbookGenerator.default_gap g3
      = Ok ((LogbookGenerator.accompaniment data,
             LogbookGenerator.h_accompaniments histories'), g3').
Proof.
  intros Hrun. unfold LogbookGenerator.day_body in Hrun. invert_binds Hrun.
  injection Hrun as <- <- _.
  repeat match goal with
  | H : getitem _ _ _ = Ok _ |- _ => apply getitem_inv in H as [H ->]
  end.
  cbn. eauto 20.
Qed.

Lemma history_at_empty day : Runs.history_at day ∅.
Proof. split; [intros v k | intros v w k]; by rewrite lookup_empty. Qed.

Lemma generate_shift_data_no_repeat recipes days g data g' :
  LogbookGenerator.generate_shift_data recipes days g = Ok (data, g') →
  (∀ items, recipes !! "proteins" = Some items →
            Runs.distinct_at_least 8 items →
            Runs.no_consecutive_repeat LogbookGenerator.protein data) ∧
  (∀ items, recipes !! "sauces" = Some items →
            Runs.distinct_at_least 8 items →
            Runs.no_consecutive_repeat LogbookGenerator.sauce data) ∧
  (∀ items, recipes !! "accompaniments" = Some items →
            Runs.distinct_at_least 8 items →
            Runs.no_consecutive_repeat LogbookGenerator.accompaniment data).
Proof.
  intros Hrun. unfold LogbookGenerator.generate_shift_data in Hrun.
  apply bind_inv in Hrun as ([data' hs] & g1 & Hrun & Hret).
  unfold ret in Hret. injection Hret as -> ->.
  unfold LogbookGenerator.generate_shift_data_state in Hrun.
  rewrite day_range_seq in Hrun.
  repeat split; intros items Hitems Hdist.
  - eapply (rotation_loop_no_repeat recipes items
              LogbookGenerator.h_proteins LogbookGenerator.protein Hdist);
      cycle 2; [exact Hrun| |apply history_at_empty].
    intros day histories g0 d histories' g0' Hbody.
    apply day_body_chooses in Hbody
      as (ps & ss & acs & ? & ? & ? & ? & ? & ? & Hp & Hs & Ha & H1 & H2 & H3).
    rewrite Hitems in Hp. injection Hp as <-. eauto.
  - eapply (rotation_loop_no_repeat recipes items
              LogbookGenerator.h_sauces LogbookGenerator.sauce Hdist);
      cycle 2; [exact Hrun| |apply history_at_empty].
    intros day histories g0 d histories' g0' Hbody.
    apply day_body_chooses in Hbody
      as (ps & ss & acs & ? & ? & ? & ? & ? & ? & Hp & Hs & Ha & H1 & H2 & H3).
    rewrite Hitems in Hs. injection Hs as <-. eauto.
  - eapply (rotation_loop_no_repeat recipes items
              LogbookGenerator.h_accompaniments LogbookGenerator.accompaniment
              Hdist);
      cycle 2; [exact Hrun| |apply history_at_empty].
    intros day histories g0 d histories' g0' Hbody.
    apply day_body_chooses in Hbody
      as (ps & ss & acs & ? & ? & ? & ? & ? & ? & Hp & Hs & Ha & H1 & H2 & H3).
    rewrite Hitems in Ha. injection Ha as <-. eauto.
Qed.

(** C4, as the code has it.  Count window: two consecutive calls for a
    category (calls for other categories may lie between them) return
    different values whenever the pool holds at least four distinct values
    and the histories are within their bound; for any pool, the second call
    repeats the value of the first only if it found every value of the pool
    in the history, and so reset the history or fell back to the full pool;
    when the pool lists no value twice, only if it reset the history.  Gap
    window: two calls less than [gap] days apart repeat a value only if the
    second one cleared the history, and in [generate_shift_data] no two
    consecutive days have the same recipe of a category whose list holds at
    least eight distinct recipes. *)
Theorem immediate_repeat_avoidance :
  (∀ (content : gmap string (list string)) ct pool
     (used used1 used1' used2 : gmap string (list string))
     g1 value1 g1' g2 value2 g2',
     content !! ct = Some pool →
     Generator.get_varied_content content ct used g1 = Ok ((value1, used1), g1') →
     used1' !! ct = used1 !! ct →
     Generator.get_varied_content content ct used1' g2 = Ok ((value2, used2), g2') →
     (Runs.distinct_at_least 4 pool → Runs.history_bounded used →
      value1 ≠ value2) ∧
     (value1 = value2 →
      ∃ history1, used1 !! ct = Some history1 ∧
        (length pool ≤ length history1 ∨ list_difference pool history1 = []) ∧
        (NoDup pool → length pool ≤ length history1))) ∧
  (∀ items (history : gmap string Z) day1 day2 gap
     g1 value1 history1 g1' g2 value2 history2 g2',
     (day2 - day1 < gap)%Z →
     LogbookGenerator._choose_unique items history day1 gap g1
       = Ok ((value1, history1), g1') →
     LogbookGenerator._choose_unique items history1 day2 gap g2
       = Ok ((value2, history2), g2') →
     value1 = value2 →
     filter (λ r, LogbookGenerator.available_on history1 day2 gap r) items = []) ∧
  (∀ recipes days g data g',
     LogbookGenerator.generate_shift_data recipes days g = Ok (data, g') →
     (∀ items, recipes !! "proteins" = Some items →
               Runs.distinct_at_least 8 items →
               Runs.no_consecutive_repeat LogbookGenerator.protein data) ∧
     (∀ items, recipes !! "sauces" = Some items →
               Runs.distinct_at_least 8 items →
               Runs.no_consecutive_repeat LogbookGenerator.sauce data) ∧
     (∀ items, recipes !! "accompaniments" = Some items →
               Runs.distinct_at_least 8 items →
               Runs.no_consecutive_repeat LogbookGenerator.accompaniment data)).
Proof.
  split; [|split].
  - intros content ct pool used used1 used1' used2 g1 value1 g1' g2 value2 g2'
      Hpool H1 Hsame H2.
    apply get_varied_content_inv in H1
      as (pool1 & h & h1 & Hp1 & Hh & _ & Hsel1 & -> & _).
    apply get_varied_content_inv in H2
      as (pool2 & h1' & h2 & Hp2 & Hh1 & _ & Hsel2 & -> & _).
    rewrite Hpool in Hp1, Hp2. injection Hp1 as <-. injection Hp2 as <-.
    rewrite Hsame, lookup_insert_eq in Hh1. injection Hh1 as <-.
    split.
    + intros Hdist Hbound. eapply consecutive_distinct; [done| |done..].
      by eapply Hbound.
    + intros Heq. exists h1. split; [apply lookup_insert_eq|].
      assert (Hor : length pool ≤ length h1 ∨ list_difference pool h1 = [])
        by (by eapply consecutive_repeat_needs_reset).
      split; [exact Hor|]. intros Hnd.
      destruct Hor as [Hreset|Hempty]; [exact Hreset|].
      destruct (decide (length pool ≤ length h1)) as [|Hshort]; [done|].
      by destruct (difference_nonempty pool pool h1 Hnd ltac:(done)
                     ltac:(lia)).
  - apply gap_repeat_needs_clear.
  - apply generate_shift_data_no_repeat.
Qed.

Lemma immediate_repeat_avoidance_witness :
  ∃ value1 used1 value2 used2,
    Generator.get_varied_content (Generator.pools Runs.sample_content)
      "food_details" Generator.initial_used_content [0] = Ok ((value1, used1), []) ∧
    Generator.get_varied_content (Generator.pools Runs.sample_content)
      "food_details" used1 [0] = Ok ((value2, used2), []) ∧
    value1 ≠ value2.
Proof.
  destruct (get_varied_content_returns (Generator.pools Runs.sample_content)
              "food_details" Generator.initial_used_content [0])
    as (value1 & history1 & H1).
  { exists ["f1"; "f2"; "f3"; "f4"]. split; [reflexivity | discriminate]. }
  { eexists. reflexivity. }
  destruct (get_varied_content_returns (Generator.pools Runs.sample_content)
              "food_details"
              (<["food_details" := history1]> Generator.initial_used_content) [0])
    as (value2 & history2 & H2).
  { exists ["f1"; "f2"; "f3"; "f4"]. split; [reflexivity | discriminate]. }
  { rewrite lookup_insert_eq. by eexists. }
  cbn [tl] in H1, H2.
  eexists value1, _, value2, _. split; [exact H1|]. split; [exact H2|].
  apply (proj1 (proj1 immediate_repeat_avoidance
                  (Generator.pools Runs.sample_content) "food_details"
                  ["f1"; "f2"; "f3"; "f4"] Generator.initial_used_content
                  _ _ _ [0] value1 [] [0] value2 []
                  eq_refl H1 eq_refl H2)).
  - exists ["f1"; "f2"; "f3"; "f4"]. split; [|split].
    + apply (bool_decide_unpack _). vm_compute. exact I.
    + intros x Hx. exact Hx.
    + simpl. lia.
  - apply initial_used_content_bounded.
Defined.

(** C4, as stated, fails for a pool of two candidates, in both variants:
    the third call resets the history and may return the value of the
    second call again. *)
Lemma immediate_repeat_counterexample :
  (∃ used',
     Runs.select_repeat Runs.sample_pools "debrief" 3 Runs.sample_used [0; 0; 1]
       = Ok ((["a"; "b"; "b"], used'), [])) ∧
  (∃ data,
     LogbookGenerator.generate_shift_data Runs.sample_recipes 3
       [0; 0; 0; 0; 0; 0; 1] = Ok (data, []) ∧
     LogbookGenerator.protein <$> data = ["a"; "b"; "b"]).
Proof.
  split.
  - eexists. vm_compute. reflexivity.
  - eexists. split; vm_compute; reflexivity.
Qed.

(** A repeat without a reset: the pool lists both of its values twice, the
    third call finds both in a history shorter than the pool and falls back
    to the full pool. *)
Example repeat_without_reset :
  Runs.select_repeat {[ "debrief" := ["a"; "a"; "b"; "b"] ]} "debrief" 3
    Runs.sample_used [0; 3; 3]
  = Ok ((["a"; "b"; "b"], {[ "debrief" := ["a"; "b"; "b"] ]}), []).
Proof. vm_compute. reflexivity. Qed.

(** ** Coverage of the count window *)

Lemma for_each_app {X S R} (body : X → S → M (R * S)) xs ys st g rs st' g' :
  for_each body (xs ++ ys) st g = Ok ((rs, st'), g') →
  ∃ rs1 st1 g1 rs2,
    for_each body xs st g = Ok ((rs1, st1), g1) ∧
    for_each body ys st1 g1 = Ok ((rs2, st'), g') ∧
    rs = (rs1 ++ rs2)%list.
Proof.
  revert st g rs. induction xs as [|x xs IH]; intros st g rs Hrun.
  - exists [], st, g, rs. done.
  - cbn [app for_each] in Hrun.
    apply bind_inv in Hrun as ([r st1] & g1 & Hx & Hrun).
    apply bind_inv in Hrun as ([rs' st2] & g2 & Hxs & Hrun).
    unfold ret in Hrun. injection Hrun as <- <- <-.
    destruct (IH _ _ _ Hxs) as (rs1 & st3 & g3 & rs2 & H1 & H2 & ->).
    exists (r :: rs1), st3, g3, rs2. split; [|done].
    cbn [for_each]. rewrite (bind_Ok _ _ _ _ _ Hx).
    by rewrite (bind_Ok _ _ _ _ _ H1).
Qed.

Lemma select_repeat_length content ct n used g values used' g' :
  Runs.select_repeat content ct n used g = Ok ((values, used'), g') →
  length values = n.
Proof.
  intros Hrun%for_each_Forall2%Forall2_length.
  by rewrite length_replicate in Hrun.
Qed.

Section Coverage.

Variable content : gmap string (list string).
Variable ct : string.
Variable pool : list string.

Hypothesis pool_of_ct : content !! ct = Some pool.
Hypothesis pool_distinct : NoDup pool.
Hypothesis pool_small : length pool ≤ Spec.bound.

(** While the block is incomplete, every call adds a value of the pool that
    the block does not hold yet. *)
Lemma partial_block k :
  ∀ used history g values used' g',
    used !! ct = Some history →
    NoDup (Spec.recent_for pool history) →
    Spec.recent_for pool history ⊆ pool →
    length (Spec.recent_for pool history) + k = length pool →
    Runs.select_repeat content ct k used g = Ok ((values, used'), g') →
    NoDup (Spec.recent_for pool history ++ values) ∧
    (Spec.recent_for pool history ++ values)%list ⊆ pool ∧
    (0 < k → used' !! ct = Some (Spec.recent_for pool history ++ values)%list).
Proof.
  unfold Spec.bound in pool_small.
  induction k as [|k IH]; intros used history g values used' g' Hused Hnd Hsub Hlen Hrun.
  - cbn in Hrun. unfold ret in Hrun. injection Hrun as <- _ _.
    rewrite app_nil_r. split; [done|]. split; [done|lia].
  - remember (Spec.recent_for pool history) as e eqn:He.
    unfold Runs.select_repeat, Runs.select_calls in Hrun.
    cbn [replicate for_each] in Hrun.
    apply bind_inv in Hrun as ([v used1] & g1 & Hcall & Hrun).
    apply bind_inv in Hrun as ([values1 used2] & g2 & Hrest & Hrun).
    unfold ret in Hrun. injection Hrun as <- <- <-.
    apply get_varied_content_inv in Hcall
      as (pool' & h & h1 & Hp & Hh & _ & Hsel & -> & _).
    rewrite pool_of_ct in Hp. injection Hp as <-.
    rewrite Hused in Hh. injection Hh as <-.
    assert (Hfresh : list_difference pool (Spec.recent_for pool history) ≠ []).
    { rewrite <- He. apply (difference_nonempty pool); [done..|lia]. }
    destruct (select_fresh _ _ _ _ _ Hfresh Hsel) as (Hin & Hnot & ->).
    rewrite <- He in *.
    assert (Hrec : Spec.recorded e v = (e ++ [v])%list).
    { unfold Spec.recorded, Spec.bound. cbn zeta.
      rewrite decide_False; [done|]. rewrite length_app. simpl. lia. }
    rewrite Hrec in *.
    assert (Hnd1 : NoDup (e ++ [v])).
    { apply NoDup_app. split; [done|]. split; [|apply NoDup_singleton].
      intros x Hx ->%list_elem_of_singleton. done. }
    assert (Hsub1 : (e ++ [v])%list ⊆ pool).
    { intros x [Hx| ->%list_elem_of_singleton]%elem_of_app; [by apply Hsub|done]. }
    destruct k as [|k].
    + cbn in Hrest. unfold ret in Hrest. injection Hrest as <- <- _.
      split; [done|]. split; [done|]. intros _. apply lookup_insert_eq.
    + assert (He1 : Spec.recent_for pool (e ++ [v]) = (e ++ [v])%list).
      { apply recent_for_no_reset. rewrite length_app. simpl. lia. }
      destruct (IH (<[ct := (e ++ [v])%list]> used) (e ++ [v])%list g1
                  values1 used2 g2) as (Hn & Hs & Hu).
      * apply lookup_insert_eq.
      * by rewrite He1.
      * by rewrite He1.
      * rewrite He1, length_app. simpl. lia.
      * exact Hrest.
      * rewrite He1, <- app_assoc in Hn, Hs, Hu. cbn in Hn, Hs, Hu.
        split; [done|]. split; [done|]. intros _. apply Hu. lia.
Qed.

(** From the start of a block, as many calls as the pool has candidates
    return every candidate once, and leave a history that is the start of
    the next block. *)
Lemma full_block used history g values used' g' :
  pool ≠ [] →
  used !! ct = Some history →
  Spec.recent_for pool history = [] →
  Runs.select_repeat content ct (length pool) used g = Ok ((values, used'), g') →
  values ≡ₚ pool ∧
  ∃ history', used' !! ct = Some history' ∧ Spec.recent_for pool history' = [].
Proof.
  intros Hne Hused Hstart Hrun.
  pose proof (select_repeat_length _ _ _ _ _ _ _ _ Hrun) as Hlen.
  destruct (partial_block (length pool) used history g values used' g')
    as (Hnd & Hsub & Hu); rewrite ?Hstart; try done.
  - apply NoDup_nil_2.
  - intros x Hx. by apply elem_of_nil in Hx.
  - rewrite Hstart in Hnd, Hsub, Hu. cbn in Hnd, Hsub, Hu. split.
    + apply submseteq_length_Permutation; [by apply NoDup_submseteq | lia].
    + exists values. split.
      * apply Hu. destruct pool; [done | simpl; lia].
      * apply recent_for_reset. lia.
Qed.

(** Every aligned window holds every candidate once. *)
Lemma aligned_windows m :
  ∀ n used history g values used' g',
    pool ≠ [] →
    used !! ct = Some history →
    Spec.recent_for pool history = [] →
    Runs.select_repeat content ct n used g = Ok ((values, used'), g') →
    (m + 1) * length pool ≤ n →
    Runs.window (m * length pool) (length pool) values ≡ₚ pool.
Proof.
  induction m as [|m IH]; intros n used history g values used' g'
    Hne Hused Hstart Hrun Hn.
  - unfold Runs.select_repeat, Runs.select_calls in Hrun.
    replace n with (length pool + (n - length pool)) in Hrun by lia.
    rewrite replicate_add in Hrun.
    apply for_each_app in Hrun as (vs1 & used1 & g1 & vs2 & H1 & H2 & ->).
    pose proof (select_repeat_length _ _ _ _ _ _ _ _ H1) as Hlen1.
    destruct (full_block _ _ _ _ _ _ Hne Hused Hstart H1) as [Hperm _].
    unfold Runs.window. rewrite Nat.mul_0_l, drop_0.
    by rewrite take_app_length' by done.
  - unfold Runs.select_repeat, Runs.select_calls in Hrun.
    replace n with (length pool + (n - length pool)) in Hrun by lia.
    rewrite replicate_add in Hrun.
    apply for_each_app in Hrun as (vs1 & used1 & g1 & vs2 & H1 & H2 & ->).
    pose proof (select_repeat_length _ _ _ _ _ _ _ _ H1) as Hlen1.
    destruct (full_block _ _ _ _ _ _ Hne Hused Hstart H1)
      as [_ (history1 & Hused1 & Hstart1)].
    unfold Runs.window.
    replace (S m * length pool) with (length vs1 + m * length pool) by lia.
    rewrite drop_app_add'; [|done].
    eapply (IH (n - length pool)); [done..| |]; [exact H2 | lia].
Qed.

End Coverage.

Lemma select_repeat_returns (content : gmap string (list string)) ct pool n
    (used : gmap string (list string)) g :
  content !! ct = Some pool → pool ≠ [] → is_Some (used !! ct) →
  ∃ values used' g',
    Runs.select_repeat content ct n used g = Ok ((values, used'), g').
Proof.
  intros Hpool Hne Hused.
  destruct (for_each_returns (λ st : gmap string (list string), is_Some (st !! ct))
              (Generator.get_varied_content content) (replicate n ct))
    with (st := used) (g := g) as (values & used' & g' & Hrun & _);
    [|done|by eauto].
  intros x st g0 [-> _]%elem_of_replicate Hst.
  destruct (get_varied_content_returns content ct st g0) as (v & h & Hcall);
    [by eauto | done |].
  eexists _, _, _. split; [exact Hcall|]. rewrite lookup_insert_eq. by eexists.
Qed.

(** C6, as the code has it.  For a pool of [K] distinct candidates with
    [1 ≤ K ≤ 3] and a run of the selector for its category from an empty
    history, the run returns normally, and every aligned window, the
    selections [m·K + 1] to [(m + 1)·K], holds every candidate exactly
    once. *)
Theorem aligned_windows_cover_pool (content : gmap string (list string)) ct pool
    (used : gmap string (list string)) :
  content !! ct = Some pool →
  NoDup pool →
  pool ≠ [] →
  length pool ≤ Spec.bound →
  used !! ct = Some [] →
  ∀ n g,
    (∃ values used' g',
       Runs.select_repeat content ct n used g = Ok ((values, used'), g')) ∧
    (∀ values used' g' m,
       Runs.select_repeat content ct n used g = Ok ((values, used'), g') →
       (m + 1) * length pool ≤ n →
       Runs.window (m * length pool) (length pool) values ≡ₚ pool).
Proof.
  intros Hpool Hnd Hne Hsmall Hused n g. split.
  - eapply select_repeat_returns; [done..|by eexists].
  - intros values used' g' m Hrun Hm.
    eapply (aligned_windows content ct pool Hpool Hnd Hsmall m); [done..| |done|done].
    unfold Spec.recent_for. by case_decide.
Qed.

Lemma aligned_windows_cover_pool_witness :
  ∃ values used' g',
    Runs.select_repeat Runs.sample_pools "debrief" 4 Runs.sample_used [0; 0; 1; 0]
      = Ok ((values, used'), g') ∧
    Runs.window (1 * 2) 2 values ≡ₚ ["a"; "b"].
Proof.
  destruct (Runs.select_repeat Runs.sample_pools "debrief" 4 Runs.sample_used
              [0; 0; 1; 0]) as [[[values used'] g']|e] eqn:Hrun.
  - exists values, used', g'. split; [reflexivity|].
    apply (proj2 (aligned_windows_cover_pool Runs.sample_pools "debrief"
                    ["a"; "b"] Runs.sample_used eq_refl
                    ltac:(apply (bool_decide_unpack _); vm_compute; exact I)
                    ltac:(discriminate)
                    ltac:(vm_compute; lia)
                    eq_refl 4 [0; 0; 1; 0]) values used' g' 1 Hrun).
    simpl. lia.
  - exfalso. vm_compute in Hrun. discriminate Hrun.
Defined.

(** C6, as stated, fails for a pool of two candidates, within the bound of
    3: the window of the second and third selections misses a candidate. *)
Lemma window_coverage_counterexample :
  ∃ values used',
    Runs.select_repeat Runs.sample_pools "debrief" 3 Runs.sample_used [0; 0; 1]
      = Ok ((values, used'), []) ∧
    Runs.sample_pools !! "debrief" = Some ["a"; "b"] ∧
    length ["a"; "b"] ≤ Spec.bound ∧
    "a" ∉ Runs.window 1 2 values.
Proof.
  exists ["a"; "b"; "b"]. eexists. split; [vm_compute; reflexivity|].
  split; [reflexivity|]. split; [vm_compute; lia|].
  unfold Runs.window. cbn. intros Hin.
  repeat (apply elem_of_cons in Hin as [Heq|Hin]; [discriminate Heq|]).
  by apply elem_of_nil in Hin.
Qed.

(** ** Overrides *)

Lemma merge_field_spec (pools : gmap string (list string))
    (custom_shift : gmap string json) field g text g' :
  GeneratorCustom.merge_field pools custom_shift field g = Ok (text, g') →
  (∀ override, Overrides.supplied custom_shift field override →
     text = override ∧ g' = g) ∧
  (Overrides.not_supplied custom_shift field →
     ∃ pool, pools !! field = Some pool ∧
             pool !! (hd 0 g mod length pool) = Some text ∧ g' = tl g) ∧
  Overrides.text_or_absent custom_shift field.
Proof.
  unfold GeneratorCustom.merge_field, Overrides.supplied,
    Overrides.not_supplied, Overrides.text_or_absent.
  intros Hrun.
  assert (Hsample : (let! pool := getitem pools field in choice pool) g
                    = Ok (text, g') →
                    ∃ pool, pools !! field = Some pool ∧
                            pool !! (hd 0 g mod length pool) = Some text ∧
                            g' = tl g).
  { intros (pool & g1 & [Hpool ->]%getitem_inv & Hc)%bind_inv.
    exists pool. split; [done|]. by apply choice_inv in Hc. }
  destruct (custom_shift !! field) as [[| | | |t| |]|]; try done.
  - destruct (truthy (strip t)) eqn:Htruthy.
    + unfold ret in Hrun. injection Hrun as <- <-.
      split; [intros override [Heq _]; by injection Heq as <-|]. done.
    + split; [intros override [Heq Ht]; injection Heq as <-; congruence|].
      split; [intros _; by apply Hsample | done].
  - split; [by intros override [? _]|].
    split; [intros _; by apply Hsample | done].
Qed.

Lemma merge_field_resolved (pools : gmap string (list string))
    (custom_shift : gmap string json) field g text g' :
  GeneratorCustom.merge_field pools custom_shift field g = Ok (text, g') →
  (∀ override, Overrides.supplied custom_shift field override →
     text = override) ∧
  (Overrides.not_supplied custom_shift field →
     ∃ pool, pools !! field = Some pool ∧ text ∈ pool).
Proof.
  intros (Hsup & Hnot & _)%merge_field_spec. split.
  - intros override Ho. by destruct (Hsup override Ho).
  - intros Hn. destruct (Hnot Hn) as (pool & Hpool & Hin & _).
    exists pool. split; [done|]. by eapply list_elem_of_lookup_2.
Qed.

(** A field resolves when its override is a text or absent and its pool is
    there and not empty; a value that is no text has no [strip]. *)
Lemma merge_field_returns (pools : gmap string (list string))
    (custom_shift : gmap string json) field g :
  (∃ pool, pools !! field = Some pool ∧ pool ≠ []) →
  Overrides.text_or_absent custom_shift field →
  ∃ text g', GeneratorCustom.merge_field pools custom_shift field g
               = Ok (text, g').
Proof.
  intros (pool & Hpool & Hne). unfold GeneratorCustom.merge_field,
    Overrides.text_or_absent.
  destruct (choice_Ok pool g Hne) as (x & _ & Hc).
  assert (Hsample : (let! pool := getitem pools field in choice pool) g
                    = Ok (x, tl g)).
  { by rewrite (bind_Ok _ _ _ _ _ (getitem_Ok _ _ _ _ Hpool)). }
  destruct (custom_shift !! field) as [[| | | |t| |]|]; try done; [|by eauto].
  intros _. destruct (truthy (strip t)); [unfold ret|]; eauto.
Qed.

Lemma merge_field_raises (pools : gmap string (list string))
    (custom_shift : gmap string json) field g :
  ¬ Overrides.text_or_absent custom_shift field →
  GeneratorCustom.merge_field pools custom_shift field g
    = Raise AttributeError.
Proof.
  unfold GeneratorCustom.merge_field, Overrides.text_or_absent.
  by destruct (custom_shift !! field) as [[| | | |t| |]|].
Qed.

Lemma text_or_absent_dec (custom_shift : gmap string json) field :
  Overrides.text_or_absent custom_shift field ∨
  ¬ Overrides.text_or_absent custom_shift field.
Proof.
  unfold Overrides.text_or_absent.
  destruct (custom_shift !! field) as [[| | | |t| |]|]; auto.
Qed.

Lemma prepared_text_inv content kind g standard g' :
  Generator.prepared_text content kind g = Ok (standard, g') →
  (∃ table, Generator.entries content !! "prepared_service" = Some table ∧
            subscript table kind = Ok standard) ∧ g' = g.
Proof.
  unfold Generator.prepared_text.
  intros (table & g1 & [Ht ->]%getitem_inv & [Hs ->]%lift_inv)%bind_inv.
  eauto.
Qed.

Lemma prepared_text_reads content kind table standard g :
  Generator.entries content !! "prepared_service" = Some table →
  subscript table kind = Ok standard →
  Generator.prepared_text content kind g = Ok (standard, g).
Proof.
  intros Htable Hstd. unfold Generator.prepared_text.
  rewrite (bind_Ok _ _ _ _ _ (getitem_Ok _ _ _ _ Htable)). by rewrite Hstd.
Qed.

Lemma narrative_field_category field get :
  (field, get) ∈ Overrides.narrative_fields → field ∈ Runs.categories.
Proof.
  unfold Overrides.narrative_fields, Runs.categories. intros Hin.
  repeat (apply elem_of_cons in Hin as [[= -> ->]|Hin]; [in_list|]).
  by apply elem_of_nil in Hin.
Qed.

Lemma merge_custom_data_spec content custom_shift shift_type g data g' :
  GeneratorCustom.merge_custom_data content custom_shift shift_type g
    = Ok (data, g') →
  (∃ table standard,
     Generator.entries content !! "prepared_service" = Some table ∧
     subscript table shift_type = Ok standard ∧
     GeneratorCustom.d_prepared_service data
       = default standard (custom_shift !! "prepared_service")) ∧
  (∀ field get, (field, get) ∈ Overrides.narrative_fields →
     (∀ override, Overrides.supplied custom_shift field override →
        get data = override) ∧
     (Overrides.not_supplied custom_shift field →
        ∃ pool, Generator.pools content !! field = Some pool ∧ get data ∈ pool)) ∧
  Overrides.typed_in custom_shift.
Proof.
  intros Hrun. unfold GeneratorCustom.merge_custom_data in Hrun.
  apply bind_inv in Hrun
    as (standard & g0 & [(table & Htable & Hstd) ->]%prepared_text_inv & Hrun).
  apply bind_inv in Hrun as (sr & g1 & H1 & Hrun).
  apply bind_inv in Hrun as (fd & g2 & H2 & Hrun).
  apply bind_inv in Hrun as (co & g3 & H3 & Hrun).
  apply bind_inv in Hrun as (de & g4 & H4 & Hrun).
  unfold ret in Hrun. injection Hrun as <- _.
  split; [by eauto|]. split.
  - apply merge_field_resolved in H1, H2, H3, H4.
    intros field get Hin. unfold Overrides.narrative_fields in Hin.
    repeat (apply elem_of_cons in Hin as [[= -> ->]|Hin]; [cbn; assumption|]).
    by apply elem_of_nil in Hin.
  - apply merge_field_spec in H1 as (_ & _ & H1).
    apply merge_field_spec in H2 as (_ & _ & H2).
    apply merge_field_spec in H3 as (_ & _ & H3).
    apply merge_field_spec in H4 as (_ & _ & H4).
    intros field Hin. unfold Runs.categories in Hin.
    repeat (apply elem_of_cons in Hin as [->|Hin]; [assumption|]).
    by apply elem_of_nil in Hin.
Qed.

Lemma merge_custom_data_returns content custom_shift shift_type g :
  (∃ table standard,
     Generator.entries content !! "prepared_service" = Some table ∧
     subscript table shift_type = Ok standard) →
  Runs.pools_in_place content →
  Overrides.typed_in custom_shift →
  ∃ data g',
    GeneratorCustom.merge_custom_data content custom_shift shift_type g
      = Ok (data, g').
Proof.
  intros (table & standard & Htable & Hstd) Hpools Htyped.
  unfold GeneratorCustom.merge_custom_data.
  rewrite (bind_Ok _ _ _ _ _ (prepared_text_reads _ _ _ _ _ Htable Hstd)).
  unfold Runs.pools_in_place, Overrides.typed_in, Runs.categories in *.
  destruct (merge_field_returns (Generator.pools content) custom_shift
              "special_requests" g) as (sr & g1 & H1);
    [apply Hpools; in_list | apply Htyped; in_list |].
  rewrite (bind_Ok _ _ _ _ _ H1).
  destruct (merge_field_returns (Generator.pools content) custom_shift
              "food_details" g1) as (fd & g2 & H2);
    [apply Hpools; in_list | apply Htyped; in_list |].
  rewrite (bind_Ok _ _ _ _ _ H2).
  destruct (merge_field_returns (Generator.pools content) custom_shift
              "complaints" g2) as (co & g3 & H3);
    [apply Hpools; in_list | apply Htyped; in_list |].
  rewrite (bind_Ok _ _ _ _ _ H3).
  destruct (merge_field_returns (Generator.pools content) custom_shift
              "debrief" g3) as (de & g4 & H4);
    [apply Hpools; in_list | apply Htyped; in_list |].
  rewrite (bind_Ok _ _ _ _ _ H4).
  unfold ret. eauto.
Qed.

(** A narrative field whose value is no text ([NaN], [None], a number):
    the record cannot be merged. *)
Lemma merge_custom_data_raises content custom_shift shift_type g :
  (∃ table standard,
     Generator.entries content !! "prepared_service" = Some table ∧
     subscript table shift_type = Ok standard) →
  Runs.pools_in_place content →
  ¬ Overrides.typed_in custom_shift →
  GeneratorCustom.merge_custom_data content custom_shift shift_type g
    = Raise AttributeError.
Proof.
  intros (table & standard & Htable & Hstd) Hpools Huntyped.
  unfold GeneratorCustom.merge_custom_data.
  rewrite (bind_Ok _ _ _ _ _ (prepared_text_reads _ _ _ _ _ Htable Hstd)).
  unfold Runs.pools_in_place, Runs.categories in Hpools.
  destruct (text_or_absent_dec custom_shift "special_requests") as [T1|T1];
    [|by apply bind_raise, merge_field_raises].
  destruct (merge_field_returns (Generator.pools content) custom_shift
              "special_requests" g ltac:(apply Hpools; in_list) T1)
    as (sr & g1 & H1).
  rewrite (bind_Ok _ _ _ _ _ H1).
  destruct (text_or_absent_dec custom_shift "food_details") as [T2|T2];
    [|by apply bind_raise, merge_field_raises].
  destruct (merge_field_returns (Generator.pools content) custom_shift
              "food_details" g1 ltac:(apply Hpools; in_list) T2)
    as (fd & g2 & H2).
  rewrite (bind_Ok _ _ _ _ _ H2).
  destruct (text_or_absent_dec custom_shift "complaints") as [T3|T3];
    [|by apply bind_raise, merge_field_raises].
  destruct (merge_field_returns (Generator.pools content) custom_shift
              "complaints" g2 ltac:(apply Hpools; in_list) T3)
    as (co & g3 & H3).
  rewrite (bind_Ok _ _ _ _ _ H3).
  destruct (text_or_absent_dec custom_shift "debrief") as [T4|T4];
    [|by apply bind_raise, merge_field_raises].
  exfalso. apply Huntyped. intros field Hin. unfold Runs.categories in Hin.
  repeat (apply elem_of_cons in Hin as [->|Hin]; [assumption|]).
  by apply elem_of_nil in Hin.
Qed.

(** ** Filling the cells of a row *)

Lemma fill_cell_spec (pools : gmap string (list string)) (row : gmap string Frame.cell)
    col key (filled : gmap string Frame.cell) g filled' g' :
  Frame.fill_cell pools row col key filled g = Ok (filled', g') →
  ∃ v, row !! col = Some v ∧
    if Frame.is_blank v then
      ∃ pool text, pools !! key = Some pool ∧ text ∈ pool ∧
                   filled' = <[col := Some text]> filled ∧ g' = tl g
    else filled' = filled ∧ g' = g.
Proof.
  intros Hrun. unfold Frame.fill_cell in Hrun.
  apply bind_inv in Hrun as (v & g1 & [Hv ->]%getitem_inv & Hrun).
  exists v. split; [done|].
  destruct (Frame.is_blank v).
  - apply bind_inv in Hrun as (pool & g1 & [Hpool ->]%getitem_inv & Hrun).
    apply bind_inv in Hrun as (text & g1 & Hc & Hrun).
    unfold ret in Hrun. injection Hrun as <- <-.
    exists pool, text. split; [done|]. split; [by eapply choice_elem_of|].
    split; [done|]. by apply choice_inv in Hc as [_ ->].
  - unfold ret in Hrun. by injection Hrun as <- <-.
Qed.

Lemma fill_cell_returns (pools : gmap string (list string)) (row : gmap string Frame.cell)
    col key (filled : gmap string Frame.cell) g :
  is_Some (row !! col) →
  (∃ pool, pools !! key = Some pool ∧ pool ≠ []) →
  ∃ filled' g', Frame.fill_cell pools row col key filled g = Ok (filled', g').
Proof.
  intros [v Hv] (pool & Hpool & Hne). unfold Frame.fill_cell.
  rewrite (bind_Ok _ _ _ _ _ (getitem_Ok _ _ _ _ Hv)).
  destruct (Frame.is_blank v); [|unfold ret; by eauto].
  rewrite (bind_Ok _ _ _ _ _ (getitem_Ok _ _ _ _ Hpool)).
  destruct (choice_Ok pool g Hne) as (x & _ & Hc).
  rewrite (bind_Ok _ _ _ _ _ Hc). unfold ret. eauto.
Qed.

(** Over columns that are pairwise different, each column is resolved on
    its own: a blank cell gets an entry of its pool, any other cell and
    any other column keeps what the row being written held. *)
Lemma fill_cells_spec (pools : gmap string (list string)) (row : gmap string Frame.cell)
    fields :
  ∀ (filled : gmap string Frame.cell) g filled' g',
    NoDup fields.*1 →
    Frame.fill_cells pools row fields filled g = Ok (filled', g') →
    (∀ col, col ∉ fields.*1 → filled' !! col = filled !! col) ∧
    (∀ col key, (col, key) ∈ fields →
       ∃ v, row !! col = Some v ∧
         if Frame.is_blank v then
           ∃ pool text, pools !! key = Some pool ∧ text ∈ pool ∧
                        filled' !! col = Some (Some text)
         else filled' !! col = filled !! col).
Proof.
  induction fields as [|[col0 key0] fields IH]; intros filled g filled' g' Hnd Hrun.
  - cbn in Hrun. unfold ret in Hrun. injection Hrun as <- _.
    split; [done|]. intros col key Hin. by apply elem_of_nil in Hin.
  - cbn [Frame.fill_cells] in Hrun.
    apply bind_inv in Hrun as (filled1 & g1 & Hcell & Hrest).
    cbn in Hnd. apply NoDup_cons in Hnd as [Hfresh Hnd].
    destruct (IH _ _ _ _ Hnd Hrest) as [Hother Hfields].
    apply fill_cell_spec in Hcell as (v0 & Hv0 & Hcell).
    assert (Hkeep : ∀ col, col ≠ col0 → filled1 !! col = filled !! col).
    { intros col Hne. destruct (Frame.is_blank v0).
      - destruct Hcell as (pool & text & _ & _ & -> & _).
        by rewrite lookup_insert_ne.
      - by destruct Hcell as [-> _]. }
    split.
    + intros col Hcol. cbn in Hcol. apply not_elem_of_cons in Hcol as [Hne Hcol].
      etrans; [apply (Hother col Hcol) | by apply Hkeep].
    + intros col key [[= -> ->]|Hin]%elem_of_cons.
      * exists v0. split; [done|].
        destruct (Frame.is_blank v0).
        -- destruct Hcell as (pool & text & Hpool & Hin & -> & _).
           exists pool, text. split; [done|]. split; [done|].
           etrans; [apply (Hother col0 Hfresh) | apply lookup_insert_eq].
        -- destruct Hcell as [-> _]. apply (Hother col0 Hfresh).
      * destruct (Hfields col key Hin) as (v & Hv & Hres).
        exists v. split; [done|].
        assert (Hne : col ≠ col0).
        { intros ->. apply Hfresh. apply list_elem_of_fmap.
          by exists (col0, key). }
        destruct (Frame.is_blank v); [done|].
        etrans; [exact Hres | by apply Hkeep].
Qed.

Lemma fill_cells_returns (pools : gmap string (list string)) (row : gmap string Frame.cell)
    fields :
  (∀ col key, (col, key) ∈ fields →
     is_Some (row !! col) ∧ ∃ pool, pools !! key = Some pool ∧ pool ≠ []) →
  ∀ (filled : gmap string Frame.cell) g,
    ∃ filled' g', Frame.fill_cells pools row fields filled g = Ok (filled', g').
Proof.
  induction fields as [|[col0 key0] fields IH]; intros Hok filled g.
  - cbn. unfold ret. eauto.
  - destruct (Hok col0 key0 ltac:(left)) as [Hcol Hpool].
    destruct (fill_cell_returns pools row col0 key0 filled g Hcol Hpool)
      as (filled1 & g1 & Hcell).
    destruct (IH (λ c k Hin, Hok c k ltac:(by right)) filled1 g1)
      as (filled' & g' & Hrest).
    exists filled', g'. cbn [Frame.fill_cells].
    by rewrite (bind_Ok _ _ _ _ _ Hcell).
Qed.

Lemma csv_content_fields_distinct : NoDup CsvProcessor.content_fields.*1.
Proof. apply (bool_decide_unpack _). vm_compute. exact I. Qed.

Lemma csv_fill_row_spec (pools : gmap string (list string))
    (row : gmap string Frame.cell) g (row' : gmap string Frame.cell) g' :
  CsvProcessor.fill_row pools row g = Ok (row', g') →
  ∀ col key, (col, key) ∈ CsvProcessor.content_fields →
    ∃ v, row !! col = Some v ∧
      if Frame.is_blank v then
        ∃ pool text, pools !! key = Some pool ∧ text ∈ pool ∧
                     row' !! col = Some (Some text)
      else row' !! col = Some v.
Proof.
  intros Hrun col key Hin. unfold CsvProcessor.fill_row in Hrun.
  destruct (fill_cells_spec _ _ _ _ _ _ _ csv_content_fields_distinct Hrun)
    as [_ Hfields].
  destruct (Hfields col key Hin) as (v & Hv & Hres).
  exists v. split; [done|]. destruct (Frame.is_blank v); [done|].
  etrans; [exact Hres | exact Hv].
Qed.

(** C2, as the code has it.  Custom records whose narrative values are
    texts: each of the four narrative fields of the loop of
    [merge_custom_data] equals the override verbatim when the override is
    present and not blank after trimming the white space of [str.strip],
    and is an entry of the pool of the field when the override is absent or
    blank after trimming; [prepared_service] is the override whenever the
    key is present, blank or not, and the fixed text of the kind of shift
    otherwise.  Sheets: a cell that is neither missing nor the empty string
    is kept verbatim, without trimming, and any other cell gets an entry of
    the pool of its column.  Both return normally when the pools they read
    are in place and not empty. *)
Theorem override_precedence :
  (∀ content custom_shift shift_type g data g',
     GeneratorCustom.merge_custom_data content custom_shift shift_type g
       = Ok (data, g') →
     (∃ table standard,
        Generator.entries content !! "prepared_service" = Some table ∧
        subscript table shift_type = Ok standard ∧
        GeneratorCustom.d_prepared_service data
          = default standard (custom_shift !! "prepared_service")) ∧
     (∀ field get, (field, get) ∈ Overrides.narrative_fields →
        (∀ override, Overrides.supplied custom_shift field override →
           get data = override) ∧
        (Overrides.not_supplied custom_shift field →
           ∃ pool, Generator.pools content !! field = Some pool ∧
                   get data ∈ pool)) ∧
     Overrides.typed_in custom_shift) ∧
  (∀ content custom_shift shift_type g,
     (∃ table standard,
        Generator.entries content !! "prepared_service" = Some table ∧
        subscript table shift_type = Ok standard) →
     Runs.pools_in_place content →
     Overrides.typed_in custom_shift →
     ∃ data g',
       GeneratorCustom.merge_custom_data content custom_shift shift_type g
         = Ok (data, g')) ∧
  (∀ (pools : gmap string (list string)) (row row' : gmap string Frame.cell) g g',
     CsvProcessor.fill_row pools row g = Ok (row', g') →
     ∀ col key, (col, key) ∈ CsvProcessor.content_fields →
       ∃ v, row !! col = Some v ∧
         if Frame.is_blank v then
           ∃ pool text, pools !! key = Some pool ∧ text ∈ pool ∧
                        row' !! col = Some (Some text)
         else row' !! col = Some v) ∧
  (∀ (pools : gmap string (list string)) (row : gmap string Frame.cell) g,
     (∀ col key, (col, key) ∈ CsvProcessor.content_fields →
        is_Some (row !! col) ∧ ∃ pool, pools !! key = Some pool ∧ pool ≠ []) →
     ∃ row' g', CsvProcessor.fill_row pools row g = Ok (row', g')).
Proof.
  split; [|split; [|split]].
  - apply merge_custom_data_spec.
  - apply merge_custom_data_returns.
  - intros pools row row' g g'. apply csv_fill_row_spec.
  - intros pools row g Hok. by apply fill_cells_returns.
Qed.

Lemma sample_pools_in_place : Runs.pools_in_place Runs.sample_content.
Proof.
  intros c Hc. unfold Runs.categories in Hc.
  repeat (apply elem_of_cons in Hc as [->|Hc]; [by eexists|]).
  by apply elem_of_nil in Hc.
Qed.

Lemma sample_prepared_text kind :
  kind ∈ Runs.daily_kinds →
  ∃ table standard,
    Generator.entries Runs.sample_content !! "prepared_service" = Some table ∧
    subscript table kind = Ok standard.
Proof.
  intros Hk. unfold Runs.daily_kinds in Hk.
  repeat (apply elem_of_cons in Hk as [->|Hk]; [by eexists _, _|]).
  by apply elem_of_nil in Hk.
Qed.

(** C2 on a record: a [debrief] of one no-break space is blank after
    trimming and resolved from the pool; the text of [complaints], between
    an ideographic space and a line feed, is kept as it is. *)
Lemma override_precedence_witness :
  ∃ data g',
    GeneratorCustom.merge_custom_data Runs.sample_content
      Overrides.custom_wide_spaces "lunch" [1; 0; 1] = Ok (data, g') ∧
    GeneratorCustom.d_debrief data ∈ ["a"; "b"] ∧
    strip Overrides.no_break_space = "" ∧
    GeneratorCustom.d_complaints data = Overrides.spaced_text.
Proof.
  assert (Htyped : Overrides.typed_in Overrides.custom_wide_spaces).
  { intros field Hin. unfold Runs.categories in Hin.
    repeat (apply elem_of_cons in Hin as [->|Hin]; [exact I|]).
    by apply elem_of_nil in Hin. }
  destruct (proj1 (proj2 override_precedence) Runs.sample_content
              Overrides.custom_wide_spaces "lunch" [1; 0; 1]
              (sample_prepared_text "lunch" ltac:(in_list))
              sample_pools_in_place Htyped) as (data & g' & Hrun).
  exists data, g'. split; [exact Hrun|].
  destruct (proj1 override_precedence _ _ _ _ _ _ Hrun) as (_ & Hfields & _).
  split.
  - destruct (proj2 (Hfields "debrief" GeneratorCustom.d_debrief
                       ltac:(unfold Overrides.narrative_fields; in_list)))
      as (pool & Hpool & Hin); [vm_compute; reflexivity|].
    assert (Hsample : Generator.pools Runs.sample_content !! "debrief"
                      = Some ["a"; "b"]) by reflexivity.
    rewrite Hsample in Hpool. by injection Hpool as <-.
  - split; [reflexivity|].
    apply (proj1 (Hfields "complaints" GeneratorCustom.d_complaints
                    ltac:(unfold Overrides.narrative_fields; in_list))).
    split; [reflexivity | vm_compute; reflexivity].
Defined.

(** C2, as stated, fails twice: a blank override of [prepared_service] is
    used as it is, and a cell of white space only is kept. *)
Lemma override_precedence_counterexample :
  (∃ data g',
     GeneratorCustom.merge_custom_data Runs.sample_content
       Overrides.custom_blank_prepared "lunch" [] = Ok (data, g') ∧
     Overrides.custom_blank_prepared !! "prepared_service" = Some (JStr "") ∧
     GeneratorCustom.d_prepared_service data = JStr "") ∧
  (∃ (row' : gmap string Frame.cell) g',
     CsvProcessor.fill_row CsvProcessor.default_content_pools
       Overrides.row_with_spaces [] = Ok (row', g') ∧
     strip "   " = "" ∧
     row' !! "food_details" = Some (Some "   ")).
Proof.
  split.
  - assert (Hrun : match GeneratorCustom.merge_custom_data Runs.sample_content
                           Overrides.custom_blank_prepared "lunch" [] with
                   | Ok (data, _) =>
                       GeneratorCustom.d_prepared_service data = JStr ""
                   | Raise _ => False
                   end) by (vm_compute; reflexivity).
    destruct (GeneratorCustom.merge_custom_data _ _ _ _) as [[data g']|e];
      [|done].
    exists data, g'. split; [reflexivity|]. split; [reflexivity|exact Hrun].
  - assert (Hrun : match CsvProcessor.fill_row
                           CsvProcessor.default_content_pools
                           Overrides.row_with_spaces [] with
                   | Ok (row', _) => row' !! "food_details" = Some (Some "   ")
                   | Raise _ => False
                   end) by (vm_compute; reflexivity).
    destruct (CsvProcessor.fill_row _ _ _) as [[row' g']|e]; [|done].
    exists row', g'. split; [reflexivity|]. split; [reflexivity|exact Hrun].
Qed.

(** ** The summary report *)

Lemma for_rows_Forall2 (body : gmap string Frame.cell → M (gmap string Frame.cell))
    df g filled g' :
  Frame.for_rows body df g = Ok (filled, g') →
  Forall2 (λ row row', ∃ g0 g1, body row g0 = Ok (row', g1)) df filled.
Proof.
  intros Hrun. unfold Frame.for_rows in Hrun.
  apply bind_inv in Hrun as ([rows u] & g1 & Hrun & Hret).
  unfold ret in Hret. injection Hret as -> ->.
  apply for_each_Forall2 in Hrun.
  eapply Forall2_impl; [exact Hrun|].
  intros row row' (st0 & g0 & st1 & g2 & Hbody).
  apply bind_inv in Hbody as (r & g3 & Hb & Hret).
  unfold ret in Hret. injection Hret as <- _ _. eauto.
Qed.

Lemma for_rows_returns (body : gmap string Frame.cell → M (gmap string Frame.cell)) df :
  (∀ row g, row ∈ df → ∃ row' g', body row g = Ok (row', g')) →
  ∀ g, ∃ filled g', Frame.for_rows body df g = Ok (filled, g').
Proof.
  intros Hbody g.
  destruct (for_each_returns (λ _ : unit, True)
              (λ row (_ : unit), let! filled := body row in ret (filled, ())) df)
    with (st := ()) (g := g) as (rows & st' & g' & Hrun & _); [|done|].
  - intros row [] g0 Hin _.
    destruct (Hbody row g0 Hin) as (row' & g1 & Hb).
    exists row', (), g1. by rewrite (bind_Ok _ _ _ _ _ Hb).
  - exists rows, g'. unfold Frame.for_rows.
    by rewrite (bind_Ok _ _ _ _ _ Hrun).
Qed.

Lemma any_in_pool_spec (pools : gmap string (list string))
    (row : gmap string Frame.cell) fields :
  (∀ col key, (col, key) ∈ fields → is_Some (row !! col)) →
  CsvProcessor.any_in_pool pools row fields
    = Ok (existsb (λ f, Frame.cell_in (default None (row !! f.1))
                          (default [] (pools !! f.2))) fields).
Proof.
  induction fields as [|[col key] fields IH]; intros Hcols; [done|].
  cbn [CsvProcessor.any_in_pool existsb].
  destruct (Hcols col key ltac:(left)) as [v Hv]. cbn [fst snd].
  rewrite !Hv. cbn [default from_option id].
  destruct (Frame.cell_in v _); [done|]. cbn [orb].
  apply IH. intros c k Hin. apply (Hcols c k). by right.
Qed.

Lemma count_rows_spec (pools : gmap string (list string)) df :
  (∀ row, row ∈ df → Overrides.has_columns row) →
  ∀ m a,
    CsvProcessor.count_rows pools df m a
      = Ok (m + length (filter (λ r, Overrides.in_pool_row pools r = false) df),
            a + length (filter (λ r, Overrides.in_pool_row pools r = true) df)).
Proof.
  induction df as [|row df IH]; intros Hcols m a.
  - cbn. by rewrite !Nat.add_0_r.
  - cbn [CsvProcessor.count_rows].
    rewrite any_in_pool_spec by (apply (Hcols row); left).
    fold (Overrides.in_pool_row pools row).
    rewrite !filter_cons.
    destruct (Overrides.in_pool_row pools row) eqn:Hrow.
    + rewrite IH by (intros r Hr; apply Hcols; by right).
      rewrite decide_False by done. rewrite decide_True by done.
      cbn [length]. do 2 f_equal. lia.
    + rewrite IH by (intros r Hr; apply Hcols; by right).
      rewrite decide_True by done. rewrite decide_False by done.
      cbn [length]. do 2 f_equal. lia.
Qed.

Lemma count_kind_returns kind (df : list (gmap string Frame.cell)) :
  (∀ row, row ∈ df → is_Some (row !! "shift_type")) →
  ∃ n, CsvProcessor.count_kind kind df = Ok n.
Proof.
  induction df as [|row df IH]; intros Hcols; [by eexists|].
  cbn [CsvProcessor.count_kind].
  destruct (Hcols row ltac:(left)) as [v Hv]. rewrite Hv.
  destruct IH as [n Hn]; [intros r Hr; apply Hcols; by right|].
  rewrite Hn. eauto.
Qed.

Lemma existsb_ext_in {A} (f h : A → bool) (l : list A) :
  (∀ x, x ∈ l → f x = h x) → existsb f l = existsb h l.
Proof.
  induction l as [|x l IH]; intros Hext; [done|]. cbn.
  rewrite (Hext x) by left. rewrite IH; [done|].
  intros y Hy. apply Hext. by right.
Qed.

Lemma existsb_mono_in {A} (f h : A → bool) (l : list A) :
  (∀ x, x ∈ l → f x = true → h x = true) →
  existsb f l = true → existsb h l = true.
Proof.
  intros Himp (x & Hx & Hf)%existsb_exists. apply existsb_exists.
  exists x. split; [done|]. apply Himp; [by apply list_elem_of_In | done].
Qed.

Lemma shift_type_not_content : "shift_type" ∉ CsvProcessor.content_fields.*1.
Proof. apply (bool_decide_unpack _). vm_compute. exact I. Qed.

(** What the summary sees of a filled row, against how the row was
    filled. *)
Lemma filled_row_in_pool (pools : gmap string (list string))
    (row : gmap string Frame.cell) g (row' : gmap string Frame.cell) g' :
  CsvProcessor.fill_row pools row g = Ok (row', g') →
  (is_Some (row !! "shift_type") → Overrides.has_columns row') ∧
  (Overrides.has_sampled row = true → Overrides.in_pool_row pools row' = true) ∧
  (Overrides.no_coincidence pools row →
   Overrides.in_pool_row pools row' = Overrides.has_sampled row).
Proof.
  intros Hrun.
  pose proof (csv_fill_row_spec _ _ _ _ _ Hrun) as Hfields.
  unfold CsvProcessor.fill_row in Hrun.
  destruct (fill_cells_spec _ _ _ _ _ _ _ csv_content_fields_distinct Hrun)
    as [Hother _].
  assert (Hpoint : ∀ f, f ∈ CsvProcessor.content_fields →
            (Overrides.sampled row f.1 = true →
             Frame.cell_in (default None (row' !! f.1))
               (default [] (pools !! f.2)) = true) ∧
            (Overrides.no_coincidence pools row →
             Frame.cell_in (default None (row' !! f.1))
               (default [] (pools !! f.2)) = Overrides.sampled row f.1)).
  { intros [col key] Hin. cbn [fst snd].
    destruct (Hfields col key Hin) as (v & Hv & Hres).
    unfold Overrides.sampled. rewrite Hv.
    destruct (Frame.is_blank v) eqn:Hblank.
    - destruct Hres as (pool & text & Hpool & Htext & ->). rewrite Hpool. cbn.
      split; intros _; by apply bool_decide_eq_true.
    - rewrite Hres. cbn. split; [done|]. intros Hno.
      destruct v as [text|]; [|done]. cbn in Hblank |- *.
      apply bool_decide_eq_false. eapply Hno; [done..|].
      by apply bool_decide_eq_false in Hblank. }
  split; [|split].
  - intros Htype. split.
    + by rewrite (Hother _ shift_type_not_content).
    + intros col key Hin. destruct (Hfields col key Hin) as (v & Hv & Hres).
      destruct (Frame.is_blank v).
      * destruct Hres as (pool & text & _ & _ & ->). by eexists.
      * rewrite Hres. by eexists.
  - unfold Overrides.has_sampled, Overrides.in_pool_row.
    apply existsb_mono_in. intros f Hf. by apply Hpoint.
  - intros Hno. unfold Overrides.has_sampled, Overrides.in_pool_row.
    apply existsb_ext_in. intros f Hf. by apply Hpoint.
Qed.

Lemma Forall2_filter_length {A B} (R : A → B → Prop) (q : A → bool)
    (q' : B → bool) (b : bool) l l' :
  Forall2 R l l' →
  (∀ x y, R x y → q' y = q x) →
  length (filter (λ y, q' y = b) l') = length (filter (λ x, q x = b) l).
Proof.
  intros Hall Hq. induction Hall as [|x y l l' Hxy _ IH]; [done|].
  rewrite !filter_cons, (Hq x y Hxy).
  destruct (decide (q x = b)); cbn; by rewrite IH.
Qed.

Lemma Forall2_filter_length_le {A B} (R : A → B → Prop) (q : A → bool)
    (q' : B → bool) l l' :
  Forall2 R l l' →
  (∀ x y, R x y → q x = true → q' y = true) →
  length (filter (λ x, q x = true) l) ≤ length (filter (λ y, q' y = true) l').
Proof.
  intros Hall Hq. induction Hall as [|x y l l' Hxy _ IH]; [done|].
  rewrite !filter_cons.
  destruct (decide (q x = true)) as [Hx|Hx].
  - rewrite decide_True by by eapply Hq. cbn. lia.
  - destruct (decide (q' y = true)); cbn; lia.
Qed.

Lemma filter_bool_length {A} (q : A → bool) (l : list A) :
  length (filter (λ x, q x = false) l) + length (filter (λ x, q x = true) l)
    = length l.
Proof.
  induction l as [|x l IH]; [done|]. rewrite !filter_cons.
  destruct (q x); cbn.
  - rewrite decide_False by done. rewrite decide_True by done. cbn. lia.
  - rewrite decide_True by done. rewrite decide_False by done. cbn. lia.
Qed.

(** C5, as the code has it.  The report counts rows, not fields, and it
    keeps no flag: a row counts as completed automatically when at least
    one of its five narrative cells equals a candidate of the pool of its
    column, and as filled by hand otherwise.  On a frame with the columns
    the processor reads and non-empty pools, filling and reporting return
    normally, the two counts add up to the number of rows, and every row
    with a field resolved from a pool counts as automatic; when no text
    supplied in the frame is a candidate of the pool of its column, the
    automatic rows are exactly the rows with such a field, and the rows
    filled by hand exactly those with all five fields supplied. *)
Theorem summary_counts_rows (pools : gmap string (list string))
    (df : list (gmap string Frame.cell)) g :
  (∀ row, row ∈ df → Overrides.has_columns row) →
  (∀ col key, (col, key) ∈ CsvProcessor.content_fields →
     ∃ pool, pools !! key = Some pool ∧ pool ≠ []) →
  ∃ filled g' s,
    CsvProcessor.fill_missing_data pools df g = Ok (filled, g') ∧
    CsvProcessor.generate_summary_report pools filled = Ok s ∧
    CsvProcessor.total s = length df ∧
    CsvProcessor.manual_count s + CsvProcessor.auto_count s = length df ∧
    CsvProcessor.auto_count s
      = length (filter (λ r, Overrides.in_pool_row pools r = true) filled) ∧
    length (filter (λ r, Overrides.has_sampled r = true) df)
      ≤ CsvProcessor.auto_count s ∧
    ((∀ row, row ∈ df → Overrides.no_coincidence pools row) →
     CsvProcessor.auto_count s
       = length (filter (λ r, Overrides.has_sampled r = true) df) ∧
     CsvProcessor.manual_count s
       = length (filter (λ r, Overrides.has_sampled r = false) df)).
Proof.
  intros Hcols Hpools.
  destruct (for_rows_returns (CsvProcessor.fill_row pools) df) with (g := g)
    as (filled & g' & Hfill).
  { intros row g0 Hrow. apply fill_cells_returns. intros col key Hin.
    split; [by eapply (proj2 (Hcols row Hrow)) | by eapply Hpools]. }
  pose proof (for_rows_Forall2 _ _ _ _ _ Hfill) as Hall.
  assert (Hall' : Forall2 (λ row row',
            row ∈ df ∧ ∃ g0 g1, CsvProcessor.fill_row pools row g0 = Ok (row', g1))
            df filled).
  { apply Forall2_same_length_lookup. split; [by eapply Forall2_length|].
    intros i row row' Hrow Hrow'. split; [by eapply list_elem_of_lookup_2|].
    by eapply (Forall2_lookup_lr _ _ _ _ _ _ Hall). }
  assert (Hfilled : ∀ row', row' ∈ filled → Overrides.has_columns row').
  { intros row' (i & Hi)%list_elem_of_lookup_1.
    destruct (Forall2_lookup_r _ _ _ _ _ Hall' Hi)
      as (row & Hrow & Hin & g0 & g1 & Hrun).
    apply (filled_row_in_pool _ _ _ _ _ Hrun). apply (proj1 (Hcols row Hin)). }
  destruct (count_kind_returns "lunch" filled) as [lunch Hlunch].
  { intros r Hr. apply (proj1 (Hfilled r Hr)). }
  destruct (count_kind_returns "dinner" filled) as [dinner Hdinner].
  { intros r Hr. apply (proj1 (Hfilled r Hr)). }
  pose proof (count_rows_spec pools filled Hfilled 0 0) as Hcount.
  pose proof (Forall2_length _ _ _ Hall) as Hlen.
  eexists filled, g', _. split; [exact Hfill|]. split.
  { unfold CsvProcessor.generate_summary_report.
    rewrite Hlunch, Hdinner, Hcount. reflexivity. }
  cbn [CsvProcessor.total CsvProcessor.manual_count CsvProcessor.auto_count].
  split; [done|]. split.
  { rewrite !Nat.add_0_l, Hlen.
    apply (filter_bool_length (Overrides.in_pool_row pools)). }
  split; [done|]. split.
  { rewrite Nat.add_0_l. eapply Forall2_filter_length_le; [exact Hall'|].
    intros row row' (_ & g0 & g1 & Hrun).
    apply (filled_row_in_pool _ _ _ _ _ Hrun). }
  intros Hno. rewrite !Nat.add_0_l.
  split; (eapply Forall2_filter_length; [exact Hall'|]);
    intros row row' (Hin & g0 & g1 & Hrun);
    apply (filled_row_in_pool _ _ _ _ _ Hrun); by apply Hno.
Qed.

Lemma sample_frame_columns :
  ∀ row, row ∈ [Overrides.row_manual; Overrides.row_empty] →
         Overrides.has_columns row.
Proof.
  intros row Hrow.
  repeat (apply elem_of_cons in Hrow as [->|Hrow];
          [split; [by eexists|];
           intros col key Hin; unfold CsvProcessor.content_fields in Hin;
           repeat (apply elem_of_cons in Hin as [[= -> ->]|Hin]; [by eexists|]);
           by apply elem_of_nil in Hin|]).
  by apply elem_of_nil in Hrow.
Qed.

Lemma default_pools_nonempty :
  ∀ col key, (col, key) ∈ CsvProcessor.content_fields →
    ∃ pool, CsvProcessor.default_content_pools !! key = Some pool ∧ pool ≠ [].
Proof.
  intros col key Hin. unfold CsvProcessor.content_fields in Hin.
  repeat (apply elem_of_cons in Hin as [[= -> ->]|Hin]; [by eexists|]).
  by apply elem_of_nil in Hin.
Qed.

Lemma summary_counts_rows_witness :
  ∃ filled g' s,
    CsvProcessor.fill_missing_data CsvProcessor.default_content_pools
      [Overrides.row_manual; Overrides.row_empty] [2; 0; 1] = Ok (filled, g') ∧
    CsvProcessor.generate_summary_report CsvProcessor.default_content_pools filled
      = Ok s ∧
    CsvProcessor.manual_count s + CsvProcessor.auto_count s = 2.
Proof.
  destruct (summary_counts_rows CsvProcessor.default_content_pools
              [Overrides.row_manual; Overrides.row_empty] [2; 0; 1]
              sample_frame_columns default_pools_nonempty)
    as (filled & g' & s & Hfill & Hsum & _ & Hadd & _).
  exists filled, g', s. split; [exact Hfill|]. split; [exact Hsum|exact Hadd].
Defined.

(** C5, as stated, fails.  A frame of two rows, one filled by hand in all
    five fields (one of the texts being a candidate of its pool), one with
    all five fields missing: five fields were resolved from the rows and
    five from the pools, and the report says 0 filled by hand and 2
    completed automatically. *)
Lemma summary_counts_counterexample :
  ∃ filled g' s,
    CsvProcessor.fill_missing_data CsvProcessor.default_content_pools
      [Overrides.row_manual; Overrides.row_empty] [] = Ok (filled, g') ∧
    CsvProcessor.generate_summary_report CsvProcessor.default_content_pools filled
      = Ok s ∧
    Overrides.count_fields Overrides.overridden
      [Overrides.row_manual; Overrides.row_empty] = 5 ∧
    Overrides.count_fields Overrides.sampled
      [Overrides.row_manual; Overrides.row_empty] = 5 ∧
    CsvProcessor.manual_count s = 0 ∧
    CsvProcessor.auto_count s = 2.
Proof.
  assert (Hrun : match CsvProcessor.fill_missing_data
                         CsvProcessor.default_content_pools
                         [Overrides.row_manual; Overrides.row_empty] [] with
                 | Ok (filled, _) =>
                     match CsvProcessor.generate_summary_report
                             CsvProcessor.default_content_pools filled with
                     | Ok s => CsvProcessor.manual_count s = 0 ∧
                               CsvProcessor.auto_count s = 2
                     | Raise _ => False
                     end
                 | Raise _ => False
                 end) by (vm_compute; split; reflexivity).
  destruct (CsvProcessor.fill_missing_data _ _ _) as [[filled g']|e]; [|done].
  destruct (CsvProcessor.generate_summary_report _ filled) as [s|e] eqn:Hs;
    [|done].
  exists filled, g', s. split; [reflexivity|]. split; [exact Hs|].
  split; [vm_compute; reflexivity|]. split; [vm_compute; reflexivity|].
  exact Hrun.
Qed.

(** ** Custom shifts and the usage histories *)

Lemma get_varied_content_draw (content : gmap string (list string)) ct
    (used : gmap string (list string)) g value used' g' :
  Generator.get_varied_content content ct used g = Ok ((value, used'), g') →
  g' = tl g ∧
  ∀ rest, Generator.get_varied_content content ct used (hd 0 g :: rest)
            = Ok ((value, used'), rest).
Proof.
  intros (pool & h & h' & Hpool & Hused & Hne & Hsel & -> & ->)%get_varied_content_inv.
  split; [done|]. intros rest.
  destruct (get_varied_content_select content ct used pool h (hd 0 g :: rest))
    as (v2 & h2 & Hsel2 & Hrun2); [done..|].
  cbn [hd tl] in Hsel2, Hrun2. rewrite Hsel in Hsel2.
  by injection Hsel2 as <- <-.
Qed.

Lemma for_each_ext {X S R} (body1 body2 : X → S → M (R * S)) xs :
  (∀ x st g, x ∈ xs → body1 x st g = body2 x st g) →
  ∀ st g, for_each body1 xs st g = for_each body2 xs st g.
Proof.
  induction xs as [|x xs IH]; intros Hext st g; [done|].
  cbn [for_each]. unfold bind at 1 3. rewrite (Hext x st g) by left.
  destruct (body2 x st g) as [[[r st1] g1]|e]; [|done].
  unfold bind. rewrite IH; [done|]. intros y st0 g0 Hy. apply Hext. by right.
Qed.

(** The times of a kind of shift are read without a draw. *)
Lemma timing_field_pure config kind field g v g' :
  Generator.timing_field config kind field g = Ok (v, g') →
  (∀ g0, Generator.timing_field config kind field g0 = Ok (v, g0)) ∧ g' = g.
Proof.
  unfold Generator.timing_field. intros Hrun.
  apply bind_inv in Hrun as (shifts & g1 & [Hs ->]%lift_inv & Hrun).
  apply bind_inv in Hrun as (timing & g1 & [Ht ->]%lift_inv & [Hv ->]%lift_inv).
  split; [|done]. intros g0.
  rewrite (lift_bind _ _ _ _ Hs), (lift_bind _ _ _ _ Ht). by rewrite Hv.
Qed.

(** A shift of the custom generator is its narrative data, resolved from
    the custom record or from the pools, put into a record whose other
    entries hang on the configuration and the index alone. *)
Lemma custom_shift_body_steps config content
    (custom : gmap nat (gmap string json)) start i used g shift used' g' :
  GeneratorCustom.shift_body config content custom start i used g
    = Ok ((shift, used'), g') →
  ∃ kind assemble data,
    Spec.alternation Runs.daily_kinds i = Some kind ∧
    shift = assemble data ∧
    (∀ data0, Generator.shift_number (assemble data0) = i + 1) ∧
    (match custom !! (i + 1) with
     | Some custom_shift =>
         let! data :=
           GeneratorCustom.merge_custom_data content custom_shift kind in
         ret (data, used)
     | None => GeneratorCustom.generate_automatic_data content kind used
     end) g = Ok ((data, used'), g') ∧
    ∀ used0 g0 data0 used1 g1,
      (match custom !! (i + 1) with
       | Some custom_shift =>
           let! data :=
             GeneratorCustom.merge_custom_data content custom_shift kind in
           ret (data, used0)
       | None => GeneratorCustom.generate_automatic_data content kind used0
       end) g0 = Ok ((data0, used1), g1) →
      GeneratorCustom.shift_body config content custom start i used0 g0
        = Ok ((assemble data0, used1), g1).
Proof.
  intros Hrun. unfold GeneratorCustom.shift_body in Hrun. cbn zeta in Hrun.
  apply bind_inv in Hrun as ([day kind] & g1 & [Hslot ->]%lift_inv & Hrun).
  apply bind_inv in Hrun as (est & g1 & [He ->]%lift_inv & Hrun).
  apply bind_inv in Hrun as (t1 & g1 & [Ht1 ->]%timing_field_pure & Hrun).
  apply bind_inv in Hrun as (t2 & g1 & [Ht2 ->]%timing_field_pure & Hrun).
  apply bind_inv in Hrun as (t3 & g1 & [Ht3 ->]%timing_field_pure & Hrun).
  apply bind_inv in Hrun as (menu & g1 & [Hm ->]%lift_inv & Hrun).
  apply bind_inv in Hrun as (wf & g1 & [Hw ->]%getitem_inv & Hrun).
  apply bind_inv in Hrun as ([data u] & g1 & Hdata & Hrun).
  unfold ret in Hrun. injection Hrun as <- <- <-.
  pose proof (shift_slot_inv _ _ _ _ Hslot) as (_ & Hkind & _).
  exists kind.
  eexists (λ data0, {| Generator.shift_number := i + 1;
                       Generator.workflow := wf |}), data.
  split; [exact Hkind|]. split; [reflexivity|]. split; [reflexivity|].
  split; [exact Hdata|].
  intros used0 g0 data0 used1 g2 Hdata0.
  unfold GeneratorCustom.shift_body. cbn zeta.
  rewrite (lift_bind _ _ _ _ Hslot). cbn beta iota.
  rewrite (lift_bind _ _ _ _ He).
  rewrite (bind_Ok _ _ _ _ _ (Ht1 _)), (bind_Ok _ _ _ _ _ (Ht2 _)),
    (bind_Ok _ _ _ _ _ (Ht3 _)).
  rewrite (lift_bind _ _ _ _ Hm).
  rewrite (bind_Ok _ _ _ _ _ (getitem_Ok _ _ _ _ Hw)).
  rewrite (bind_Ok _ _ _ _ _ Hdata0). reflexivity.
Qed.

(** A shift with a custom record leaves the usage histories as they are
    and does not look at them. *)
Lemma custom_shift_frame config content (custom : gmap nat (gmap string json))
    start i cs used g shift used' g' :
  custom !! (i + 1) = Some cs →
  GeneratorCustom.shift_body config content custom start i used g
    = Ok ((shift, used'), g') →
  used' = used ∧
  ∀ other, GeneratorCustom.shift_body config content custom start i other g
             = Ok ((shift, other), g').
Proof.
  intros Hcs Hrun.
  apply custom_shift_body_steps in Hrun
    as (kind & assemble & data & _ & -> & _ & Hdata & Hbody).
  rewrite Hcs in Hdata, Hbody.
  apply bind_inv in Hdata as (data' & g1 & Hmerge & Hret).
  unfold ret in Hret. injection Hret as <- <- <-.
  split; [done|]. intros other. apply Hbody.
  by rewrite (bind_Ok _ _ _ _ _ Hmerge).
Qed.

(** The narrative data of an automatic shift consume four draws and depend
    on the random source through them alone. *)
Lemma automatic_data_draws content kind used g data used' g' :
  GeneratorCustom.generate_automatic_data content kind used g
    = Ok ((data, used'), g') →
  ∀ rest, GeneratorCustom.generate_automatic_data content kind used
            (Runs.four_draws g ++ rest)%list = Ok ((data, used'), rest).
Proof.
  intros Hrun rest. unfold GeneratorCustom.generate_automatic_data in Hrun |- *.
  unfold GeneratorCustom.get_varied_content in *.
  apply bind_inv in Hrun
    as (prepared & g0 & [(table & Htable & Hstd) ->]%prepared_text_inv & Hrun).
  apply bind_inv in Hrun as ([v1 u1] & g1 & H1 & Hrun).
  apply bind_inv in Hrun as ([v2 u2] & g2 & H2 & Hrun).
  apply bind_inv in Hrun as ([v3 u3] & g3 & H3 & Hrun).
  apply bind_inv in Hrun as ([v4 u4] & g4 & H4 & Hrun).
  unfold ret in Hrun. injection Hrun as <- <- <-.
  apply get_varied_content_draw in H1 as [-> H1].
  apply get_varied_content_draw in H2 as [-> H2].
  apply get_varied_content_draw in H3 as [-> H3].
  apply get_varied_content_draw in H4 as [-> H4].
  rewrite (bind_Ok _ _ _ _ _ (prepared_text_reads _ _ _ _ _ Htable Hstd)).
  unfold Runs.four_draws. cbn [app].
  rewrite (bind_Ok _ _ _ _ _ (H1 _)). cbn beta iota.
  rewrite (bind_Ok _ _ _ _ _ (H2 _)). cbn beta iota.
  rewrite (bind_Ok _ _ _ _ _ (H3 _)). cbn beta iota.
  rewrite (bind_Ok _ _ _ _ _ (H4 _)). reflexivity.
Qed.

(** A shift without a custom record consumes four draws and depends on the
    random source through them alone. *)
Lemma auto_shift_draws config content (custom : gmap nat (gmap string json))
    start i used g shift used' g' :
  custom !! (i + 1) = None →
  GeneratorCustom.shift_body config content custom start i used g
    = Ok ((shift, used'), g') →
  ∀ rest, GeneratorCustom.shift_body config content custom start i used
            (Runs.four_draws g ++ rest)%list = Ok ((shift, used'), rest).
Proof.
  intros Hnone Hrun rest.
  apply custom_shift_body_steps in Hrun
    as (kind & assemble & data & _ & -> & _ & Hdata & Hbody).
  rewrite Hnone in Hdata, Hbody.
  apply Hbody. apply (automatic_data_draws _ _ _ _ _ _ _ Hdata).
Qed.

(** A blank or absent override is replaced by the entry of the full pool at
    the drawn position, whatever the usage histories hold. *)
Lemma merge_field_sample (pools : gmap string (list string))
    (custom_shift : gmap string json) field g text g' :
  GeneratorCustom.merge_field pools custom_shift field g = Ok (text, g') →
  Overrides.not_supplied custom_shift field →
  ∃ pool, pools !! field = Some pool ∧
          pool !! (hd 0 g mod length pool) = Some text ∧ g' = tl g.
Proof. intros (_ & Hnot & _)%merge_field_spec. exact Hnot. Qed.

Lemma custom_shift_number config content custom start i used g shift used' g' :
  GeneratorCustom.shift_body config content custom start i used g
    = Ok ((shift, used'), g') →
  Generator.shift_number shift = i + 1.
Proof.
  intros [Hslot _]%custom_shift_body_slot. unfold Runs.slot_of in Hslot.
  by injection Hslot.
Qed.

(** The histories after a mixture of shifts are those of its automatic
    shifts alone, run in the same order on the draws they consumed, and the
    records of the automatic shifts are the same. *)
Lemma mixture_histories config content (custom : gmap nat (gmap string json))
    start indices :
  ∀ used g shifts used' g',
    GeneratorCustom.shifts_loop config content custom start indices used g
      = Ok ((shifts, used'), g') →
    ∃ g_auto g_auto',
      GeneratorCustom.shifts_loop config content custom start
        (filter (λ i, custom !! (i + 1) = None) indices) used g_auto
      = Ok ((filter (λ s, custom !! Generator.shift_number s = None) shifts,
             used'), g_auto').
Proof.
  unfold GeneratorCustom.shifts_loop.
  induction indices as [|i indices IH]; intros used g shifts used' g' Hrun.
  - cbn in Hrun. unfold ret in Hrun. injection Hrun as <- <- <-.
    exists g, g. reflexivity.
  - cbn [for_each] in Hrun.
    apply bind_inv in Hrun as ([s u1] & g1 & Hbody & Hrun).
    apply bind_inv in Hrun as ([ss u2] & g2 & Hrest & Hrun).
    unfold ret in Hrun. injection Hrun as <- <- <-.
    destruct (IH _ _ _ _ _ Hrest) as (ga & ga' & Hauto).
    pose proof (custom_shift_number _ _ _ _ _ _ _ _ _ _ Hbody) as Hnum.
    rewrite !filter_cons, Hnum.
    destruct (custom !! (i + 1)) as [cs|] eqn:Hcs.
    + rewrite !decide_False by done.
      destruct (custom_shift_frame _ _ _ _ _ _ _ _ _ _ _ Hcs Hbody) as [-> _].
      eauto.
    + rewrite !decide_True by done.
      exists (Runs.four_draws g ++ ga)%list, ga'. cbn [for_each].
      rewrite (bind_Ok _ _ _ _ _
                 (auto_shift_draws _ _ _ _ _ _ _ _ _ _ Hcs Hbody ga)).
      by rewrite (bind_Ok _ _ _ _ _ Hauto).
Qed.

(** Over indices without a custom record, the custom records play no
    part. *)
Lemma automatic_loop_without_custom config content
    (custom : gmap nat (gmap string json)) start indices used g :
  Forall (Runs.automatic custom) indices →
  GeneratorCustom.shifts_loop config content custom start indices used g
    = GeneratorCustom.shifts_loop config content ∅ start indices used g.
Proof.
  intros Hall. unfold GeneratorCustom.shifts_loop. apply for_each_ext.
  intros i st g0 Hi. rewrite Forall_forall in Hall.
  unfold GeneratorCustom.shift_body. cbn zeta.
  by rewrite (Hall i Hi), lookup_empty.
Qed.

(** ** Normal return of the custom generator *)

Lemma generate_automatic_data_returns content kind used g :
  Runs.texts_in_place content kind →
  Runs.pools_in_place content →
  Runs.has_categories used →
  ∃ data used',
    GeneratorCustom.generate_automatic_data content kind used g
      = Ok ((data, used'), tl (tl (tl (tl g)))) ∧
    Runs.has_categories used'.
Proof.
  intros Htexts Hpools Hcat.
  destruct (prepared_text_Ok content kind Htexts) as [prepared Hp].
  destruct (selectors_return (Generator.pools content) used g Hpools Hcat)
    as (v1 & u1 & v2 & u2 & v3 & u3 & v4 & u4 & H1 & H2 & H3 & H4 & Hcat4).
  unfold GeneratorCustom.generate_automatic_data,
    GeneratorCustom.get_varied_content.
  rewrite (bind_Ok _ _ _ _ _ (Hp _)).
  rewrite (bind_Ok _ _ _ _ _ H1). cbn beta iota.
  rewrite (bind_Ok _ _ _ _ _ H2). cbn beta iota.
  rewrite (bind_Ok _ _ _ _ _ H3). cbn beta iota.
  rewrite (bind_Ok _ _ _ _ _ H4). cbn beta iota.
  unfold ret. eauto.
Qed.

(** Every custom record has texts in its narrative fields. *)
Lemma custom_shift_body_returns config content
    (custom : gmap nat (gmap string json)) start i kind used g :
  Spec.alternation Runs.daily_kinds i = Some kind →
  Runs.kind_in_place config content kind →
  (1 ≤ Spec.slot_date start 2 i ≤ max_ordinal)%Z →
  (∀ custom_shift, custom !! (i + 1) = Some custom_shift →
                   Overrides.typed_in custom_shift) →
  Runs.has_categories used →
  ∃ shift used' g',
    GeneratorCustom.shift_body config content custom start i used g
      = Ok ((shift, used'), g') ∧
    Runs.has_categories used'.
Proof.
  intros Hk (([est He] & [menu Hm] & Hpools) & Htiming & Htexts) Hrange
    Htyped Hcat.
  destruct (shift_slot_spec start i Hrange) as (kind' & Hk' & Hs).
  rewrite Hk in Hk'. injection Hk' as <-.
  destruct (timing_field_Ok config kind "start_time" Htiming ltac:(in_list))
    as [t1 Ht1].
  destruct (timing_field_Ok config kind "end_time" Htiming ltac:(in_list))
    as [t2 Ht2].
  destruct (timing_field_Ok config kind "hours" Htiming ltac:(in_list))
    as [t3 Ht3].
  pose proof Htexts as [Hprepared [wf Hw]].
  unfold GeneratorCustom.shift_body. cbn zeta.
  rewrite (lift_bind _ _ _ _ Hs). cbn beta iota.
  rewrite (lift_bind _ _ _ _ He).
  rewrite (bind_Ok _ _ _ _ _ (Ht1 _)), (bind_Ok _ _ _ _ _ (Ht2 _)),
    (bind_Ok _ _ _ _ _ (Ht3 _)).
  rewrite (lift_bind _ _ _ _ Hm).
  rewrite (bind_Ok _ _ _ _ _ (getitem_Ok _ _ _ _ Hw)).
  destruct (custom !! (i + 1)) as [cs|].
  - destruct (merge_custom_data_returns content cs kind g Hprepared Hpools
                (Htyped cs eq_refl)) as (data & g1 & Hmerge).
    rewrite (bind_Ok _ _ _ _ _ (bind_Ok _ _ _ _ _ Hmerge)). unfold ret. eauto.
  - destruct (generate_automatic_data_returns content kind used g Htexts
                Hpools Hcat) as (data & used' & Ha & Hcat').
    rewrite (bind_Ok _ _ _ _ _ Ha). unfold ret. eauto.
Qed.

Lemma custom_shifts_loop_returns config content
    (custom : gmap nat (gmap string json)) start indices used g :
  Runs.in_place config content →
  (∀ i, i ∈ indices → (1 ≤ Spec.slot_date start 2 i ≤ max_ordinal)%Z) →
  map_Forall (λ _ custom_shift, Overrides.typed_in custom_shift) custom →
  Runs.has_categories used →
  ∃ shifts used' g',
    GeneratorCustom.shifts_loop config content custom start indices used g
      = Ok ((shifts, used'), g') ∧
    length shifts = length indices.
Proof.
  intros Hplace Hrange Htyped Hcat.
  destruct (for_each_returns Runs.has_categories
              (GeneratorCustom.shift_body config content custom start) indices)
    with (st := used) (g := g) as (shifts & used' & g' & Hrun & Hlen & _);
    [|done|by eauto].
  intros i st g0 Hi Hst.
  pose proof (alternation_daily i) as Hk.
  eapply custom_shift_body_returns; [exact Hk| |by apply Hrange| |done].
  - apply Hplace. by eapply daily_kind_cases.
  - intros cs Hcs. by apply (Htyped _ _ Hcs).
Qed.

Lemma custom_generate_shifts_returns strptime config content
    (custom : gmap nat (gmap string json)) g :
  Runs.well_formed strptime config content →
  map_Forall (λ _ custom_shift, Overrides.typed_in custom_shift) custom →
  ∃ shifts g',
    GeneratorCustom.generate_shifts strptime config content custom g
      = Ok (shifts, g') ∧
    length shifts = 48.
Proof.
  intros [(start & Hstart & Hdates) Hplace] Htyped.
  destruct (custom_shifts_loop_returns config content custom start (seq 0 48)
              Generator.initial_used_content g Hplace)
    as (shifts & used' & g' & Hrun & Hlen);
    [|done|apply initial_has_categories|].
  { intros i Hi%elem_of_seq. apply slot_date_range; [lia|done]. }
  exists shifts, g'. split; [|by rewrite Hlen, length_seq].
  assert (Hstate : GeneratorCustom.generate_shifts_state strptime config
                     content custom g = Ok ((shifts, used'), g')).
  { unfold GeneratorCustom.generate_shifts_state.
    by rewrite (bind_Ok _ _ _ _ _ (read_start_date_Ok _ _ _ _ Hstart)). }
  unfold GeneratorCustom.generate_shifts.
  by rewrite (bind_Ok _ _ _ _ _ Hstate).
Qed.

Lemma sample_in_place : Runs.in_place Runs.sample_config Runs.sample_content.
Proof.
  intros kind Hk. unfold Runs.daily_kinds in Hk.
  assert (Hcommon : Runs.common_in_place Runs.sample_config Runs.sample_content).
  { split; [by eexists|]. split; [by eexists|]. apply sample_pools_in_place. }
  assert (Hfields : ∀ field, field ∈ ["start_time"; "end_time"; "hours"] →
                             ∃ v, subscript Runs.sample_timing field = Ok v).
  { intros field Hf.
    repeat (apply elem_of_cons in Hf as [->|Hf]; [by eexists|]).
    by apply elem_of_nil in Hf. }
  repeat (apply elem_of_cons in Hk as [->|Hk];
          [split; [exact Hcommon|]; split;
           [by eexists _, Runs.sample_timing
           |split; [by eexists _, _ | by eexists]]|]).
  by apply elem_of_nil in Hk.
Qed.

Lemma sample_well_formed :
  Runs.well_formed Runs.sample_strptime Runs.sample_config Runs.sample_content.
Proof.
  split; [|apply sample_in_place].
  exists 738900%Z. split; [by exists "2024-01-15"|].
  unfold Runs.dates_in_range, max_ordinal. lia.
Qed.

Lemma custom_blank_prepared_typed :
  Overrides.typed_in Overrides.custom_blank_prepared.
Proof.
  intros field Hin. unfold Runs.categories in Hin.
  repeat (apply elem_of_cons in Hin as [->|Hin]; [exact I|]).
  by apply elem_of_nil in Hin.
Qed.

(** C10.  In [generate_shifts] of the custom generator, a shift with a
    custom record neither reads nor writes the usage histories: it returns
    the dictionary it was given, and the same record from any other
    dictionary.  A blank or absent field of a custom record is the entry of
    the full pool at the drawn position, one draw per field.  After any
    mixture of custom and automatic shifts the histories are those that the
    automatic shifts alone produce, in the same order, from the same
    starting histories and the draws they consumed, with no custom records
    at all; the records of the automatic shifts are the same too.  The last
    part holds in particular for the 48 shifts of [generate_shifts]. *)
Theorem custom_shifts_leave_histories config content
    (custom : gmap nat (gmap string json)) :
  (∀ start i cs used g shift used' g',
     custom !! (i + 1) = Some cs →
     GeneratorCustom.shift_body config content custom start i used g
       = Ok ((shift, used'), g') →
     used' = used ∧
     ∀ other, GeneratorCustom.shift_body config content custom start i other g
                = Ok ((shift, other), g')) ∧
  (∀ cs field g text g',
     GeneratorCustom.merge_field (Generator.pools content) cs field g
       = Ok (text, g') →
     Overrides.not_supplied cs field →
     ∃ pool, Generator.pools content !! field = Some pool ∧
             pool !! (hd 0 g mod length pool) = Some text ∧ g' = tl g) ∧
  (∀ start indices used g shifts used' g',
     GeneratorCustom.shifts_loop config content custom start indices used g
       = Ok ((shifts, used'), g') →
     ∃ g_auto g_auto',
       GeneratorCustom.shifts_loop config content ∅ start
         (filter (λ i, custom !! (i + 1) = None) indices) used g_auto
       = Ok ((filter (λ s, custom !! Generator.shift_number s = None) shifts,
              used'), g_auto')) ∧
  (∀ strptime g shifts used' g',
     GeneratorCustom.generate_shifts_state strptime config content custom g
       = Ok ((shifts, used'), g') →
     ∃ start g_auto g_auto',
       Runs.reads_start strptime config start ∧
       GeneratorCustom.shifts_loop config content ∅ start
         (filter (λ i, custom !! (i + 1) = None) (seq 0 48))
         Generator.initial_used_content g_auto
       = Ok ((filter (λ s, custom !! Generator.shift_number s = None) shifts,
              used'), g_auto')).
Proof.
  assert (Hmix : ∀ start indices used g shifts used' g',
     GeneratorCustom.shifts_loop config content custom start indices used g
       = Ok ((shifts, used'), g') →
     ∃ g_auto g_auto',
       GeneratorCustom.shifts_loop config content ∅ start
         (filter (λ i, custom !! (i + 1) = None) indices) used g_auto
       = Ok ((filter (λ s, custom !! Generator.shift_number s = None) shifts,
              used'), g_auto')).
  { intros start indices used g shifts used' g' Hrun.
    destruct (mixture_histories _ _ _ _ _ _ _ _ _ _ Hrun) as (ga & ga' & Hauto).
    exists ga, ga'. rewrite <- Hauto. symmetry.
    apply automatic_loop_without_custom.
    apply Forall_forall. by intros i [Hi _]%list_elem_of_filter. }
  split; [|split; [|split]].
  - intros start i cs used g shift used' g'. apply custom_shift_frame.
  - intros cs field g text g'. apply merge_field_sample.
  - exact Hmix.
  - intros strptime g shifts used' g' Hrun.
    unfold GeneratorCustom.generate_shifts_state in Hrun.
    apply bind_inv in Hrun
      as (start & g0 & [Hstart ->]%read_start_date_inv & Hrun).
    destruct (Hmix _ _ _ _ _ _ _ Hrun) as (ga & ga' & Hauto). eauto.
Qed.

(** C10 on a run: three shifts, the second with a custom record. *)
Lemma custom_shifts_leave_histories_witness :
  ∃ shifts used' g',
    GeneratorCustom.shifts_loop Runs.sample_config Runs.sample_content
      {[ 2 := Overrides.custom_blank_prepared ]} 738900 [0; 1; 2]
      Generator.initial_used_content [1; 0; 0; 1; 2; 1; 0; 3; 1; 0; 1]
    = Ok ((shifts, used'), g') ∧
    ∃ g_auto g_auto',
      GeneratorCustom.shifts_loop Runs.sample_config Runs.sample_content ∅
        738900
        (filter (λ i, ({[ 2 := Overrides.custom_blank_prepared ]}
                         : gmap nat (gmap string json)) !! (i + 1) = None)
           [0; 1; 2])
        Generator.initial_used_content g_auto
      = Ok ((filter (λ s, ({[ 2 := Overrides.custom_blank_prepared ]}
                             : gmap nat (gmap string json))
                            !! Generator.shift_number s = None) shifts,
             used'), g_auto').
Proof.
  destruct (custom_shifts_loop_returns Runs.sample_config Runs.sample_content
              {[ 2 := Overrides.custom_blank_prepared ]} 738900 [0; 1; 2]
              Generator.initial_used_content [1; 0; 0; 1; 2; 1; 0; 3; 1; 0; 1]
              sample_in_place)
    as (shifts & used' & g' & Hrun & _).
  { intros i Hi. apply slot_date_range.
    - repeat (apply elem_of_cons in Hi as [->|Hi]; [lia|]).
      by apply elem_of_nil in Hi.
    - unfold Runs.dates_in_range, max_ordinal. lia. }
  { apply map_Forall_singleton, custom_blank_prepared_typed. }
  { apply initial_has_categories. }
  exists shifts, used', g'. split; [exact Hrun|].
  exact (proj1 (proj2 (proj2 (custom_shifts_leave_histories
                                Runs.sample_config Runs.sample_content
                                {[ 2 := Overrides.custom_blank_prepared ]})))
           _ _ _ _ _ _ _ Hrun).
Defined.

(** ** The workflow table *)

Lemma index_nat_inv {A} (seq : list A) k x :
  index seq (Z.of_nat k) = Ok x → seq !! k = Some x.
Proof.
  unfold index. cbn zeta.
  destruct (decide (Z.of_nat k < 0)%Z); [lia|].
  case_decide; [|done]. rewrite Nat2Z.id.
  destruct (seq !! k); [|done]. by intros [= ->].
Qed.

Lemma timeline_col_inj i j :
  CsvProcessorCompleto.timeline_col i = CsvProcessorCompleto.timeline_col j →
  i = j.
Proof.
  unfold CsvProcessorCompleto.timeline_col. intros H.
  by apply (inj (String.append _)), (inj pretty) in H.
Qed.

Lemma task_col_inj i j :
  CsvProcessorCompleto.task_col i = CsvProcessorCompleto.task_col j → i = j.
Proof.
  unfold CsvProcessorCompleto.task_col. intros H.
  by apply (inj (String.append _)), (inj pretty) in H.
Qed.

Lemma equipment_col_inj i j :
  CsvProcessorCompleto.equipment_col i = CsvProcessorCompleto.equipment_col j →
  i = j.
Proof.
  unfold CsvProcessorCompleto.equipment_col. intros H.
  by apply (inj (String.append _)), (inj pretty) in H.
Qed.

Lemma communication_col_inj i j :
  CsvProcessorCompleto.communication_col i
    = CsvProcessorCompleto.communication_col j →
  i = j.
Proof.
  unfold CsvProcessorCompleto.communication_col. intros H.
  by apply (inj (String.append _)), (inj pretty) in H.
Qed.

(** Two column names with different literal prefixes differ. *)
Ltac col_neq :=
  let H := fresh in
  intros H;
  unfold CsvProcessorCompleto.timeline_col, CsvProcessorCompleto.task_col,
    CsvProcessorCompleto.equipment_col, CsvProcessorCompleto.communication_col
    in H;
  cbn [String.append] in H; discriminate H.

(** The workflow rows have their columns to themselves. *)
Lemma workflow_cols_disjoint i j col :
  col ∈ Workflow.workflow_cols i → col ∈ Workflow.workflow_cols j → i = j.
Proof.
  unfold Workflow.workflow_cols. intros Hi Hj.
  repeat (apply elem_of_cons in Hi as [->|Hi]);
    try (by apply elem_of_nil in Hi);
    repeat (apply elem_of_cons in Hj as [Hj|Hj]);
    try (by apply elem_of_nil in Hj);
    first [ by apply timeline_col_inj | by apply task_col_inj
          | by apply equipment_col_inj | by apply communication_col_inj
          | exfalso; revert Hj; col_neq ].
Qed.

(** No workflow column is one of the columns filled before the loop, or the
    column of the kind of shift. *)
Lemma workflow_cols_not_basic i col :
  col ∈ Workflow.workflow_cols i →
  (col ∉ Workflow.basic_cols) ∧ col ≠ "shift_type".
Proof.
  unfold Workflow.workflow_cols, Workflow.basic_cols. intros Hi.
  repeat (apply elem_of_cons in Hi as [->|Hi]);
    try (by apply elem_of_nil in Hi);
    (split; [|col_neq]); cbn; intros Hin;
    repeat (apply elem_of_cons in Hin as [Hin|Hin]; [revert Hin; col_neq|]);
    by apply elem_of_nil in Hin.
Qed.

Lemma base_times_lookup kind i :
  1 ≤ i ≤ 8 → is_Some (Workflow.base_times kind !! (i - 1)).
Proof.
  intros Hi. apply lookup_lt_is_Some_2. unfold Workflow.base_times.
  destruct (bool_decide _); cbn; lia.
Qed.

Lemma fill_from_config_spec (config : gmap string string)
    (row : gmap string Frame.cell) col fallback
    (filled : gmap string Frame.cell) g filled' g' :
  CsvProcessorCompleto.fill_from_config config row col fallback filled g
    = Ok (filled', g') →
  g' = g ∧
  (∀ c, c ≠ col → filled' !! c = filled !! c) ∧
  ∃ v, row !! col = Some v ∧
    filled' !! col
      = if Frame.is_blank v
        then Some (Some (default fallback (config !! col)))
        else filled !! col.
Proof.
  unfold CsvProcessorCompleto.fill_from_config. intros Hrun.
  apply bind_inv in Hrun as (v & g1 & [Hv ->]%getitem_inv & Hrun).
  destruct (Frame.is_blank v) eqn:Hb; unfold ret in Hrun;
    injection Hrun as <- <-; (split; [done|]).
  - split; [intros c Hc; by rewrite lookup_insert_ne|].
    exists v. rewrite Hb. split; [done|]. apply lookup_insert_eq.
  - split; [done|]. exists v. by rewrite Hb.
Qed.

Lemma fill_from_config_returns (config : gmap string string)
    (row : gmap string Frame.cell) col fallback
    (filled : gmap string Frame.cell) g :
  is_Some (row !! col) →
  ∃ filled',
    CsvProcessorCompleto.fill_from_config config row col fallback filled g
      = Ok (filled', g).
Proof.
  intros [v Hv]. unfold CsvProcessorCompleto.fill_from_config.
  rewrite (bind_Ok _ _ _ _ _ (getitem_Ok _ _ _ _ Hv)).
  destruct (Frame.is_blank v); unfold ret; eauto.
Qed.

(** One workflow row: when the cell of the time is blank, the four cells of
    the row are written, whatever the other three held; otherwise nothing
    is written. *)
Lemma fill_workflow_row_spec (pools : gmap string (list string))
    (row : gmap string Frame.cell) i (filled : gmap string Frame.cell)
    g filled' g' :
  1 ≤ i ≤ 8 →
  CsvProcessorCompleto.fill_workflow_row pools row i filled g
    = Ok (filled', g') →
  (∀ col, col ∉ Workflow.workflow_cols i → filled' !! col = filled !! col) ∧
  ∃ v, row !! CsvProcessorCompleto.timeline_col i = Some v ∧
    if Frame.is_blank v then Workflow.generated pools row filled' i
    else filled' = filled.
Proof.
  intros Hi Hrun. unfold CsvProcessorCompleto.fill_workflow_row in Hrun.
  apply bind_inv in Hrun as (v & g1 & [Hv ->]%getitem_inv & Hrun).
  destruct (Frame.is_blank v) eqn:Hb.
  - apply bind_inv in Hrun as (kind & g1 & [Hkind ->]%getitem_inv & Hrun).
    cbn zeta in Hrun. fold (Workflow.base_times kind) in Hrun.
    rewrite decide_True in Hrun
      by (unfold Workflow.base_times; destruct (bool_decide _); cbn; lia).
    replace (Z.of_nat i - 1)%Z with (Z.of_nat (i - 1)) in Hrun by lia.
    apply bind_inv in Hrun as (t & g1 & [Ht%index_nat_inv ->]%lift_inv & Hrun).
    apply bind_inv in Hrun as (tasks & g1 & [Htasks ->]%getitem_inv & Hrun).
    apply bind_inv in Hrun as (x & g1 & Hx%choice_elem_of & Hrun).
    apply bind_inv in Hrun as (eqs & g2 & [Heqs ->]%getitem_inv & Hrun).
    apply bind_inv in Hrun as (y & g2 & Hy%choice_elem_of & Hrun).
    apply bind_inv in Hrun as (cms & g3 & [Hcms ->]%getitem_inv & Hrun).
    apply bind_inv in Hrun as (z & g3 & Hz%choice_elem_of & Hrun).
    unfold ret in Hrun. injection Hrun as <- <-.
    split.
    + intros col Hcol. unfold Workflow.workflow_cols in Hcol.
      rewrite !not_elem_of_cons in Hcol. destruct Hcol as (? & ? & ? & ? & _).
      by rewrite !lookup_insert_ne.
    + exists v. rewrite Hb. split; [done|].
      exists kind, t, tasks, x, eqs, y, cms, z.
      repeat (split; [done|]).
      split; [|split; [|split]].
      * rewrite !lookup_insert_ne by col_neq. apply lookup_insert_eq.
      * rewrite !lookup_insert_ne by col_neq. apply lookup_insert_eq.
      * rewrite !lookup_insert_ne by col_neq. apply lookup_insert_eq.
      * apply lookup_insert_eq.
  - unfold ret in Hrun. injection Hrun as <- <-.
    split; [done|]. exists v. by rewrite Hb.
Qed.

Lemma fill_workflow_row_returns (pools : gmap string (list string))
    (row : gmap string Frame.cell) i (filled : gmap string Frame.cell) g :
  1 ≤ i ≤ 8 →
  Workflow.has_columns row → Workflow.pools_in_place pools →
  ∃ filled' g',
    CsvProcessorCompleto.fill_workflow_row pools row i filled g
      = Ok (filled', g').
Proof.
  intros Hi ([kind Hkind] & _ & Htl) Hpools.
  destruct (Htl i Hi) as [v Hv].
  unfold CsvProcessorCompleto.fill_workflow_row.
  rewrite (bind_Ok _ _ _ _ _ (getitem_Ok _ _ _ _ Hv)).
  destruct (Frame.is_blank v); [|unfold ret; by eauto].
  rewrite (bind_Ok _ _ _ _ _ (getitem_Ok _ _ _ _ Hkind)).
  cbn zeta. fold (Workflow.base_times kind).
  rewrite decide_True
    by (unfold Workflow.base_times; destruct (bool_decide _); cbn; lia).
  destruct (base_times_lookup kind i Hi) as [t Ht].
  replace (Z.of_nat i - 1)%Z with (Z.of_nat (i - 1)) by lia.
  rewrite (index_of_nat _ _ _ Ht).
  rewrite (bind_Ok _ _ _ _ _ (lift_Ok _ _)).
  destruct (Hpools "workflow_tasks") as (tasks & Htasks & Hne1);
    [unfold CsvProcessorCompleto.content_fields; in_list|].
  destruct (Hpools "workflow_equipment") as (eqs & Heqs & Hne2);
    [unfold CsvProcessorCompleto.content_fields; in_list|].
  destruct (Hpools "workflow_communication") as (cms & Hcms & Hne3);
    [unfold CsvProcessorCompleto.content_fields; in_list|].
  rewrite (bind_Ok _ _ _ _ _ (getitem_Ok _ _ _ _ Htasks)).
  destruct (choice_Ok tasks g Hne1) as (x & _ & Hx).
  rewrite (bind_Ok _ _ _ _ _ Hx).
  rewrite (bind_Ok _ _ _ _ _ (getitem_Ok _ _ _ _ Heqs)).
  destruct (choice_Ok eqs (tl g) Hne2) as (y & _ & Hy).
  rewrite (bind_Ok _ _ _ _ _ Hy).
  rewrite (bind_Ok _ _ _ _ _ (getitem_Ok _ _ _ _ Hcms)).
  destruct (choice_Ok cms (tl (tl g)) Hne3) as (z & _ & Hz).
  rewrite (bind_Ok _ _ _ _ _ Hz).
  unfold ret. eauto.
Qed.

(** The loop over the workflow rows: each row follows the cell of its time
    as the row read from the sheet has it, and no other column changes. *)
Lemma fill_workflow_spec (pools : gmap string (list string))
    (row : gmap string Frame.cell) rows :
  ∀ (filled : gmap string Frame.cell) g filled' g',
    NoDup rows → Forall (λ i, 1 ≤ i ≤ 8) rows →
    CsvProcessorCompleto.fill_workflow pools row rows filled g
      = Ok (filled', g') →
    (∀ col, (∀ i, i ∈ rows → col ∉ Workflow.workflow_cols i) →
       filled' !! col = filled !! col) ∧
    (∀ i, i ∈ rows →
       ∃ v, row !! CsvProcessorCompleto.timeline_col i = Some v ∧
         if Frame.is_blank v then Workflow.generated pools row filled' i
         else Workflow.kept filled filled' i).
Proof.
  induction rows as [|i0 rows IH]; intros filled g filled' g' Hnd Hall Hrun.
  - cbn in Hrun. unfold ret in Hrun. injection Hrun as <- _.
    split; [done|]. intros i Hi. by apply elem_of_nil in Hi.
  - cbn [CsvProcessorCompleto.fill_workflow] in Hrun.
    apply bind_inv in Hrun as (filled1 & g1 & Hstep & Hrest).
    apply NoDup_cons in Hnd as [Hfresh Hnd].
    apply Forall_cons in Hall as [Hi0 Hall].
    destruct (IH _ _ _ _ Hnd Hall Hrest) as [Hother Hrows].
    destruct (fill_workflow_row_spec _ _ _ _ _ _ _ Hi0 Hstep)
      as [Hstep_other (v0 & Hv0 & Hstep_row)].
    assert (Hown : ∀ col, col ∈ Workflow.workflow_cols i0 →
                          filled' !! col = filled1 !! col).
    { intros col Hcol. apply Hother. intros j Hj Hcolj.
      apply Hfresh. by rewrite (workflow_cols_disjoint _ _ _ Hcol Hcolj). }
    split.
    + intros col Hcol.
      etrans; [apply Hother; intros j Hj; apply Hcol; by right|].
      apply Hstep_other, Hcol. by left.
    + intros i [->|Hi]%elem_of_cons.
      * exists v0. split; [done|]. destruct (Frame.is_blank v0).
        -- destruct Hstep_row
             as (kind & t & tasks & x & eqs & y & cms & z & Hk & Ht & Hts & Hx
                 & Hes & Hy & Hcs & Hz & H1 & H2 & H3 & H4).
           exists kind, t, tasks, x, eqs, y, cms, z.
           repeat (split; [done|]).
           split; [|split; [|split]];
             (etrans; [apply Hown; unfold Workflow.workflow_cols; in_list|done]).
        -- subst filled1. exact Hown.
      * destruct (Hrows i Hi) as (v & Hv & Hrow). exists v. split; [done|].
        destruct (Frame.is_blank v); [done|].
        intros col Hcol. etrans; [by apply Hrow|].
        apply Hstep_other. intros Hcol0.
        apply Hfresh. by rewrite (workflow_cols_disjoint _ _ _ Hcol0 Hcol).
Qed.

Lemma fill_workflow_returns (pools : gmap string (list string))
    (row : gmap string Frame.cell) rows :
  Forall (λ i, 1 ≤ i ≤ 8) rows →
  Workflow.has_columns row → Workflow.pools_in_place pools →
  ∀ (filled : gmap string Frame.cell) g,
    ∃ filled' g',
      CsvProcessorCompleto.fill_workflow pools row rows filled g
        = Ok (filled', g').
Proof.
  intros Hall Hcols Hpools.
  induction rows as [|i rows IH]; intros filled g.
  - cbn. unfold ret. eauto.
  - apply Forall_cons in Hall as [Hi Hall].
    destruct (fill_workflow_row_returns pools row i filled g Hi Hcols Hpools)
      as (filled1 & g1 & Hstep).
    destruct (IH Hall filled1 g1) as (filled' & g' & Hrest).
    exists filled', g'. cbn [CsvProcessorCompleto.fill_workflow].
    by rewrite (bind_Ok _ _ _ _ _ Hstep).
Qed.

Lemma completo_content_fields_distinct :
  NoDup CsvProcessorCompleto.content_fields.*1.
Proof. apply (bool_decide_unpack _). vm_compute. exact I. Qed.

Lemma seq_workflow_rows :
  NoDup (seq 1 8) ∧ Forall (λ i, 1 ≤ i ≤ 8) (seq 1 8).
Proof.
  split; [apply NoDup_seq|]. apply Forall_forall.
  intros i Hi%elem_of_seq. lia.
Qed.

(** One iteration of [fill_missing_data] of the full sheet, column by
    column. *)
Lemma completo_fill_row_spec (config : gmap string string)
    (pools : gmap string (list string)) (row : gmap string Frame.cell)
    g (row' : gmap string Frame.cell) g' :
  CsvProcessorCompleto.fill_row config pools row g = Ok (row', g') →
  (∀ col key, (col, key) ∈ CsvProcessorCompleto.content_fields →
     ∃ v, row !! col = Some v ∧
       if Frame.is_blank v then
         ∃ pool text, pools !! key = Some pool ∧ text ∈ pool ∧
                      row' !! col = Some (Some text)
       else row' !! col = Some v) ∧
  (∀ i, 1 ≤ i ≤ 8 →
     ∃ v, row !! CsvProcessorCompleto.timeline_col i = Some v ∧
       if Frame.is_blank v then Workflow.generated pools row row' i
       else Workflow.kept row row' i).
Proof.
  intros Hrun. unfold CsvProcessorCompleto.fill_row in Hrun.
  apply bind_inv in Hrun as (f1 & g1 & H1 & Hrun).
  apply bind_inv in Hrun as (f2 & g2 & H2 & Hrun).
  apply bind_inv in Hrun as (f3 & g3 & H3 & H4).
  apply fill_from_config_spec in H1 as (_ & H1 & _).
  apply fill_from_config_spec in H2 as (_ & H2 & _).
  destruct (fill_cells_spec _ _ _ _ _ _ _ completo_content_fields_distinct H3)
    as [H3other H3fields].
  destruct seq_workflow_rows as [Hnd Hall].
  destruct (fill_workflow_spec _ _ _ _ _ _ _ Hnd Hall H4) as [H4other H4rows].
  assert (Hfirst : ∀ col, col ∈ CsvProcessorCompleto.content_fields.*1 →
                          f2 !! col = row !! col).
  { intros col Hcol.
    assert (col ≠ "establishment" ∧ col ≠ "menu_style") as [Hn1 Hn2].
    { cbn in Hcol.
      repeat (apply elem_of_cons in Hcol as [->|Hcol]; [by split|]).
      by apply elem_of_nil in Hcol. }
    etrans; [by apply H2 | by apply H1]. }
  split.
  - intros col key Hin.
    assert (Hcol : col ∈ CsvProcessorCompleto.content_fields.*1).
    { apply list_elem_of_fmap. by exists (col, key). }
    destruct (H3fields col key Hin) as (v & Hv & Hres).
    exists v. split; [done|].
    assert (Hlast : row' !! col = f3 !! col).
    { apply H4other. intros i _ Hw.
      destruct (workflow_cols_not_basic i col Hw) as [Hnb _].
      apply Hnb. unfold Workflow.basic_cols. by do 2 right. }
    destruct (Frame.is_blank v).
    + destruct Hres as (pool & text & Hpool & Htext & Hres).
      exists pool, text. split; [done|]. split; [done|].
      etrans; [exact Hlast | exact Hres].
    + etrans; [exact Hlast|]. etrans; [exact Hres|].
      etrans; [by apply Hfirst | exact Hv].
  - intros i Hi.
    destruct (H4rows i ltac:(apply elem_of_seq; lia)) as (v & Hv & Hrow).
    exists v. split; [done|]. destruct (Frame.is_blank v); [done|].
    intros col Hcol. etrans; [by apply Hrow|].
    destruct (workflow_cols_not_basic i col Hcol) as [Hnb _].
    unfold Workflow.basic_cols in Hnb. cbn [app] in Hnb.
    rewrite !not_elem_of_cons in Hnb. destruct Hnb as (Hn1 & Hn2 & Hnb).
    etrans; [by apply H3other|]. etrans; [by apply H2 | by apply H1].
Qed.

Lemma completo_fill_row_returns (config : gmap string string)
    (pools : gmap string (list string)) (row : gmap string Frame.cell) g :
  Workflow.has_columns row → Workflow.pools_in_place pools →
  ∃ row' g', CsvProcessorCompleto.fill_row config pools row g = Ok (row', g').
Proof.
  intros Hcols Hpools. pose proof Hcols as (_ & Hbasic & _).
  unfold CsvProcessorCompleto.fill_row.
  destruct (fill_from_config_returns config row "establishment"
              "Restaurant Name" row g) as [f1 H1].
  { apply Hbasic. unfold Workflow.basic_cols. in_list. }
  rewrite (bind_Ok _ _ _ _ _ H1).
  destruct (fill_from_config_returns config row "menu_style"
              "à la carte" f1 g) as [f2 H2].
  { apply Hbasic. unfold Workflow.basic_cols. in_list. }
  rewrite (bind_Ok _ _ _ _ _ H2).
  destruct (fill_cells_returns pools row CsvProcessorCompleto.content_fields)
    with (filled := f2) (g := g) as (f3 & g3 & H3).
  { intros col key Hin. split.
    - apply Hbasic. unfold Workflow.basic_cols. do 2 right.
      apply list_elem_of_fmap. by exists (col, key).
    - apply Hpools. apply elem_of_app. left.
      apply list_elem_of_fmap. by exists (col, key). }
  rewrite (bind_Ok _ _ _ _ _ H3).
  apply fill_workflow_returns; [apply seq_workflow_rows|done..].
Qed.

(** What [generate_documents] hands on for a workflow row whose time is a
    text and whose task is missing: the row, with its task missing. *)
Lemma workflow_entry_missing_task (row : gmap string Frame.cell) i t equipment
    communication :
  row !! CsvProcessorCompleto.timeline_col i = Some (Some t) → t ≠ "" →
  row !! CsvProcessorCompleto.task_col i = Some None →
  row !! CsvProcessorCompleto.equipment_col i = Some equipment →
  row !! CsvProcessorCompleto.communication_col i = Some communication →
  CsvProcessorCompleto.workflow_entry row i
    = Some {| CsvProcessorCompleto.timeline := Some t;
              CsvProcessorCompleto.task := None;
              CsvProcessorCompleto.equipment := equipment;
              CsvProcessorCompleto.communication := communication |}.
Proof.
  intros Ht Hne Htask He Hc.
  unfold CsvProcessorCompleto.workflow_entry, CsvProcessorCompleto.row_get.
  cbn zeta. rewrite Ht, Htask, He, Hc. cbn.
  by destruct t.
Qed.

(** A workflow row of the sheet with a time and a missing task is handed on
    by [generate_documents] after [fill_missing_data], its task missing. *)
Lemma missing_task_handed_on (config : gmap string string)
    (pools : gmap string (list string)) (row row' : gmap string Frame.cell)
    g g' i t equipment communication :
  CsvProcessorCompleto.fill_row config pools row g = Ok (row', g') →
  1 ≤ i ≤ 8 →
  row !! CsvProcessorCompleto.timeline_col i = Some (Some t) → t ≠ "" →
  row !! CsvProcessorCompleto.task_col i = Some None →
  row !! CsvProcessorCompleto.equipment_col i = Some equipment →
  row !! CsvProcessorCompleto.communication_col i = Some communication →
  {| CsvProcessorCompleto.timeline := Some t;
     CsvProcessorCompleto.task := None;
     CsvProcessorCompleto.equipment := equipment;
     CsvProcessorCompleto.communication := communication |}
    ∈ CsvProcessorCompleto.workflow_data row'.
Proof.
  intros Hrun Hi Ht Hne Htask He Hc.
  destruct (completo_fill_row_spec _ _ _ _ _ _ Hrun) as [_ Hrows].
  destruct (Hrows i Hi) as (v & Hv & Hrow).
  rewrite Ht in Hv. injection Hv as <-.
  assert (Hb : Frame.is_blank (Some t) = false).
  { cbn. by apply bool_decide_eq_false. }
  rewrite Hb in Hrow.
  unfold CsvProcessorCompleto.workflow_data.
  apply list_elem_of_omap. exists i. split; [apply elem_of_seq; lia|].
  apply workflow_entry_missing_task; [|done|..];
    (etrans; [apply Hrow; unfold Workflow.workflow_cols; in_list|done]).
Qed.

Lemma sample_row_has_columns : Workflow.has_columns Workflow.sample_row.
Proof.
  split; [by eexists|]. split.
  - apply Forall_forall. apply (bool_decide_unpack _). vm_compute. exact I.
  - intros i Hi. assert (Hin : i ∈ seq 1 8) by (apply elem_of_seq; lia).
    clear Hi. revert i Hin. apply Forall_forall.
    apply (bool_decide_unpack _). vm_compute. exact I.
Qed.

Lemma workflow_pools_in_place : Workflow.pools_in_place Workflow.sample_pools.
Proof.
  intros key Hkey.
  assert (Hsome : is_Some (Workflow.sample_pools !! key) ∧
                  Workflow.sample_pools !! key ≠ Some []).
  { revert key Hkey. apply Forall_forall.
    apply (bool_decide_unpack _). vm_compute. exact I. }
  destruct Hsome as [[pool Hpool] Hne]. exists pool. split; [done|].
  by intros ->.
Qed.

(** What [generate_documents] hands on: the workflow rows of the sheet, in
    order, whose time and task are true in Python's sense, so none with an
    empty text for its time or its task. *)
Lemma workflow_data_spec (row : gmap string Frame.cell) e :
  e ∈ CsvProcessorCompleto.workflow_data row →
  ∃ i, 1 ≤ i ≤ 8 ∧
    CsvProcessorCompleto.timeline e
      = CsvProcessorCompleto.row_get row (CsvProcessorCompleto.timeline_col i) ∧
    CsvProcessorCompleto.task e
      = CsvProcessorCompleto.row_get row (CsvProcessorCompleto.task_col i) ∧
    CsvProcessorCompleto.equipment e
      = CsvProcessorCompleto.row_get row (CsvProcessorCompleto.equipment_col i) ∧
    CsvProcessorCompleto.communication e
      = CsvProcessorCompleto.row_get row
          (CsvProcessorCompleto.communication_col i) ∧
    CsvProcessorCompleto.timeline e ≠ Some "" ∧
    CsvProcessorCompleto.task e ≠ Some "".
Proof.
  unfold CsvProcessorCompleto.workflow_data.
  intros (i & Hi%elem_of_seq & Hentry)%list_elem_of_omap.
  exists i. split; [lia|].
  unfold CsvProcessorCompleto.workflow_entry in Hentry. cbn zeta in Hentry.
  destruct (Frame.cell_truthy _ && Frame.cell_truthy _) eqn:Htruthy; [|done].
  injection Hentry as <-. cbn.
  apply andb_prop in Htruthy as [Ht Hk].
  repeat (split; [reflexivity|]).
  split; intros Heq; [rewrite Heq in Ht | rewrite Heq in Hk]; done.
Qed.

(** C7, as the code has it.  In [fill_missing_data] of the full sheet the
    narrative columns are resolved one by one: a cell that is neither
    missing nor the empty string is kept, any other gets an entry of the
    pool of its column.  The cells of a workflow row are not: the row is
    decided by the cell of its time alone.  When that cell is blank the
    four cells of the row are written, the time of the position and one
    entry of each of the three workflow pools, whatever the task, equipment
    and communication cells held; when it is not blank the four cells stay
    as the sheet has them, blank ones included.  [generate_documents] hands
    on workflow rows of the sheet only, and none whose time or task is the
    empty text.  The row is filled whenever the sheet has the columns read
    and the pools are in place and not empty. *)
Theorem workflow_rows_follow_timeline :
  (∀ (config : gmap string string) (pools : gmap string (list string))
     (row row' : gmap string Frame.cell) g g',
     CsvProcessorCompleto.fill_row config pools row g = Ok (row', g') →
     (∀ col key, (col, key) ∈ CsvProcessorCompleto.content_fields →
        ∃ v, row !! col = Some v ∧
          if Frame.is_blank v then
            ∃ pool text, pools !! key = Some pool ∧ text ∈ pool ∧
                         row' !! col = Some (Some text)
          else row' !! col = Some v) ∧
     (∀ i, 1 ≤ i ≤ 8 →
        ∃ v, row !! CsvProcessorCompleto.timeline_col i = Some v ∧
          if Frame.is_blank v then Workflow.generated pools row row' i
          else Workflow.kept row row' i)) ∧
  (∀ (row : gmap string Frame.cell) e,
     e ∈ CsvProcessorCompleto.workflow_data row →
     ∃ i, 1 ≤ i ≤ 8 ∧
       CsvProcessorCompleto.timeline e
         = CsvProcessorCompleto.row_get row
             (CsvProcessorCompleto.timeline_col i) ∧
       CsvProcessorCompleto.task e
         = CsvProcessorCompleto.row_get row (CsvProcessorCompleto.task_col i) ∧
       CsvProcessorCompleto.equipment e
         = CsvProcessorCompleto.row_get row
             (CsvProcessorCompleto.equipment_col i) ∧
       CsvProcessorCompleto.communication e
         = CsvProcessorCompleto.row_get row
             (CsvProcessorCompleto.communication_col i) ∧
       CsvProcessorCompleto.timeline e ≠ Some "" ∧
       CsvProcessorCompleto.task e ≠ Some "") ∧
  (∀ (config : gmap string string) (pools : gmap string (list string))
     (row : gmap string Frame.cell) g,
     Workflow.has_columns row → Workflow.pools_in_place pools →
     ∃ row' g',
       CsvProcessorCompleto.fill_row config pools row g = Ok (row', g')).
Proof.
  split; [|split; [apply workflow_data_spec | apply completo_fill_row_returns]].
  intros config pools row row' g g'. apply completo_fill_row_spec.
Qed.

(** C7 on a row: the first workflow row, whose time is missing, is
    generated; the second, whose time the user wrote, is kept. *)
Lemma workflow_rows_follow_timeline_witness :
  ∃ (row' : gmap string Frame.cell) g',
    CsvProcessorCompleto.fill_row ∅ Workflow.sample_pools Workflow.sample_row []
      = Ok (row', g') ∧
    Workflow.generated Workflow.sample_pools Workflow.sample_row row' 1 ∧
    Workflow.kept Workflow.sample_row row' 2.
Proof.
  destruct (proj2 (proj2 workflow_rows_follow_timeline) ∅
              Workflow.sample_pools Workflow.sample_row []
              sample_row_has_columns workflow_pools_in_place)
    as (row' & g' & Hrun).
  destruct (proj1 workflow_rows_follow_timeline _ _ _ _ _ _ Hrun)
    as (_ & Hrows).
  exists row', g'. split; [exact Hrun|]. split.
  - destruct (Hrows 1 ltac:(lia)) as (v & Hv & Hrow).
    assert (Hcell : Workflow.sample_row !! CsvProcessorCompleto.timeline_col 1
                    = Some None) by (vm_compute; reflexivity).
    rewrite Hcell in Hv. injection Hv as <-. exact Hrow.
  - destruct (Hrows 2 ltac:(lia)) as (v & Hv & Hrow).
    assert (Hcell : Workflow.sample_row !! CsvProcessorCompleto.timeline_col 2
                    = Some (Some "11:15")) by (vm_compute; reflexivity).
    rewrite Hcell in Hv. injection Hv as <-. exact Hrow.
Defined.

(** C7, as stated, fails twice on one row.  The user wrote the task of the
    first workflow row and left its time out: the task is overwritten by an
    entry of the pool.  The user wrote the time of the second workflow row
    and left its task out: the task stays missing, and the row reaches the
    emitter with a time and no task. *)
Lemma workflow_cells_counterexample :
  ∃ (row' : gmap string Frame.cell) g',
    CsvProcessorCompleto.fill_row ∅ Workflow.sample_pools Workflow.sample_row []
      = Ok (row', g') ∧
    Workflow.sample_row !! CsvProcessorCompleto.task_col 1
      = Some (Some "Brief the team") ∧
    row' !! CsvProcessorCompleto.task_col 1
      = Some (Some "text of workflow_tasks") ∧
    Workflow.sample_row !! CsvProcessorCompleto.timeline_col 2
      = Some (Some "11:15") ∧
    Workflow.sample_row !! CsvProcessorCompleto.task_col 2 = Some None ∧
    row' !! CsvProcessorCompleto.task_col 2 = Some None ∧
    {| CsvProcessorCompleto.timeline := Some "11:15";
       CsvProcessorCompleto.task := None;
       CsvProcessorCompleto.equipment := None;
       CsvProcessorCompleto.communication := None |}
      ∈ CsvProcessorCompleto.workflow_data row'.
Proof.
  destruct (completo_fill_row_returns ∅ Workflow.sample_pools
              Workflow.sample_row [] sample_row_has_columns
              workflow_pools_in_place) as (row' & g' & Hrun).
  destruct (completo_fill_row_spec _ _ _ _ _ _ Hrun) as [_ Hrows].
  assert (Ht1 : Workflow.sample_row !! CsvProcessorCompleto.timeline_col 1
                = Some None) by (vm_compute; reflexivity).
  assert (Ht2 : Workflow.sample_row !! CsvProcessorCompleto.timeline_col 2
                = Some (Some "11:15")) by (vm_compute; reflexivity).
  assert (Hk2 : Workflow.sample_row !! CsvProcessorCompleto.task_col 2
                = Some None) by (vm_compute; reflexivity).
  exists row', g'. split; [exact Hrun|].
  split; [vm_compute; reflexivity|]. split.
  { destruct (Hrows 1 ltac:(lia)) as (v & Hv & Hrow).
    rewrite Ht1 in Hv. injection Hv as <-.
    destruct Hrow as (kind & t & tasks & x & eqs & y & cms & z & _ & _ & Hts
                      & Hx & _ & _ & _ & _ & _ & Htask & _).
    assert (Hpool : Workflow.sample_pools !! "workflow_tasks"
                    = Some ["text of workflow_tasks"])
      by (vm_compute; reflexivity).
    rewrite Hpool in Hts. injection Hts as <-.
    apply list_elem_of_singleton in Hx as ->. exact Htask. }
  split; [exact Ht2|]. split; [exact Hk2|]. split.
  { destruct (Hrows 2 ltac:(lia)) as (v & Hv & Hrow).
    rewrite Ht2 in Hv. injection Hv as <-.
    etrans; [apply Hrow; unfold Workflow.workflow_cols; in_list|exact Hk2]. }
  apply (missing_task_handed_on ∅ _ _ _ _ _ 2 "11:15" None None Hrun
           ltac:(lia) Ht2 ltac:(done) Hk2); vm_compute; reflexivity.
Qed.

(** ** The schedule of the generators *)

Lemma sample_reads_start start :
  Runs.reads_start Runs.sample_strptime Runs.sample_config start →
  start = 738900%Z.
Proof.
  intros (text & Htext & Hparse). cbn in Htext. injection Htext as <-.
  cbn in Hparse. by injection Hparse as <-.
Qed.

Lemma last_day_in_place :
  Runs.in_place Runs.config_last_day Runs.sample_content.
Proof.
  intros kind Hk.
  destruct (sample_in_place kind Hk) as (Hcommon & Htiming & Htexts).
  done.
Qed.

(** C3, as the code has it.  The count, the kinds and the slots per day
    are literals of the generators: 48 shifts of the kinds lunch and
    dinner, two a day; Preparation, Sauce, Garnish in blocks of five days.
    With them, scheduling is a function of the start date alone, free of
    the random source and of the pools.  In the daily generators the slot
    [i] (0-based) gets the number [i + 1], the date
    [start_date + floor(i / 2)] and the kind [kinds[i % 2]], as long as the
    date is one of the calendar; the list a generator returns carries
    exactly that schedule from the start date read from the configuration,
    the generators return when the two files are as expected, and two runs
    from the same start date carry the same schedule.  In the recipe
    rotation the day [i + 1] gets the kind [kinds[(i // 5) % 3]], for every
    number of days. *)
Theorem scheduling_is_deterministic :
  (∀ start i,
     (1 ≤ Spec.slot_date start 2 i ≤ max_ordinal)%Z →
     ∃ kind,
       Spec.alternation Runs.daily_kinds i = Some kind ∧
       Generator.shift_slot start i = Ok (Spec.slot_date start 2 i, kind)) ∧
  (∀ strptime config content g shifts g',
     Generator.generate_shifts strptime config content g = Ok (shifts, g') →
     ∃ start,
       Runs.reads_start strptime config start ∧ Runs.dates_in_range start ∧
       Runs.slot_of <$> shifts
         = Spec.schedule start 48 (title <$> Runs.daily_kinds) 2) ∧
  (∀ strptime config content custom g shifts g',
     GeneratorCustom.generate_shifts strptime config content custom g
       = Ok (shifts, g') →
     ∃ start,
       Runs.reads_start strptime config start ∧ Runs.dates_in_range start ∧
       Runs.slot_of <$> shifts
         = Spec.schedule start 48 (title <$> Runs.daily_kinds) 2) ∧
  (∀ strptime config content g,
     Runs.well_formed strptime config content →
     ∃ shifts g',
       Generator.generate_shifts strptime config content g = Ok (shifts, g') ∧
       length shifts = 48) ∧
  (∀ strptime config content (custom : gmap nat (gmap string json)) g,
     Runs.well_formed strptime config content →
     map_Forall (λ _ custom_shift, Overrides.typed_in custom_shift) custom →
     ∃ shifts g',
       GeneratorCustom.generate_shifts strptime config content custom g
         = Ok (shifts, g') ∧
       length shifts = 48) ∧
  (∀ i, ∃ kind,
     Spec.block_rotation LogbookGenerator.pattern 5 i = Some kind ∧
     LogbookGenerator.shift_of_day (Z.of_nat i + 1) = Ok kind) ∧
  (∀ recipes days g data g',
     LogbookGenerator.generate_shift_data recipes days g = Ok (data, g') →
     (λ d, Some (LogbookGenerator.shift d)) <$> data
       = Spec.rotation_schedule (Z.to_nat days) LogbookGenerator.pattern 5) ∧
  (∀ strptime config1 content1 g1 shifts1 g1' config2 content2 g2 shifts2 g2',
     subscript config1 "start_date" = subscript config2 "start_date" →
     Generator.generate_shifts strptime config1 content1 g1
       = Ok (shifts1, g1') →
     Generator.generate_shifts strptime config2 content2 g2
       = Ok (shifts2, g2') →
     Runs.slot_of <$> shifts1 = Runs.slot_of <$> shifts2).
Proof.
  split; [apply shift_slot_spec|].
  split; [apply generate_shifts_schedule|].
  split; [apply custom_generate_shifts_schedule|].
  split; [apply generate_shifts_returns|].
  split; [apply custom_generate_shifts_returns|].
  split; [apply shift_of_day_spec|].
  split; [apply generate_shift_data_schedule|].
  intros strptime config1 content1 g1 shifts1 g1' config2 content2 g2 shifts2
    g2' Hsame H1 H2.
  apply generate_shifts_schedule in H1
    as (start1 & (text1 & Ht1 & Hp1) & _ & ->).
  apply generate_shifts_schedule in H2
    as (start2 & (text2 & Ht2 & Hp2) & _ & ->).
  rewrite Hsame, Ht2 in Ht1. injection Ht1 as <-.
  rewrite Hp2 in Hp1. by injection Hp1 as <-.
Qed.

(** C3 on a run: the 48 slots from 2024-01-15. *)
Lemma scheduling_is_deterministic_witness :
  ∃ shifts g',
    Generator.generate_shifts Runs.sample_strptime Runs.sample_config
      Runs.sample_content [] = Ok (shifts, g') ∧
    Runs.slot_of <$> shifts
      = Spec.schedule 738900 48 (title <$> Runs.daily_kinds) 2.
Proof.
  destruct (proj1 (proj2 (proj2 (proj2 scheduling_is_deterministic)))
              Runs.sample_strptime Runs.sample_config Runs.sample_content []
              sample_well_formed) as (shifts & g' & Hrun & _).
  exists shifts, g'. split; [exact Hrun|].
  destruct (proj1 (proj2 scheduling_is_deterministic) _ _ _ _ _ _ Hrun)
    as (start & Hstart & _ & Hschedule).
  by rewrite (sample_reads_start start Hstart) in Hschedule.
Defined.

(** C3, as stated, fails for a start date on the last day of the calendar:
    the slot 2 should get the day after, which is no date, and the loop
    ends in [OverflowError] with no schedule at all. *)
Lemma scheduling_overflow_counterexample :
  Spec.slot_date max_ordinal 2 2 = (max_ordinal + 1)%Z ∧
  Generator.shift_slot max_ordinal 2 = Raise OverflowError ∧
  Runs.reads_start Runs.sample_strptime Runs.config_last_day max_ordinal ∧
  Generator.generate_shifts Runs.sample_strptime Runs.config_last_day
    Runs.sample_content [] = Raise OverflowError.
Proof.
  split; [reflexivity|]. split; [reflexivity|].
  assert (Hstart : Runs.reads_start Runs.sample_strptime Runs.config_last_day
                     max_ordinal) by (by exists "9999-12-31").
  split; [exact Hstart|].
  apply (generate_shifts_overflow _ _ _ max_ordinal);
    [exact Hstart | apply last_day_in_place | |]; unfold max_ordinal; lia.
Qed.

(** The example of section 8: four slots from a start date, two a day. *)
Example schedule_four_slots (d : Z) :
  Spec.schedule d 4 ["lunch"; "dinner"] 2
    = [ (1, d, Some "lunch"); (2, d, Some "dinner");
        (3, (d + 1)%Z, Some "lunch"); (4, (d + 1)%Z, Some "dinner") ].
Proof.
  unfold Spec.schedule, Spec.slot_date, Spec.alternation. cbn.
  by rewrite Z.add_0_r.
Qed.

(** ** Normal return and failures of the scheduler *)

Lemma generate_shifts_length strptime config content g shifts g' :
  Generator.generate_shifts strptime config content g = Ok (shifts, g') →
  length shifts = 48.
Proof.
  intros (start & _ & _ & Hschedule)%generate_shifts_schedule.
  apply (f_equal length) in Hschedule.
  unfold Spec.schedule in Hschedule.
  by rewrite !length_fmap, length_seq in Hschedule.
Qed.

(** C9, as the code has it.  The schedulers take no list of kinds and no
    number of slots per day: both are literals of the loops, neither empty
    nor non-positive, and no exception for a bad configuration exists.  The
    date and kind of a slot are computed exactly when the date is one of
    the calendar, and [OverflowError] is raised otherwise; the kind of a
    day of the rotation is defined for every day.  [generate_shifts]
    returns 48 shifts when the start date of the configuration is a text
    the parser accepts, the 24 days from it are dates of the calendar, and
    the two files hold what the shifts of both kinds read; it returns only
    for such a start date.  It fails as the lookup of the start date does
    when the entry is missing, as the parser does on a text it rejects,
    with [OverflowError] when the calendar ends within the 24 days, and as
    the lookup of a kind of shift does when its times are missing. *)
Theorem scheduler_returns_normally :
  (∀ start i,
     Generator.shift_slot start i
       = if decide (1 ≤ Spec.slot_date start 2 i ≤ max_ordinal)%Z
         then Ok (Spec.slot_date start 2 i,
                  if decide (i mod 2 = 0) then "lunch" else "dinner")
         else Raise OverflowError) ∧
  (∀ day, ∃ kind, LogbookGenerator.shift_of_day day = Ok kind) ∧
  (∀ strptime config content g,
     Runs.well_formed strptime config content →
     ∃ shifts g',
       Generator.generate_shifts strptime config content g = Ok (shifts, g') ∧
       length shifts = 48) ∧
  (∀ strptime config content g shifts g',
     Generator.generate_shifts strptime config content g = Ok (shifts, g') →
     length shifts = 48 ∧
     ∃ start, Runs.reads_start strptime config start ∧
              Runs.dates_in_range start) ∧
  (∀ strptime config content g e,
     subscript config "start_date" = Raise e →
     Generator.generate_shifts strptime config content g = Raise e) ∧
  (∀ strptime config content g text e,
     subscript config "start_date" = Ok text →
     parse_date strptime text = Raise e →
     Generator.generate_shifts strptime config content g = Raise e) ∧
  (∀ strptime config content start g,
     Runs.reads_start strptime config start →
     Runs.in_place config content →
     (1 ≤ start ≤ max_ordinal)%Z → (max_ordinal < start + 23)%Z →
     Generator.generate_shifts strptime config content g
       = Raise OverflowError) ∧
  (∀ strptime config content start kind shifts e g,
     Runs.reads_start strptime config start →
     Runs.dates_in_range start →
     kind ∈ Runs.daily_kinds →
     (kind = "dinner" → Runs.kind_in_place config content "lunch") →
     (∃ v, subscript config "establishment" = Ok v) →
     subscript config "shifts" = Ok shifts →
     subscript shifts kind = Raise e →
     Generator.generate_shifts strptime config content g = Raise e).
Proof.
  split; [apply shift_slot_cases|].
  split; [intros day; destruct (shift_of_day_returns day) as (kind & Hk & _);
          by eauto|].
  split; [apply generate_shifts_returns|].
  split.
  { intros strptime config content g shifts g' Hrun.
    split; [by eapply generate_shifts_length|].
    apply generate_shifts_schedule in Hrun as (start & ? & ? & _). eauto. }
  split.
  { intros strptime config content g e Hmissing.
    apply generate_shifts_start_raises. unfold Generator.read_start_date.
    by apply lift_bind_raise. }
  split.
  { intros strptime config content g text e Htext Hparse.
    apply generate_shifts_start_raises. unfold Generator.read_start_date.
    rewrite (lift_bind _ _ _ _ Htext). by rewrite Hparse. }
  split; [apply generate_shifts_overflow|].
  apply generate_shifts_timing_raises.
Qed.

(** C9 on a run: the sample configuration gives its 48 shifts. *)
Lemma scheduler_returns_normally_witness :
  ∃ shifts g',
    Generator.generate_shifts Runs.sample_strptime Runs.sample_config
      Runs.sample_content [3; 1; 4] = Ok (shifts, g') ∧ length shifts = 48.
Proof.
  apply (proj1 (proj2 (proj2 scheduler_returns_normally))
           Runs.sample_strptime Runs.sample_config Runs.sample_content
           [3; 1; 4]).
  apply sample_well_formed.
Defined.

(** C9, as stated, fails.  The kinds and the slots per day are in place,
    being literals, yet the scheduler does not return normally: for a
    configuration that starts on the last day of the calendar it ends in
    [OverflowError], whatever the parser otherwise does, and for a
    configuration without a start date in [KeyError]. *)
Lemma scheduler_configuration_error_counterexample :
  (∀ strptime g,
     strptime "9999-12-31" = Ok max_ordinal →
     Generator.generate_shifts strptime Runs.config_last_day
       Runs.sample_content g = Raise OverflowError) ∧
  (∀ strptime g,
     Generator.generate_shifts strptime (JDict ∅) Runs.sample_content g
       = Raise (KeyError "start_date")).
Proof.
  split.
  - intros strptime g Hparse.
    apply (generate_shifts_overflow _ _ _ max_ordinal);
      [by exists "9999-12-31" | apply last_day_in_place | |];
      unfold max_ordinal; lia.
  - intros strptime g. apply generate_shifts_start_raises.
    unfold Generator.read_start_date. by apply lift_bind_raise.
Qed.
